(** * Applio: rvc/train/preprocess/preprocess.py

    A shallow embedding of the dataset preprocessing step: the peak
    normaliser, the dual-rate writer, the overlapping window cutter of
    [process_audio], the duration formatter, the JSON duration report and the
    run driver [preprocess_training_set].

    Conventions.
    - Python ints are [Z]; sequences of samples are lists and are sliced with
      Python's slice rules ([py_slice]).
    - Python/numpy floats are kept abstract behind the interface [PyFloat],
      which has two instances: [binary64] (Rocq's primitive IEEE-754
      doubles, bit-exact: the arithmetic of the program, on which concrete
      runs are evaluated) and [Q_float] (exact rational arithmetic, the
      idealisation in which the theorems that say so are proved; it has no
      NaN and must not be used with a zero divisor).  A theorem stated for
      every [PyFloat] holds of both.
    - Statements that may raise live in the monad [M]: a state transformer
      whose results are a normal return, a raised exception (both carrying
      the state reached), or [Spin] when the fuel of a [while True] loop is
      used up.
    - The file system is a [gmap] from paths to files.
    - What the module imports (load_audio, Slicer.slice, scipy's lfilter,
      librosa's resample, numpy's astype, the operating system) is a
      parameter of the development: the fields of the record [env]. *)

From Stdlib Require Import ZArith QArith Qabs Qround Qminmax Lia Lqa.
From Stdlib Require Import String Ascii List Sorted DecimalString.
From Stdlib Require Import PrimFloat FloatOps SpecFloat Uint63.
From Stdlib Require DecimalZ DecimalPos FloatAxioms.
From stdpp Require Import base option list gmap strings.
Import ListNotations.

Set Warnings "-register-all".

#[local] Open Scope string_scope.
#[local] Open Scope Z_scope.

(** ** Floating-point interface *)

Class PyFloat (F : Type) := {
  f_of_Z : Z -> F;            (* float(n) of a Python int n *)
  f_add : F -> F -> F;
  f_sub : F -> F -> F;
  f_mul : F -> F -> F;
  f_div : F -> F -> F;        (* numpy true division: never raises *)
  f_floordiv : F -> F -> F;   (* x // y, y <> 0 *)
  f_mod : F -> F -> F;        (* x % y,  y <> 0 *)
  f_abs : F -> F;
  f_max : F -> F -> F;        (* np.maximum: a NaN operand wins *)
  f_ltb : F -> F -> bool;     (* x < y *)
  f_int : F -> option Z       (* int(x): truncation; raises on NaN and inf *)
}.

Declare Scope pyf_scope.
Delimit Scope pyf_scope with pyf.
Notation "x + y" := (f_add x y) : pyf_scope.
Notation "x - y" := (f_sub x y) : pyf_scope.
Notation "x * y" := (f_mul x y) : pyf_scope.
Notation "x / y" := (f_div x y) : pyf_scope.
Notation "x // y" := (f_floordiv x y) (at level 40, left associativity) : pyf_scope.
Notation "x 'mod' y" := (f_mod x y) : pyf_scope.
Notation "x <? y" := (f_ltb x y) : pyf_scope.
Notation "x >? y" := (f_ltb y x) : pyf_scope.

(** The decimal literal [m * 10^-k].  Both [m] and [10^k] are small integers,
    exactly representable, so one correctly rounded division yields the
    double that Python's parser yields for the literal. *)
Definition dec `{PyFloat F} (m : Z) (k : Z) : F :=
  (f_of_Z m / f_of_Z (10 ^ k))%pyf.

(** *** Exact rationals *)

Module QF.
Definition floordiv (x y : Q) : Q := inject_Z (Qfloor (x / y)).
Definition modulo (x y : Q) : Q := (x - y * floordiv x y)%Q.
Definition ltb (x y : Q) : bool := negb (Qle_bool y x).
Definition trunc (x : Q) : Z := Z.quot (Qnum x) (Z.pos (Qden x)).
End QF.

#[export] Instance Q_float : PyFloat Q := {
  f_of_Z := inject_Z;
  f_add := Qplus;
  f_sub := Qminus;
  f_mul := Qmult;
  f_div := Qdiv;
  f_floordiv := QF.floordiv;
  f_mod := QF.modulo;
  f_abs := Qabs;
  f_max := Qmax;
  f_ltb := QF.ltb;
  f_int := fun x => Some (QF.trunc x)
}.

(** *** IEEE-754 binary64 *)

Module B64.
(** float(n), exact for |n| < 2^53 and correctly rounded up to 2^63. *)
Definition of_Z (z : Z) : float :=
  if z <? 0 then (- of_uint63 (Uint63.of_Z (- z)))%float
  else of_uint63 (Uint63.of_Z z).

(** int(x) *)
Definition to_int (x : float) : option Z :=
  match Prim2SF x with
  | S754_zero _ => Some 0
  | S754_finite s m e =>
      let v := if 0 <=? e then Z.pos m * 2 ^ e else Z.pos m / 2 ^ (- e) in
      Some (if s then - v else v)
  | S754_infinity _ | S754_nan => None
  end.

(** np.maximum *)
Definition max (x y : float) : float :=
  if is_nan x then x else if is_nan y then y
  else if (x <? y)%float then y else x.

(** C's floor *)
Definition floor (x : float) : float :=
  match Prim2SF x with
  | S754_finite s m e =>
      if 0 <=? e then x
      else
        let q := Z.pos m / 2 ^ (- e) in
        let exact := Z.pos m mod 2 ^ (- e) =? 0 in
        if s then (if exact then - of_Z q else - of_Z (q + 1))%float
        else of_Z q
  | _ => x
  end.

(** C's fmod: the exact remainder, with the sign of [x]. *)
Definition fmod (x y : float) : float :=
  match Prim2SF x, Prim2SF y with
  | S754_nan, _ | _, S754_nan => nan
  | S754_infinity _, _ | _, S754_zero _ => nan
  | S754_zero _, _ => x
  | S754_finite _ _ _, S754_infinity _ => x
  | S754_finite sx mx ex, S754_finite _ my ey =>
      let e := Z.min ex ey in
      let r := Z.rem (Z.pos mx * 2 ^ (ex - e)) (Z.pos my * 2 ^ (ey - e)) in
      let f := Z.ldexp (of_Z r) e in
      if sx then (- f)%float else f
  end.

Definition signed_zero (like : float) : float :=
  if get_sign like then neg_zero else zero.

Definition nonzero (x : float) : bool := negb (x =? zero)%float.

(** CPython's float_rem *)
Definition modulo (x y : float) : float :=
  let m := fmod x y in
  if nonzero m then
    if xorb (y <? zero)%float (m <? zero)%float then (m + y)%float else m
  else signed_zero y.

(** CPython's float_floor_div *)
Definition floordiv (x y : float) : float :=
  let m := fmod x y in
  let d := ((x - m) / y)%float in
  let d := if nonzero m && xorb (y <? zero)%float (m <? zero)%float
           then (d - one)%float else d in
  if nonzero d then
    let fl := floor d in
    if (0.5 <? d - fl)%float then (fl + one)%float else fl
  else signed_zero (x / y)%float.
End B64.

#[export] Instance binary64 : PyFloat float := {
  f_of_Z := B64.of_Z;
  f_add := PrimFloat.add;
  f_sub := PrimFloat.sub;
  f_mul := PrimFloat.mul;
  f_div := PrimFloat.div;
  f_floordiv := B64.floordiv;
  f_mod := B64.modulo;
  f_abs := PrimFloat.abs;
  f_max := B64.max;
  f_ltb := PrimFloat.ltb;
  f_int := B64.to_int
}.


(** ** Python values and built-ins *)

(** str(n) of an int *)
Definition str_of_Z (n : Z) : string := NilZero.string_of_int (Z.to_int n).

(** format(n, "02"): sign-aware zero padding to width 2 *)
Definition fmt02 (n : Z) : string :=
  if (0 <=? n) && (n <? 10) then "0" ++ str_of_Z n else str_of_Z n.

(** str.lower, on ASCII *)
Definition lower_ascii (c : ascii) : ascii :=
  let n := nat_of_ascii c in
  if (65 <=? n)%nat && (n <=? 90)%nat then ascii_of_nat (n + 32) else c.

Fixpoint lower (s : string) : string :=
  match s with
  | EmptyString => EmptyString
  | String c s' => String (lower_ascii c) (lower s')
  end.

(** str.endswith: some tail of [s] is [suffix] *)
Fixpoint endswith (s suffix : string) : bool :=
  String.eqb s suffix ||
  match s with
  | EmptyString => false
  | String _ s' => endswith s' suffix
  end.

Definition startswith (s pre : string) : bool := String.prefix pre s.

(** os.path.join of two components (posixpath) *)
Definition path_join (a b : string) : string :=
  if startswith b "/" then b
  else if String.eqb a "" || endswith a "/" then a ++ b
  else a ++ "/" ++ b.

(** len(x) *)
Definition len {A} (l : list A) : Z := Z.of_nat (length l).

(** The position a slice bound denotes in a sequence of length [n]. *)
Definition py_clamp (n i : Z) : Z :=
  if i <? 0 then Z.max (n + i) 0 else Z.min i n.

(** x[start:] *)
Definition slice_from {A} (l : list A) (start : Z) : list A :=
  drop (Z.to_nat (py_clamp (len l) start)) l.

(** x[start:stop] *)
Definition py_slice {A} (l : list A) (start stop : Z) : list A :=
  let lo := py_clamp (len l) start in
  let hi := py_clamp (len l) stop in
  take (Z.to_nat (hi - lo)) (drop (Z.to_nat lo) l).

(** enumerate *)
Fixpoint enumerate_from {A} (i : Z) (l : list A) : list (Z * A) :=
  match l with
  | [] => []
  | a :: l' => (i, a) :: enumerate_from (i + 1) l'
  end.
Definition enumerate {A} (l : list A) : list (Z * A) := enumerate_from 0 l.

Inductive exn : Set :=
  | FileNotFoundError | JSONDecodeError | AttributeError
  | ValueError | OverflowError | OSError | RuntimeError.

#[export] Instance exn_eq_dec : EqDecision exn.
Proof. solve_decision. Defined.

(** What iterating an iterable does: yield items, then stop or raise. *)
Inductive gen (A : Type) : Type :=
  | Stop
  | Yield (a : A) (rest : gen A)
  | Fail (e : exn).
Arguments Stop {A}.
Arguments Yield {A} a rest.
Arguments Fail {A} e.

Fixpoint gen_of_list {A} (l : list A) : gen A :=
  match l with
  | [] => Stop
  | a :: l' => Yield a (gen_of_list l')
  end.

(** ** The monad of statements *)

Inductive result (S A : Type) : Type :=
  | Ret (a : A) (s : S)       (* normal completion *)
  | Raise (e : exn) (s : S)   (* an exception propagates *)
  | Spin.                     (* the loop fuel ran out *)
Arguments Ret {S A} a s.
Arguments Raise {S A} e s.
Arguments Spin {S A}.

Definition M (S A : Type) : Type := S -> result S A.

Definition ret {S A} (a : A) : M S A := fun s => Ret a s.
Definition raise {S A} (e : exn) : M S A := fun s => Raise e s.
Definition spin {S A} : M S A := fun _ => Spin.

Definition bind {S A B} (c : M S A) (k : A -> M S B) : M S B :=
  fun s =>
    match c s with
    | Ret a s' => k a s'
    | Raise e s' => Raise e s'
    | Spin => Spin
    end.

Definition get {S} : M S S := fun s => Ret s s.
Definition modify {S} (f : S -> S) : M S unit := fun s => Ret tt (f s).

(** A call that either raises or returns, without touching the state. *)
Definition call {S A} (r : exn + A) : M S A :=
  match r with
  | inl e => raise e
  | inr a => ret a
  end.

(** try: [c] except [e]: [h] *)
Definition try_except {S A} (c : M S A) (e : exn) (h : M S A) : M S A :=
  fun s =>
    match c s with
    | Raise e' s' => if decide (e' = e) then h s' else Raise e' s'
    | r => r
    end.

(** try: [c] except Exception: pass *)
Definition try_except_all {S} (c : M S unit) : M S unit :=
  fun s =>
    match c s with
    | Raise _ s' => Ret tt s'
    | r => r
    end.

(** Run a statement inside a larger state of which it sees a part. *)
Definition zoom {S T A} (proj : T -> S) (inj : S -> T -> T) (c : M S A) : M T A :=
  fun t =>
    match c (proj t) with
    | Ret a s => Ret a (inj s t)
    | Raise e s => Raise e (inj s t)
    | Spin => Spin
    end.

Declare Scope py_scope.
Delimit Scope py_scope with py.
Notation "x <- c1 ;; c2" := (bind c1 (fun x => c2))
  (at level 100, c1 at next level, right associativity) : py_scope.
Notation "c1 ;; c2" := (bind c1 (fun _ => c2))
  (at level 100, right associativity) : py_scope.

(** for x in g: body x *)
Fixpoint for_in {S A} (g : gen A) (body : A -> M S unit) : M S unit :=
  match g with
  | Stop => ret tt
  | Fail e => raise e
  | Yield a rest => (body a ;; for_in rest body)%py
  end.

(** The state a result carries, if any. *)
Definition final {S A} (r : result S A) : option S :=
  match r with
  | Ret _ s | Raise _ s => Some s
  | Spin => None
  end.


(** ** The module *)

Section Pipeline.
Context {F : Type} `{PyFloat F}.

(** JSON documents, and what is stored under a path. *)
Inductive json : Type :=
  | JNull
  | JBool (b : bool)
  | JNum (x : F)
  | JStr (s : string)
  | JArr (l : list json)
  | JObj (l : list (string * json)).

Inductive file : Type :=
  | WavFile (rate : Z) (data : list F)   (* written by scipy.io.wavfile.write *)
  | JsonFile (j : json)                  (* a text file holding one JSON value *)
  | OtherFile.                           (* anything json.load rejects *)

(** What the module imports and the operating system, as the code sees
    them.  Slicer and the filter coefficients are built once from [sr], so
    their methods take [sr] here. *)
Record env : Type := {
  load_audio : string -> Z -> exn + list F;          (* rvc.lib.utils *)
  slicer_slice : Z -> list F -> gen (list F);        (* Slicer(sr, ...).slice *)
  lfilter_high : Z -> list F -> exn + list F;        (* signal.lfilter(b_high, a_high, _) *)
  resample : list F -> Z -> Z -> exn + list F;       (* librosa.resample *)
  astype_float32 : list F -> list F;                 (* ndarray.astype(np.float32) *)
  listdir : string -> exn + list string;             (* os.listdir *)
  makedirs_error : string -> option exn;             (* os.makedirs(_, exist_ok=True) *)
  write_error : string -> option exn                 (* opening a path for writing *)
}.

Variable E : env.

(** Constants *)
Definition OVERLAP : F := dec 3 1.
Definition MAX_AMPLITUDE : F := dec 9 1.
Definition ALPHA : F := dec 75 2.
Definition HIGH_PASS_CUTOFF : Z := 48.
Definition SAMPLE_RATE_16K : Z := 16000.

(** *** class PreProcess *)

Record PreProcess : Type := {
  sr : Z;
  per : F;
  exp_dir : string;
  gt_wavs_dir : string;
  wavs16k_dir : string
}.

(** The local state of one [process_audio] call: the file system, the
    locals [audio_length] and [idx1], and a ghost field [calls] recording
    the arguments [(idx0, idx1, audio_segment)] of every call of
    [process_audio_segment] so far, oldest first. *)
Record frame : Type := {
  fs : gmap string file;
  audio_length : F;
  idx1 : Z;
  calls : list (Z * Z * list F)
}.

Definition set_fs (f : gmap string file -> gmap string file) (s : frame) : frame :=
  {| fs := f (fs s); audio_length := audio_length s; idx1 := idx1 s; calls := calls s |}.
Definition set_audio_length (x : F) (s : frame) : frame :=
  {| fs := fs s; audio_length := x; idx1 := idx1 s; calls := calls s |}.
Definition set_idx1 (n : Z) (s : frame) : frame :=
  {| fs := fs s; audio_length := audio_length s; idx1 := n; calls := calls s |}.
Definition log_call (c : Z * Z * list F) (s : frame) : frame :=
  {| fs := fs s; audio_length := audio_length s; idx1 := idx1 s; calls := calls s ++ [c] |}.

(** int(x) as a statement *)
Definition int_ {S} (x : F) : M S Z :=
  match f_int x with
  | Some n => ret n
  | None => raise ValueError
  end.

(** os.makedirs(path, exist_ok=True); directories are not modelled. *)
Definition makedirs {S} (path : string) : M S unit :=
  match makedirs_error E path with
  | Some e => raise e
  | None => ret tt
  end.

(** __init__.  signal.butter(N=5, Wn=48, btype="high", fs=sr) raises
    unless 0 < 48 < sr / 2; the Slicer constructor, called with constants
    that pass its checks, is taken not to raise. *)
Definition PreProcess_init {S} (sr : Z) (exp_dir : string) (per : F) : M S PreProcess :=
  ((if sr <=? 2 * HIGH_PASS_CUTOFF then raise ValueError else ret tt) ;;
   let gt_wavs_dir := path_join exp_dir "sliced_audios" in
   let wavs16k_dir := path_join exp_dir "sliced_audios_16k" in
   makedirs gt_wavs_dir ;;
   makedirs wavs16k_dir ;;
   ret {| sr := sr; per := per; exp_dir := exp_dir;
          gt_wavs_dir := gt_wavs_dir; wavs16k_dir := wavs16k_dir |})%py.

(** np.abs(audio).max(); the reduction of an empty array raises. *)
Definition abs_max (audio : list F) : exn + F :=
  match audio with
  | [] => inl ValueError
  | a :: rest => inr (fold_left f_max (map f_abs rest) (f_abs a))
  end.

Definition _normalize_audio (audio : list F) : exn + option (list F) :=
  match abs_max audio with
  | inl e => inl e
  | inr tmp_max =>
      if (tmp_max >? dec 25 1)%pyf then inr None
      else inr (Some (map (fun a =>
             (a / tmp_max * (MAX_AMPLITUDE * ALPHA) + (f_of_Z 1 - ALPHA) * a)%pyf) audio))
  end.

(** scipy.io.wavfile.write(path, rate, data) *)
Definition wavfile_write (path : string) (rate : Z) (data : list F) : M frame unit :=
  match write_error E path with
  | Some e => raise e
  | None => modify (set_fs (insert path (WavFile rate data)))
  end.

(** f"{idx0}_{idx1}.wav" *)
Definition wav_name (idx0 idx1 : Z) : string :=
  str_of_Z idx0 ++ "_" ++ str_of_Z idx1 ++ ".wav".

Definition process_audio_segment (self : PreProcess) (audio_segment : list F)
    (idx0 idx1 : Z) (process_effects : bool) : M frame unit :=
  (modify (log_call (idx0, idx1, audio_segment)) ;;
   normalized_audio <-
     (if process_effects then call (_normalize_audio audio_segment)
      else ret (Some audio_segment)) ;;
   match normalized_audio with
   | None => ret tt
   | Some normalized_audio =>
       wavfile_write (path_join (gt_wavs_dir self) (wav_name idx0 idx1))
         (sr self) (astype_float32 E normalized_audio) ;;
       audio_16k <- call (resample E normalized_audio (sr self) SAMPLE_RATE_16K) ;;
       wavfile_write (path_join (wavs16k_dir self) (wav_name idx0 idx1))
         SAMPLE_RATE_16K (astype_float32 E audio_16k)
   end)%py.

(** The [while True] loop of [process_audio] over one segment, entered
    with loop counter [i]. *)
Fixpoint cut_loop (fuel : nat) (self : PreProcess) (audio_segment : list F)
    (i : Z) (idx0 : Z) (process_effects : bool) : M frame unit :=
  match fuel with
  | O => spin
  | S fuel =>
      (start <- int_ (f_of_Z (sr self) * (per self - OVERLAP) * f_of_Z i)%pyf ;;
       let i := i + 1 in
       s <- get ;;
       if (f_of_Z (len (slice_from audio_segment start))
             >? (per self + OVERLAP) * f_of_Z (sr self))%pyf
       then
         n <- int_ (per self * f_of_Z (sr self))%pyf ;;
         let tmp_audio := py_slice audio_segment start (start + n) in
         process_audio_segment self tmp_audio idx0 (idx1 s) process_effects ;;
         modify (set_idx1 (idx1 s + 1)) ;;
         cut_loop fuel self audio_segment i idx0 process_effects
       else
         let tmp_audio := slice_from audio_segment start in
         process_audio_segment self tmp_audio idx0 (idx1 s) process_effects ;;
         modify (set_idx1 (idx1 s + 1)))%py
  end.

(** librosa.get_duration(y=audio, sr=sr): the number of samples over the rate *)
Definition get_duration (y : list F) (sr : Z) : F :=
  (f_of_Z (len y) / f_of_Z sr)%pyf.

(** The body of the [try] of [process_audio]. *)
Definition process_audio_try (fuel : nat) (self : PreProcess) (path : string)
    (idx0 : Z) (cut_preprocess process_effects : bool) : M frame unit :=
  (audio <- call (load_audio E path (sr self)) ;;
   modify (set_audio_length (get_duration audio (sr self))) ;;
   audio <- (if process_effects then call (lfilter_high E (sr self) audio)
             else ret audio) ;;
   modify (set_idx1 0) ;;
   if cut_preprocess then
     for_in (slicer_slice E (sr self) audio) (fun audio_segment =>
       cut_loop fuel self audio_segment 0 idx0 process_effects)
   else
     s <- get ;;
     process_audio_segment self audio idx0 (idx1 s) process_effects)%py.

(** [process_audio] with its locals visible: audio_length = 0; try: ...
    except Exception: print(...); return audio_length *)
Definition process_audio_frame (fuel : nat) (self : PreProcess) (path : string)
    (idx0 : Z) (cut_preprocess process_effects : bool) : M frame F :=
  (modify (set_audio_length (f_of_Z 0)) ;;
   try_except_all
     (process_audio_try fuel self path idx0 cut_preprocess process_effects) ;;
   s <- get ;;
   ret (audio_length s))%py.

Definition new_frame (fs0 : gmap string file) : frame :=
  {| fs := fs0; audio_length := f_of_Z 0; idx1 := 0; calls := [] |}.

Definition process_audio (fuel : nat) (self : PreProcess) (path : string)
    (idx0 : Z) (cut_preprocess process_effects : bool) : M (gmap string file) F :=
  zoom new_frame (fun s _ => fs s)
    (process_audio_frame fuel self path idx0 cut_preprocess process_effects).

(** *** Module-level functions *)

Definition format_duration {S} (seconds : F) : M S string :=
  (hours <- int_ (seconds // f_of_Z 3600)%pyf ;;
   minutes <- int_ ((seconds mod f_of_Z 3600) // f_of_Z 60)%pyf ;;
   seconds <- int_ (seconds mod f_of_Z 60)%pyf ;;
   ret (fmt02 hours ++ ":" ++ fmt02 minutes ++ ":" ++ fmt02 seconds))%py.

(** json.load: a JSON object becomes a dict (of repeated keys the last
    wins), anything else a value that is not a dict. *)
Inductive pyval : Type :=
  | Dict (d : gmap string json)
  | NotDict (j : json).

Definition json_load (path : string) : M (gmap string file) pyval :=
  (s <- get ;;
   match s !! path with
   | None => raise FileNotFoundError
   | Some (JsonFile (JObj l)) => ret (Dict (list_to_map (reverse l)))
   | Some (JsonFile j) => ret (NotDict j)
   | Some _ => raise JSONDecodeError
   end)%py.

(** data.update(new_data) *)
Definition dict_update {S} (data : pyval) (new_data : gmap string json)
    : M S (gmap string json) :=
  match data with
  | Dict d => ret (new_data ∪ d)
  | NotDict _ => raise AttributeError
  end.

(** with open(path, "w") as f: json.dump(data, f, indent=4) *)
Definition json_dump (data : gmap string json) (path : string)
    : M (gmap string file) unit :=
  match write_error E path with
  | Some e => raise e
  | None => modify (insert path (JsonFile (JObj (map_to_list data))))
  end.

Definition save_dataset_duration (file_path : string) (dataset_duration : F)
    : M (gmap string file) unit :=
  (data <- try_except (json_load file_path) FileNotFoundError (ret (Dict ∅)) ;;
   formatted_duration <- format_duration dataset_duration ;;
   let new_data : gmap string json :=
     <["total_dataset_duration" := JStr formatted_duration]>
       (<["total_seconds" := JNum dataset_duration]> ∅) in
   data <- dict_update data new_data ;;
   json_dump data file_path)%py.

Definition process_audio_wrapper (fuel : nat)
    (args : PreProcess * (string * Z) * bool * bool) : M (gmap string file) F :=
  let '(pp, file, cut_preprocess, process_effects) := args in
  let '(file_path, idx0) := file in
  process_audio fuel pp file_path idx0 cut_preprocess process_effects.

(** pool.map(f, l): the results in the order of [l].  The workers share
    nothing but the file system, on which their effects are taken here in
    list order. *)
Fixpoint pool_map {S A B} (f : A -> M S B) (l : list A) : M S (list B) :=
  match l with
  | [] => ret []
  | a :: l' => (b <- f a ;; bs <- pool_map f l' ;; ret (b :: bs))%py
  end.

(** sum(l) *)
Definition py_sum (l : list F) : F := fold_left f_add l (f_of_Z 0).

Definition is_audio_file (f : string) : bool :=
  existsb (endswith (lower f)) [".wav"; ".mp3"; ".flac"; ".ogg"].

Definition preprocess_training_set (fuel : nat) (input_root : string) (sr : Z)
    (num_processes : Z) (exp_dir : string) (per : F)
    (cut_preprocess process_effects : bool) : M (gmap string file) unit :=
  (pp <- PreProcess_init sr exp_dir per ;;
   names <- call (listdir E input_root) ;;
   let files :=
     map (fun '(idx, f) => (path_join input_root f, idx))
       (List.filter (fun '(_, f) => is_audio_file f) (enumerate names)) in
   (* ctx.Pool(processes=num_processes) *)
   (if num_processes <? 1 then raise ValueError else ret tt) ;;
   audio_length <- pool_map (process_audio_wrapper fuel)
                     (map (fun file => (pp, file, cut_preprocess, process_effects)) files) ;;
   let audio_length := py_sum audio_length in
   save_dataset_duration (path_join exp_dir "model_info.json") audio_length)%py.

End Pipeline.

Arguments json F : clear implicits.
Arguments file F : clear implicits.
Arguments env F : clear implicits.
Arguments PreProcess F : clear implicits.
Arguments frame F : clear implicits.
Arguments pyval F : clear implicits.

(** * Properties *)

(** ** The built-ins on examples *)

Example dec_is_the_literal :
  (dec 3 1 : float) = 0x1.3333333333333p-2%float /\
  (dec 9 1 : float) = 0x1.ccccccccccccdp-1%float /\
  (dec 75 2 : float) = 0.75%float /\ (dec 25 1 : float) = 2.5%float.
Proof. repeat split; vm_compute; reflexivity. Qed.

Example b64_floordiv_mod :
  f_int (f_of_Z 7325 // f_of_Z 3600 : float)%pyf = Some 2 /\
  f_int ((f_of_Z 7325 mod f_of_Z 3600) // f_of_Z 60 : float)%pyf = Some 2 /\
  f_int (f_of_Z 7325 mod f_of_Z 60 : float)%pyf = Some 5 /\
  f_int (dec (-75) 1 : float) = Some (-7) /\
  f_int (dec (-75) 1 // f_of_Z 2 : float)%pyf = Some (-4) /\
  (dec (-75) 1 mod f_of_Z 2 : float)%pyf = 0.5%float.
Proof. repeat split; vm_compute; reflexivity. Qed.

Example str_examples :
  str_of_Z 0 = "0" /\ str_of_Z 12 = "12" /\ fmt02 7 = "07" /\ fmt02 123 = "123" /\
  path_join "logs/m" "sliced_audios" = "logs/m/sliced_audios" /\
  path_join "logs/m/" "x.wav" = "logs/m/x.wav" /\
  endswith (lower "A.WAV") ".wav" = true /\ endswith "wav" ".wav" = false.
Proof. repeat split. Qed.

Example slice_examples :
  py_slice [1;2;3;4;5] 1 3 = [2;3] /\ py_slice [1;2;3;4;5] 3 9 = [4;5] /\
  slice_from [1;2;3;4;5] 7 = [] /\ slice_from [1;2;3;4;5] (-2) = [4;5] /\
  py_slice [1;2;3;4;5] (-9) (-1) = [1;2;3;4].
Proof. repeat split. Qed.

(** ** The normaliser *)

Section NormalizeExact.
#[local] Open Scope Q_scope.

Lemma Q_ltb_true (x y : Q) : (x <? y)%pyf = true <-> x < y.
Proof.
  cbn. unfold QF.ltb. rewrite negb_true_iff, <- not_true_iff_false, Qle_bool_iff.
  split; [apply Qnot_le_lt | apply Qlt_not_le].
Qed.

Lemma Q_ltb_false (x y : Q) : (x <? y)%pyf = false <-> y <= x.
Proof.
  cbn. unfold QF.ltb. rewrite negb_false_iff. apply Qle_bool_iff.
Qed.

Lemma fold_Qmax_ge (l : list Q) (a : Q) : a <= fold_left Qmax l a.
Proof.
  revert a. induction l as [|b l IH]; intros a; simpl; [apply Qle_refl|].
  eapply Qle_trans; [apply Q.le_max_l | apply IH].
Qed.

Lemma fold_Qmax_upper (l : list Q) (a b : Q) :
  a <= fold_left Qmax l b -> Forall (fun x => x <= fold_left Qmax l b) l.
Proof.
  revert a b. induction l as [|c l IH]; intros a b Ha; [constructor|].
  simpl in *. constructor.
  - eapply Qle_trans; [apply Q.le_max_r | apply fold_Qmax_ge].
  - eapply IH, fold_Qmax_ge.
Qed.

Lemma fold_Qmax_le (l : list Q) (a b : Q) :
  a <= b -> Forall (fun x => x <= b) l -> fold_left Qmax l a <= b.
Proof.
  revert a. induction l as [|c l IH]; intros a Ha Hl; simpl; [exact Ha|].
  inversion Hl; subst. apply IH; [|assumption].
  apply Q.max_lub; assumption.
Qed.

(** Every sample is at most the peak in absolute value. *)
Lemma abs_max_upper (audio : list Q) (p : Q) :
  abs_max audio = inr p -> Forall (fun a => Qabs a <= p) audio.
Proof.
  destruct audio as [|a rest]; [discriminate|].
  cbn. intros [= <-]. constructor; [apply fold_Qmax_ge|].
  apply Forall_map with (f := Qabs) (P := fun x => x <= fold_left Qmax (map Qabs rest) (Qabs a)).
  eapply fold_Qmax_upper, fold_Qmax_ge.
Qed.

Lemma abs_max_le (audio : list Q) (b : Q) :
  audio <> [] -> Forall (fun a => Qabs a <= b) audio ->
  exists q, abs_max audio = inr q /\ q <= b.
Proof.
  destruct audio as [|a rest]; [congruence|]. intros _ Hall.
  inversion Hall; subst. eexists; split; [reflexivity|].
  apply fold_Qmax_le; [assumption|].
  apply Forall_map with (f := Qabs) (P := fun x => x <= b). assumption.
Qed.

Lemma constants_Q :
  (MAX_AMPLITUDE : Q) == 9 # 10 /\ (ALPHA : Q) == 3 # 4 /\
  (OVERLAP : Q) == 3 # 10 /\ (dec 25 1 : Q) == 5 # 2.
Proof. repeat split. Qed.

(** One rescaled sample stays within the blend of the ceiling and the peak. *)
Lemma rescaled_sample_bound (a p : Q) :
  0 < p -> Qabs a <= p ->
  Qabs (a / p * (MAX_AMPLITUDE * ALPHA) + (1 - ALPHA) * a)
    <= MAX_AMPLITUDE + (1 - ALPHA) * p.
Proof.
  intros Hp Ha.
  destruct constants_Q as (-> & -> & _ & _).
  assert (Hq : Qabs (a / p) <= 1).
  { unfold Qdiv. rewrite Qabs_Qmult.
    rewrite (Qabs_pos (/ p)) by (apply Qlt_le_weak, Qinv_lt_0_compat, Hp).
    apply Qle_shift_div_r; [exact Hp|]. now rewrite Qmult_1_l. }
  eapply Qle_trans; [apply Qabs_triangle|].
  rewrite !Qabs_Qmult.
  rewrite (Qabs_pos ((9 # 10) * (3 # 4))) by discriminate.
  rewrite (Qabs_pos (1 - (3 # 4))) by discriminate.
  assert (Habs : 0 <= Qabs a) by apply Qabs_nonneg.
  assert (Habs' : 0 <= Qabs (a / p)) by apply Qabs_nonneg.
  lra.
Qed.
End NormalizeExact.

(** ** The dual-rate writer *)

Section WriterFacts.
Context {F : Type} `{PyFloat F} (E : env F).

Definition native_path (self : PreProcess F) (idx0 idx1 : Z) : string :=
  path_join (gt_wavs_dir self) (wav_name idx0 idx1).
Definition k16_path (self : PreProcess F) (idx0 idx1 : Z) : string :=
  path_join (wavs16k_dir self) (wav_name idx0 idx1).

(** No write fails and the resampler always answers. *)
Definition fault_free : Prop :=
  (forall p, write_error E p = None) /\
  (forall a r t, exists b, resample E a r t = inr b).

(** [process_audio_segment] unfolded into its five ways out. *)
Lemma process_audio_segment_eq self seg idx0 i1 eff (s : frame F) :
  process_audio_segment E self seg idx0 i1 eff s =
  let s1 := log_call (idx0, i1, seg) s in
  match (if eff then _normalize_audio seg else inr (Some seg)) with
  | inl e => Raise e s1
  | inr None => Ret tt s1
  | inr (Some na) =>
      match write_error E (native_path self idx0 i1) with
      | Some e => Raise e s1
      | None =>
          let s2 := set_fs (insert (native_path self idx0 i1)
                              (WavFile (sr self) (astype_float32 E na))) s1 in
          match resample E na (sr self) SAMPLE_RATE_16K with
          | inl e => Raise e s2
          | inr a16 =>
              match write_error E (k16_path self idx0 i1) with
              | Some e => Raise e s2
              | None =>
                  Ret tt (set_fs (insert (k16_path self idx0 i1)
                            (WavFile SAMPLE_RATE_16K (astype_float32 E a16))) s2)
              end
          end
      end
  end.
Proof.
  unfold process_audio_segment, native_path, k16_path, wavfile_write, bind, modify, call.
  destruct eff; cbn.
  - destruct (_normalize_audio seg) as [e|[na|]]; cbn; try reflexivity.
    destruct (write_error E _); cbn; [reflexivity|].
    destruct (resample E na _ _); cbn; [reflexivity|].
    destruct (write_error E _); reflexivity.
  - destruct (write_error E _); cbn; [reflexivity|].
    destruct (resample E seg _ _); cbn; [reflexivity|].
    destruct (write_error E _); reflexivity.
Qed.

(** A call never spins; it logs itself and leaves the locals alone. *)
Lemma process_audio_segment_final self seg idx0 i1 eff (s : frame F) :
  exists s', final (process_audio_segment E self seg idx0 i1 eff s) = Some s' /\
    calls s' = (calls s ++ [(idx0, i1, seg)])%list /\
    idx1 s' = idx1 s /\ audio_length s' = audio_length s.
Proof.
  rewrite process_audio_segment_eq. cbv zeta.
  destruct (if eff then _ else _) as [e|[na|]]; cbn; eauto.
  destruct (write_error E _); cbn; eauto.
  destruct (resample E na _ _); cbn; eauto.
  destruct (write_error E _); cbn; eauto.
Qed.

(** The only paths a call can change are the two artifacts of its key. *)
Lemma process_audio_segment_frame self seg idx0 i1 eff (s s' : frame F) p :
  final (process_audio_segment E self seg idx0 i1 eff s) = Some s' ->
  p <> native_path self idx0 i1 -> p <> k16_path self idx0 i1 ->
  fs s' !! p = fs s !! p.
Proof.
  rewrite process_audio_segment_eq. cbv zeta. intros Hf Hn Hk.
  destruct (if eff then _ else _) as [e|[na|]]; cbn in Hf;
    try (injection Hf as <-; reflexivity).
  destruct (write_error E _); cbn in Hf; try (injection Hf as <-; reflexivity).
  destruct (resample E na _ _); cbn in Hf;
    try (injection Hf as <-; cbn; by rewrite lookup_insert_ne).
  destruct (write_error E _); cbn in Hf; injection Hf as <-; cbn;
    by rewrite ?lookup_insert_ne.
Qed.

(** Files that exist are never removed by a call. *)
Lemma process_audio_segment_keeps self seg idx0 i1 eff (s s' : frame F) p :
  final (process_audio_segment E self seg idx0 i1 eff s) = Some s' ->
  is_Some (fs s !! p) -> is_Some (fs s' !! p).
Proof.
  rewrite process_audio_segment_eq. cbv zeta. intros Hf Hp.
  assert (Hins : forall q v (m : gmap string (file F)),
             is_Some (m !! p) -> is_Some (<[q := v]> m !! p)).
  { intros q v m Hm. destruct (decide (q = p)) as [->|Hne].
    - rewrite lookup_insert_eq. eauto.
    - by rewrite lookup_insert_ne. }
  destruct (if eff then _ else _) as [e|[na|]]; cbn in Hf;
    try (injection Hf as <-; exact Hp).
  destruct (write_error E _); cbn in Hf; try (injection Hf as <-; exact Hp).
  destruct (resample E na _ _); cbn in Hf;
    try (injection Hf as <-; cbn; by apply Hins).
  destruct (write_error E _); cbn in Hf; injection Hf as <-; cbn;
    by repeat apply Hins.
Qed.
End WriterFacts.

Section NormalizeBounds.

(** X1 (the bound of C4, for windows that are not silent).  In exact
    arithmetic: a window whose peak [p] satisfies [0 < p <= 2.5] is rescaled to
    [a / p * (MAX_AMPLITUDE * ALPHA) + (1 - ALPHA) * a], and the peak of
    the result is at most [MAX_AMPLITUDE + (1 - ALPHA) * p = 0.9 + 0.25 p];
    a window whose peak exceeds 2.5 is rejected, and the writer then
    returns without touching the file system. *)
Theorem normalize_audio_peak_bound (audio : list Q) (p : Q) :
  abs_max audio = inr p ->
  ((0 < p)%Q -> (p <= 5 # 2)%Q ->
     exists out q,
       _normalize_audio audio = inr (Some out) /\
       out = map (fun a => (a / p * (MAX_AMPLITUDE * ALPHA)
                            + (f_of_Z 1 - ALPHA) * a)%pyf) audio /\
       abs_max out = inr q /\
       (q <= MAX_AMPLITUDE + (1 - ALPHA) * p)%Q) /\
  ((5 # 2 < p)%Q ->
     _normalize_audio audio = inr None /\
     forall (E : env Q) self idx0 i1 (s : frame Q),
       exists s', process_audio_segment E self audio idx0 i1 true s = Ret tt s' /\
                  fs s' = fs s).
Proof.
  intros Hmax. split.
  - intros Hpos Hle.
    assert (Hnorm : _normalize_audio audio = inr (Some
              (map (fun a => (a / p * (MAX_AMPLITUDE * ALPHA)
                              + (f_of_Z 1 - ALPHA) * a)%pyf) audio))).
    { unfold _normalize_audio. rewrite Hmax.
      assert (Hc : (p >? dec 25 1)%pyf = false).
      { apply Q_ltb_false. destruct constants_Q as (_ & _ & _ & ->). exact Hle. }
      now rewrite Hc. }
    destruct (abs_max_le
                (map (fun a => (a / p * (MAX_AMPLITUDE * ALPHA)
                                + (f_of_Z 1 - ALPHA) * a)%pyf) audio)
                (MAX_AMPLITUDE + (1 - ALPHA) * p)%Q) as (q & Hq & Hqle).
    + destruct audio; [discriminate | discriminate].
    + apply Forall_map. eapply Forall_impl; [apply abs_max_upper, Hmax|].
      intros a Ha. cbn beta. apply (rescaled_sample_bound a p Hpos Ha).
    + eexists; exists q. repeat split; [exact Hnorm | exact Hq | exact Hqle].
  - intros Hgt.
    assert (Hnorm : _normalize_audio audio = inr None).
    { unfold _normalize_audio. rewrite Hmax.
      assert (Hc : (p >? dec 25 1)%pyf = true).
      { apply Q_ltb_true. destruct constants_Q as (_ & _ & _ & ->). exact Hgt. }
      now rewrite Hc. }
    split; [exact Hnorm|]. intros E self idx0 i1 s.
    rewrite process_audio_segment_eq. cbv zeta. rewrite Hnorm.
    eexists; split; reflexivity.
Qed.

Lemma normalize_audio_peak_bound_witness :
  (exists out q,
      _normalize_audio [1; -2]%Q = inr (Some out) /\
      out = map (fun a : Q => (a / 2%Q * (MAX_AMPLITUDE * ALPHA)
                           + (f_of_Z 1 - ALPHA) * a)%pyf) [1; -2]%Q /\
      abs_max out = inr q /\ (q <= MAX_AMPLITUDE + (1 - ALPHA) * 2)%Q) /\
  _normalize_audio [3; -1]%Q = inr None.
Proof.
  split.
  - apply (normalize_audio_peak_bound [1; -2]%Q 2%Q eq_refl); reflexivity || discriminate.
  - apply (normalize_audio_peak_bound [3; -1]%Q 3%Q eq_refl). reflexivity.
Defined.

(** C4, at a silent window.  On IEEE doubles an all-zero window has peak 0,
    is not rejected, and comes back as NaN in every sample; the peak of that
    is NaN, which is not below [0.9 + 0.25 * 0]: the bound the normaliser is
    meant to keep fails there. *)
Lemma normalize_audio_zero_window_unbounded :
  abs_max [zero; zero; zero] = inr zero /\
  (zero <=? 2.5)%float = true /\
  _normalize_audio [zero; zero; zero] = inr (Some [nan; nan; nan]) /\
  abs_max [nan; nan; nan] = inr nan /\
  (nan <=? MAX_AMPLITUDE + (f_of_Z 1 - ALPHA) * zero)%float = false.
Proof. repeat split; vm_compute; reflexivity. Qed.

Lemma fold_max_zeros (n : nat) :
  fold_left f_max (map f_abs (repeat zero n)) zero = zero.
Proof. induction n as [|n IH]; [reflexivity | exact IH]. Qed.

(** C10.  The rejection test is [tmp_max > 2.5] only.  For a window of
    zeros (of any positive length) the peak is 0, the test is false, and
    every sample is divided by that 0: the result is [a / 0 * 0.675 +
    0.25 * a = NaN] throughout. *)
Theorem normalize_audio_divides_by_zero_peak (n : nat) :
  let window := repeat zero (S n) in
  abs_max window = inr zero /\
  (zero >? dec 25 1)%pyf = false /\
  _normalize_audio window =
    inr (Some (map (fun a => (a / zero * (MAX_AMPLITUDE * ALPHA)
                              + (f_of_Z 1 - ALPHA) * a)%pyf) window)) /\
  _normalize_audio window = inr (Some (repeat nan (S n))).
Proof.
  cbv zeta.
  assert (Hmax : abs_max (repeat zero (S n)) = inr zero).
  { cbn [repeat abs_max]. f_equal. apply (fold_max_zeros n). }
  assert (Hnorm : _normalize_audio (repeat zero (S n)) =
    inr (Some (map (fun a => (a / zero * (MAX_AMPLITUDE * ALPHA)
                              + (f_of_Z 1 - ALPHA) * a)%pyf) (repeat zero (S n))))).
  { unfold _normalize_audio. rewrite Hmax. reflexivity. }
  repeat split; try assumption; try reflexivity.
  rewrite Hnorm. do 2 f_equal.
  generalize (S n). intros m. induction m as [|m IH]; [reflexivity|].
  cbn [repeat map]. rewrite IH. f_equal.
Qed.
End NormalizeBounds.

(** ** Paths *)

Section PathFacts.
#[local] Open Scope string_scope.

Lemma string_app_assoc (a b c : string) : (a ++ b) ++ c = a ++ (b ++ c).
Proof.
  induction a as [|x a IH]; [reflexivity|].
  change (String x ((a ++ b) ++ c) = String x (a ++ b ++ c)). now f_equal.
Qed.

Lemma string_app_inv_head (a x y : string) : a ++ x = a ++ y -> x = y.
Proof. induction a as [|c a IH]; cbn; [trivial | intros [= Heq]; auto]. Qed.

Lemma endswith_slash_app (a : string) (c : ascii) (t : string) :
  endswith (a ++ String c t) "/" = endswith (String c t) "/".
Proof.
  induction a as [|x a IH]; [reflexivity|].
  change (endswith (String x a ++ String c t) "/")
    with (String.eqb (String x (a ++ String c t)) "/"
          || endswith (a ++ String c t) "/").
  rewrite IH.
  replace (String.eqb (String x (a ++ String c t)) "/") with false; [reflexivity|].
  symmetry. apply String.eqb_neq. intros [= _ Habs].
  destruct a; discriminate.
Qed.

(** The directory prefix [os.path.join(a, _)] puts before a relative name. *)
Definition dir_prefix (a : string) : string :=
  if String.eqb a "" || endswith a "/" then a else a ++ "/".

Lemma path_join_relative (a b : string) :
  startswith b "/" = false -> path_join a b = dir_prefix a ++ b.
Proof.
  intros Hb. unfold path_join, dir_prefix. rewrite Hb.
  destruct (String.eqb a "" || endswith a "/"); [reflexivity|].
  now rewrite string_app_assoc.
Qed.

Lemma dir_prefix_app (a : string) (c : ascii) (t : string) :
  endswith (String c t) "/" = false ->
  dir_prefix (a ++ String c t) = a ++ String c t ++ "/".
Proof.
  intros Ht. unfold dir_prefix. rewrite endswith_slash_app, Ht.
  replace (String.eqb (a ++ String c t) "") with false.
  - cbn. now rewrite string_app_assoc.
  - symmetry. apply String.eqb_neq. destruct a; discriminate.
Qed.

Lemma str_of_Z_relative (n : Z) (t : string) : startswith (str_of_Z n ++ t) "/" = false.
Proof.
  unfold str_of_Z, startswith.
  destruct (Z.to_int n) as [d|d]; destruct d; reflexivity.
Qed.

Lemma wav_name_relative (idx0 idx1 : Z) : startswith (wav_name idx0 idx1) "/" = false.
Proof. unfold wav_name. apply str_of_Z_relative. Qed.
End PathFacts.

Section Constructed.
Context {F : Type} `{PyFloat F}.

(** What [__init__] establishes. *)
Definition constructed (self : PreProcess F) : Prop :=
  2 * HIGH_PASS_CUTOFF < sr self /\
  gt_wavs_dir self = path_join (exp_dir self) "sliced_audios" /\
  wavs16k_dir self = path_join (exp_dir self) "sliced_audios_16k".

Definition report_path (exp_dir : string) : string :=
  path_join exp_dir "model_info.json".

Lemma PreProcess_init_constructed {S} (E : env F) sr0 exp per0 (s s' : S) self :
  PreProcess_init E sr0 exp per0 s = Ret self s' ->
  constructed self /\ s' = s /\ sr self = sr0 /\ per self = per0 /\ exp_dir self = exp.
Proof.
  unfold PreProcess_init, makedirs, bind, ret, raise.
  destruct (sr0 <=? 2 * HIGH_PASS_CUTOFF) eqn:Hsr; [discriminate|].
  destruct (makedirs_error E _); [discriminate|].
  destruct (makedirs_error E _); [discriminate|].
  intros [= <- <-]. unfold constructed. cbn. repeat split. lia.
Qed.

Lemma native_path_eq (self : PreProcess F) idx0 i1 :
  constructed self ->
  native_path self idx0 i1 =
    dir_prefix (exp_dir self) ++ "sliced_audios/" ++ wav_name idx0 i1.
Proof.
  intros (_ & Hgt & _). unfold native_path. rewrite Hgt.
  rewrite (path_join_relative (exp_dir self) "sliced_audios") by reflexivity.
  rewrite path_join_relative by apply wav_name_relative.
  rewrite (dir_prefix_app (dir_prefix (exp_dir self)) "s" "liced_audios") by reflexivity.
  now rewrite string_app_assoc.
Qed.

Lemma k16_path_eq (self : PreProcess F) idx0 i1 :
  constructed self ->
  k16_path self idx0 i1 =
    dir_prefix (exp_dir self) ++ "sliced_audios_16k/" ++ wav_name idx0 i1.
Proof.
  intros (_ & _ & Hk). unfold k16_path. rewrite Hk.
  rewrite (path_join_relative (exp_dir self) "sliced_audios_16k") by reflexivity.
  rewrite path_join_relative by apply wav_name_relative.
  rewrite (dir_prefix_app (dir_prefix (exp_dir self)) "s" "liced_audios_16k") by reflexivity.
  now rewrite string_app_assoc.
Qed.

Lemma report_path_eq (exp : string) :
  report_path exp = dir_prefix exp ++ "model_info.json".
Proof. unfold report_path. now rewrite path_join_relative. Qed.

(** The two artifacts of any two keys, and the report, are different files. *)
Lemma native_k16_distinct (self : PreProcess F) idx0 i1 idx0' i1' :
  constructed self -> native_path self idx0 i1 <> k16_path self idx0' i1'.
Proof.
  intros Hc. rewrite native_path_eq, k16_path_eq by assumption.
  intros Heq%string_app_inv_head. discriminate Heq.
Qed.

Lemma report_not_artifact (self : PreProcess F) idx0 i1 :
  constructed self ->
  report_path (exp_dir self) <> native_path self idx0 i1 /\
  report_path (exp_dir self) <> k16_path self idx0 i1.
Proof.
  intros Hc. rewrite report_path_eq, native_path_eq, k16_path_eq by assumption.
  split; intros Heq%string_app_inv_head; discriminate Heq.
Qed.
End Constructed.

(** ** Control flow of [process_audio] *)

Section LoopFacts.
Context {F : Type} `{PyFloat F} (E : env F).

(** The value handed to [int] for the start of window [i], and the loop
    test at a start position. *)
Definition start_expr (self : PreProcess F) (i : Z) : F :=
  (f_of_Z (sr self) * (per self - OVERLAP) * f_of_Z i)%pyf.
Definition long_tail (self : PreProcess F) (seg : list F) (start : Z) : bool :=
  (f_of_Z (len (slice_from seg start)) >? (per self + OVERLAP) * f_of_Z (sr self))%pyf.

(** One turn of the loop, by cases. *)
Lemma cut_loop_eq fuel self seg i idx0 eff (s : frame F) :
  cut_loop E (S fuel) self seg i idx0 eff s =
  match f_int (start_expr self i) with
  | None => Raise ValueError s
  | Some start =>
      if long_tail self seg start then
        match f_int (per self * f_of_Z (sr self))%pyf with
        | None => Raise ValueError s
        | Some n =>
            match process_audio_segment E self (py_slice seg start (start + n))
                    idx0 (idx1 s) eff s with
            | Ret _ s1 => cut_loop E fuel self seg (i + 1) idx0 eff
                            (set_idx1 (idx1 s + 1) s1)
            | Raise e s1 => Raise e s1
            | Spin => Spin
            end
        end
      else
        match process_audio_segment E self (slice_from seg start)
                idx0 (idx1 s) eff s with
        | Ret _ s1 => Ret tt (set_idx1 (idx1 s + 1) s1)
        | Raise e s1 => Raise e s1
        | Spin => Spin
        end
  end.
Proof.
  cbn [cut_loop]. unfold bind, int_, get, ret, raise, modify, start_expr, long_tail.
  destruct (f_int _) as [start|]; [|reflexivity].
  destruct (f_ltb _ _).
  - destruct (f_int _) as [n|]; [|reflexivity].
    destruct (process_audio_segment E self _ idx0 (idx1 s) eff s) as [[] s1|e s1|];
      reflexivity.
  - destruct (process_audio_segment E self _ idx0 (idx1 s) eff s) as [[] s1|e s1|];
      reflexivity.
Qed.

Lemma process_audio_segment_no_spin self seg idx0 i1 eff (s : frame F) :
  process_audio_segment E self seg idx0 i1 eff s <> Spin.
Proof.
  destruct (process_audio_segment_final E self seg idx0 i1 eff s) as (s' & Hf & _).
  intros Heq. rewrite Heq in Hf. discriminate.
Qed.

(** The body of the [try], by cases. *)
Lemma process_audio_try_eq fuel self path idx0 cut eff (s : frame F) :
  process_audio_try E fuel self path idx0 cut eff s =
  match load_audio E path (sr self) with
  | inl e => Raise e s
  | inr audio =>
      let s1 := set_audio_length (get_duration audio (sr self)) s in
      match (if eff then lfilter_high E (sr self) audio else inr audio) with
      | inl e => Raise e s1
      | inr audio =>
          let s2 := set_idx1 0 s1 in
          if cut then
            for_in (slicer_slice E (sr self) audio)
              (fun seg => cut_loop E fuel self seg 0 idx0 eff) s2
          else process_audio_segment E self audio idx0 0 eff s2
      end
  end.
Proof.
  unfold process_audio_try, bind, call, modify, get, ret, raise.
  destruct (load_audio E path (sr self)) as [e|audio]; [reflexivity|].
  destruct eff; cbn.
  - destruct (lfilter_high E (sr self) audio) as [e|a']; [reflexivity|].
    destruct cut; reflexivity.
  - destruct cut; reflexivity.
Qed.

(** Invariants of the loops.  [P] holds between statements, [P'] is what
    is left of it when a call of the writer raises. *)
Section Invariant.
Variables (P P' : frame F -> Prop) (self : PreProcess F) (idx0 : Z).
Hypothesis P_weaken : forall s, P s -> P' s.
Hypothesis P_segment : forall seg eff s s1,
  P s -> final (process_audio_segment E self seg idx0 (idx1 s) eff s) = Some s1 ->
  P' s1 /\ P (set_idx1 (idx1 s + 1) s1).

Definition holds_after {A} (r : result (frame F) A) : Prop :=
  match r with
  | Ret _ s' => P s'
  | Raise _ s' => P' s'
  | Spin => True
  end.

Lemma cut_loop_inv fuel seg i eff s :
  P s -> holds_after (cut_loop E fuel self seg i idx0 eff s).
Proof.
  revert i s. induction fuel as [|fuel IH]; intros i s HP; [exact I|].
  rewrite cut_loop_eq.
  destruct (f_int _) as [start|]; [|apply P_weaken, HP].
  destruct (long_tail self seg start).
  - destruct (f_int _) as [n|]; [|apply P_weaken, HP].
    destruct (process_audio_segment E self _ idx0 (idx1 s) eff s)
      as [[] s1|e s1|] eqn:Hseg; [| |exact I];
      (edestruct P_segment as [Hw Hs]; [exact HP | rewrite Hseg; reflexivity |]).
    + apply IH, Hs.
    + exact Hw.
  - destruct (process_audio_segment E self _ idx0 (idx1 s) eff s)
      as [[] s1|e s1|] eqn:Hseg; [| |exact I];
      (edestruct P_segment as [Hw Hs]; [exact HP | rewrite Hseg; reflexivity |]);
      assumption.
Qed.

Lemma for_in_inv {A} (g : gen A) (body : A -> M (frame F) unit) s :
  (forall a t, P t -> holds_after (body a t)) ->
  P s -> holds_after (for_in g body s).
Proof.
  intros Hbody. revert s. induction g as [|a rest IH|e]; intros s HP; cbn.
  - exact HP.
  - unfold bind. specialize (Hbody a s HP).
    destruct (body a s) as [[] t|e t|]; [apply IH| |]; exact Hbody.
  - apply P_weaken, HP.
Qed.

(** The [try] body: what the assignments before the loops establish
    is kept to the end, in its weak form. *)
Lemma process_audio_try_weak fuel path cut eff s s' :
  (forall x, P (set_idx1 0 (set_audio_length x s))) ->
  (forall x, P' (set_audio_length x s)) -> P' s ->
  final (process_audio_try E fuel self path idx0 cut eff s) = Some s' -> P' s'.
Proof.
  intros Hinit Hlen Hs. rewrite process_audio_try_eq.
  destruct (load_audio E path (sr self)) as [e|audio]; [intros [= <-]; exact Hs|].
  cbv zeta. destruct (if eff then _ else _) as [e|a']; [intros [= <-]; apply Hlen|].
  destruct cut.
  - intros Hf.
    pose proof (for_in_inv (slicer_slice E (sr self) a')
                  (fun seg => cut_loop E fuel self seg 0 idx0 eff) _
                  (fun seg t => cut_loop_inv fuel seg 0 eff t)
                  (Hinit (get_duration audio (sr self)))) as Hh.
    destruct (for_in _ _ _) as [[] t|e t|]; cbn in Hf; try discriminate;
      injection Hf as <-; [apply P_weaken|]; exact Hh.
  - intros Hf. edestruct P_segment as [Hw _]; [apply Hinit | exact Hf | exact Hw].
Qed.
End Invariant.

Lemma process_audio_segment_keeps_length self seg idx0 i1 eff (s s' : frame F) :
  final (process_audio_segment E self seg idx0 i1 eff s) = Some s' ->
  audio_length s' = audio_length s.
Proof.
  intros Hf. destruct (process_audio_segment_final E self seg idx0 i1 eff s)
    as (s1 & Hf1 & _ & _ & Hl). congruence.
Qed.

(** After the decode, nothing assigns [audio_length] again. *)
Lemma process_audio_try_length fuel self path idx0 cut eff fs0 audio s' :
  load_audio E path (sr self) = inr audio ->
  final (process_audio_try E fuel self path idx0 cut eff (new_frame fs0)) = Some s' ->
  audio_length s' = get_duration audio (sr self).
Proof.
  intros Hload. rewrite process_audio_try_eq, Hload. cbv zeta.
  set (P := fun s : frame F => audio_length s = get_duration audio (sr self)).
  assert (Hseg : forall seg eff s s1,
             P s -> final (process_audio_segment E self seg idx0 (idx1 s) eff s) = Some s1 ->
             P s1 /\ P (set_idx1 (idx1 s + 1) s1)).
  { intros seg eff' s s1 HP Hf. unfold P in *. cbn.
    rewrite (process_audio_segment_keeps_length _ _ _ _ _ _ _ Hf). auto. }
  destruct (if eff then _ else _) as [e|a']; [intros [= <-]; reflexivity|].
  destruct cut.
  - intros Hf.
    pose proof (for_in_inv P P (fun _ h => h) (slicer_slice E (sr self) a')
                  (fun seg => cut_loop E fuel self seg 0 idx0 eff) _
                  (fun seg t => cut_loop_inv P P self idx0 (fun _ h => h) Hseg fuel seg 0 eff t)
                  (eq_refl : P (set_idx1 0 (set_audio_length
                                 (get_duration audio (sr self)) (new_frame fs0)))))
      as Hinv.
    destruct (for_in _ _ _) as [[] t|e t|]; cbn in Hf; try discriminate;
      injection Hf as <-; exact Hinv.
  - intros Hf.
    refine (proj1 (Hseg a' eff (set_idx1 0 (set_audio_length
              (get_duration audio (sr self)) (new_frame fs0))) s' _ Hf)).
    reflexivity.
Qed.

Lemma process_audio_eq fuel self path idx0 cut eff fs0 :
  process_audio E fuel self path idx0 cut eff fs0 =
  match process_audio_try E fuel self path idx0 cut eff (new_frame fs0) with
  | Ret _ s | Raise _ s => Ret (audio_length s) (fs s)
  | Spin => Spin
  end.
Proof.
  unfold process_audio, zoom, process_audio_frame, bind, modify, try_except_all, get, ret.
  change (set_audio_length (f_of_Z 0) (new_frame fs0)) with (new_frame fs0).
  destruct (process_audio_try E fuel self path idx0 cut eff (new_frame fs0))
    as [[] s|e s|]; reflexivity.
Qed.

Lemma pool_map_no_raise fuel args fs0 :
  match pool_map (process_audio_wrapper E fuel) args fs0 with
  | Raise _ _ => False
  | _ => True
  end.
Proof.
  revert fs0. induction args as [|[[[pp [path idx0]] cut] eff] args IH]; intros fs0;
    [exact I|].
  cbn [pool_map]. unfold bind. cbn [process_audio_wrapper].
  rewrite process_audio_eq.
  destruct (process_audio_try E fuel pp path idx0 cut eff (new_frame fs0))
    as [[] s|e s|]; try exact I;
    (specialize (IH (fs s)); destruct (pool_map _ args (fs s)); [exact I | exact IH | exact I]).
Qed.

Lemma process_audio_undecodable fuel self path idx0 cut eff fs0 e :
  load_audio E path (sr self) = inl e ->
  process_audio E fuel self path idx0 cut eff fs0 = Ret (f_of_Z 0) fs0.
Proof.
  intros Hload. now rewrite process_audio_eq, process_audio_try_eq, Hload.
Qed.

Lemma process_audio_no_raise fuel self path idx0 cut eff fs0 :
  match process_audio E fuel self path idx0 cut eff fs0 with
  | Raise _ _ => False
  | _ => True
  end.
Proof.
  rewrite process_audio_eq.
  destruct (process_audio_try E fuel self path idx0 cut eff (new_frame fs0))
    as [[] s|e s|]; exact I.
Qed.

(** C1 (as amended).  Whatever the [try] body does, [process_audio]
    returns normally when the body ends: 0 and an untouched file system
    when the decode raised; otherwise the decoded duration [len / sr],
    whether the body completed or a later stage (filter, segmentation,
    cutting, normalisation, resampling, a write) raised, with the files
    written up to that point left in place.  No exception of a file
    reaches [pool.map]. *)
Theorem process_audio_catches fuel self path idx0 cut eff fs0 :
  match load_audio E path (sr self) with
  | inl _ => process_audio E fuel self path idx0 cut eff fs0 = Ret (f_of_Z 0) fs0
  | inr audio =>
      match process_audio_try E fuel self path idx0 cut eff (new_frame fs0) with
      | Ret _ s | Raise _ s =>
          process_audio E fuel self path idx0 cut eff fs0
            = Ret (get_duration audio (sr self)) (fs s)
      | Spin => process_audio E fuel self path idx0 cut eff fs0 = Spin
      end
  end /\
  (forall args fs1,
      match pool_map (process_audio_wrapper E fuel) args fs1 with
      | Raise _ _ => False
      | _ => True
      end).
Proof.
  split; [|intros; apply pool_map_no_raise].
  rewrite process_audio_eq.
  destruct (load_audio E path (sr self)) as [e|audio] eqn:Hload.
  - rewrite process_audio_try_eq, Hload. reflexivity.
  - pose proof (process_audio_try_length fuel self path idx0 cut eff fs0 audio) as Hlen.
    destruct (process_audio_try E fuel self path idx0 cut eff (new_frame fs0))
      as [[] s|e s|]; [| |reflexivity];
      rewrite (Hlen s Hload eq_refl); reflexivity.
Qed.
End LoopFacts.

(** ** Window keys *)

Section KeyFacts.
Context {F : Type} `{PyFloat F} (E : env F).

(** The keys [(idx0, 0), ..., (idx0, n - 1)]. *)
Definition keys_upto (idx0 : Z) (n : nat) : list (Z * Z) :=
  map (fun k => (idx0, Z.of_nat k)) (seq 0 n).

Lemma keys_upto_S idx0 n :
  keys_upto idx0 (S n) = (keys_upto idx0 n ++ [(idx0, Z.of_nat n)])%list.
Proof. unfold keys_upto. now rewrite seq_S, map_app. Qed.

Lemma sorted_of_nat_seq a n : StronglySorted Z.lt (map Z.of_nat (seq a n)).
Proof.
  revert a. induction n as [|n IH]; intros a; cbn; constructor; [apply IH|].
  apply List.Forall_forall. intros x Hx.
  apply List.in_map_iff in Hx as (k & <- & Hk). apply List.in_seq in Hk. lia.
Qed.

Lemma keys_upto_sorted idx0 n : StronglySorted Z.lt (map snd (keys_upto idx0 n)).
Proof.
  unfold keys_upto. rewrite List.map_map. cbn. apply sorted_of_nat_seq.
Qed.

Variables (self : PreProcess F) (idx0 : Z) (fs0 : gmap string (file F)).

(** Every path whose content differs from the initial one is an artifact
    of a logged key. *)
Definition only_artifacts (s : frame F) : Prop :=
  forall p, fs s !! p = fs0 !! p \/
    exists k w, In (idx0, k, w) (calls s) /\
                (p = native_path self idx0 k \/ p = k16_path self idx0 k).

Definition keys_ok (s : frame F) : Prop :=
  map fst (calls s) = keys_upto idx0 (length (calls s)) /\ only_artifacts s.

Definition keys_inv (s : frame F) : Prop :=
  keys_ok s /\ idx1 s = len (calls s).

Lemma keys_segment seg eff s s1 :
  keys_inv s ->
  final (process_audio_segment E self seg idx0 (idx1 s) eff s) = Some s1 ->
  keys_ok s1 /\ keys_inv (set_idx1 (idx1 s + 1) s1).
Proof.
  intros [[Hk Ha] Hi] Hf.
  destruct (process_audio_segment_final E self seg idx0 (idx1 s) eff s)
    as (s2 & Hf2 & Hcalls & Hidx & _).
  rewrite Hf in Hf2. injection Hf2 as <-.
  assert (Hok : keys_ok s1).
  { split.
    - rewrite Hcalls, map_app, length_app, Hk. cbn [map fst length].
      rewrite Nat.add_1_r, keys_upto_S. do 3 f_equal. exact Hi.
    - intros p.
      destruct (decide (p = native_path self idx0 (idx1 s))) as [->|Hn].
      { right. exists (idx1 s), seg. split; [|now left].
        rewrite Hcalls. apply List.in_or_app. right. now left. }
      destruct (decide (p = k16_path self idx0 (idx1 s))) as [->|Hk16].
      { right. exists (idx1 s), seg. split; [|now right].
        rewrite Hcalls. apply List.in_or_app. right. now left. }
      rewrite (process_audio_segment_frame E self seg idx0 (idx1 s) eff s s1 p Hf Hn Hk16).
      destruct (Ha p) as [Heq|(k & w & Hin & Hp)]; [now left|].
      right. exists k, w. split; [|exact Hp].
      rewrite Hcalls. apply List.in_or_app. now left. }
  split; [exact Hok|]. split; [exact Hok|].
  change (idx1 s + 1 = len (calls s1)). rewrite Hcalls. unfold len in *.
  rewrite length_app. cbn [length]. lia.
Qed.

Lemma process_audio_try_keys_ok fuel path cut eff s' :
  final (process_audio_try E fuel self path idx0 cut eff (new_frame fs0)) = Some s' ->
  keys_ok s'.
Proof.
  intros Hf.
  apply (process_audio_try_weak E keys_inv keys_ok self idx0
           (fun s h => proj1 h) keys_segment fuel path cut eff (new_frame fs0) s');
    [| | |exact Hf]; intros; repeat split; intros p; now left.
Qed.
End KeyFacts.

(** ** Concrete runs on IEEE doubles *)

Module Demo.
(** A steady signal of [n] samples at 0.5. *)
Definition tone (n : nat) : list float := repeat 0.5%float n.

(** An environment whose decoder returns [audio] for every path, whose
    segmenter yields the whole waveform as one segment, whose filter and
    resampler keep the samples, and in which opening [p] for writing
    fails with OSError exactly when [unwritable p]. *)
Definition world (audio : list float) (unwritable : string -> bool) : env float := {|
  load_audio := fun _ _ => inr audio;
  slicer_slice := fun _ a => Yield a Stop;
  lfilter_high := fun _ a => inr a;
  resample := fun a _ _ => inr a;
  astype_float32 := fun a => a;
  listdir := fun _ => inr ["take1.wav"; "notes.txt"];
  makedirs_error := fun _ => None;
  write_error := fun p => if unwritable p then Some OSError else None |}.

(** PreProcess(sr, "logs/m", per) *)
Definition pp (sr : Z) (per : float) : PreProcess float := {|
  sr := sr; per := per; exp_dir := "logs/m";
  gt_wavs_dir := "logs/m/sliced_audios";
  wavs16k_dir := "logs/m/sliced_audios_16k" |}.

Lemma pp_constructed sr per : 96 < sr -> constructed (pp sr per).
Proof. intros Hsr. repeat split. exact Hsr. Qed.
End Demo.

Section WriterAtomicity.
Context {F : Type} `{PyFloat F} (E : env F).

(** C5 (as amended).  From a state in which neither artifact of the key
    exists, a call that returns normally leaves either both artifacts (the
    window was accepted: the native-rate file under sliced_audios and the
    16 kHz file under sliced_audios_16k, both named idx0_idx1.wav) or
    neither (normalisation rejected the window, and nothing changed). *)
Theorem writer_both_or_neither self seg idx0 i1 eff (s s' : frame F) :
  constructed self ->
  fs s !! native_path self idx0 i1 = None ->
  fs s !! k16_path self idx0 i1 = None ->
  process_audio_segment E self seg idx0 i1 eff s = Ret tt s' ->
  (exists na a16,
      (if eff then _normalize_audio seg else inr (Some seg)) = inr (Some na) /\
      resample E na (sr self) SAMPLE_RATE_16K = inr a16 /\
      fs s' !! native_path self idx0 i1
        = Some (WavFile (sr self) (astype_float32 E na)) /\
      fs s' !! k16_path self idx0 i1
        = Some (WavFile SAMPLE_RATE_16K (astype_float32 E a16)))
  \/ (eff = true /\ _normalize_audio seg = inr None /\ fs s' = fs s /\
      fs s' !! native_path self idx0 i1 = None /\
      fs s' !! k16_path self idx0 i1 = None).
Proof.
  intros Hc Hn Hk. rewrite process_audio_segment_eq. cbv zeta.
  destruct (if eff then _ else _) as [e|[na|]] eqn:Hnorm; [discriminate| |].
  - destruct (write_error E _); [discriminate|].
    destruct (resample E na _ _) as [e|a16] eqn:Hres; [discriminate|].
    destruct (write_error E _); [discriminate|].
    intros [= <-]. left. exists na, a16.
    split; [reflexivity|]. split; [exact Hres|]. split.
    + cbn. rewrite lookup_insert_ne by (apply not_eq_sym, native_k16_distinct, Hc).
      apply lookup_insert_eq.
    + cbn. apply lookup_insert_eq.
  - intros [= <-]. right. destruct eff; [|discriminate].
    repeat split; assumption.
Qed.
End WriterAtomicity.

Lemma writer_both_or_neither_witness :
  let E := Demo.world [] (fun _ => false) in
  let self := Demo.pp 40000 3 in
  let seg := [0.5; -0.25]%float in
  exists s',
    process_audio_segment E self seg 7 2 true (new_frame ∅) = Ret tt s' /\
    ((exists na a16,
         _normalize_audio seg = inr (Some na) /\
         resample E na (sr self) SAMPLE_RATE_16K = inr a16 /\
         fs s' !! native_path self 7 2 = Some (WavFile (sr self) (astype_float32 E na)) /\
         fs s' !! k16_path self 7 2
           = Some (WavFile SAMPLE_RATE_16K (astype_float32 E a16)))
     \/ (true = true /\ _normalize_audio seg = inr None /\ fs s' = fs (new_frame ∅) /\
         fs s' !! native_path self 7 2 = None /\
         fs s' !! k16_path self 7 2 = None)).
Proof.
  cbv zeta. eexists. split; [vm_compute; reflexivity|].
  apply (writer_both_or_neither (Demo.world [] (fun _ => false)) (Demo.pp 40000 3)
           [0.5; -0.25]%float 7 2 true (new_frame ∅));
    [apply Demo.pp_constructed; reflexivity | vm_compute; reflexivity ..].
Defined.

(** C5, counterexample.  The 16 kHz file cannot be opened: the call raises
    after the native-rate file was written, and only that one exists. *)
Lemma writer_leaves_native_alone :
  let E := Demo.world [] (String.eqb "logs/m/sliced_audios_16k/7_2.wav") in
  exists s',
    process_audio_segment E (Demo.pp 40000 3) [0.5; -0.25]%float 7 2 false (new_frame ∅)
      = Raise OSError s' /\
    fs s' !! "logs/m/sliced_audios/7_2.wav" = Some (WavFile 40000 [0.5; -0.25]%float) /\
    fs s' !! "logs/m/sliced_audios_16k/7_2.wav" = None.
Proof. cbv zeta. eexists. repeat split; vm_compute; reflexivity. Qed.

(** C1, counterexample.  A 4-second file (400 samples at 100 Hz) whose
    artifacts cannot be written: the [try] body raises OSError in the first
    write, and [process_audio] returns 4.0, not 0. *)
Lemma failed_write_still_counts :
  let E := Demo.world (Demo.tone 400) (fun _ => true) in
  process_audio_try E 8 (Demo.pp 100 1) "in/take1.wav" 0 true true (new_frame ∅)
    = Raise OSError {| fs := ∅; audio_length := 4%float; idx1 := 0;
                       calls := [(0, 0, Demo.tone 100)] |} /\
  process_audio E 8 (Demo.pp 100 1) "in/take1.wav" 0 true true ∅ = Ret 4%float ∅ /\
  (4 =? f_of_Z 0)%float = false.
Proof. cbv zeta. repeat split; vm_compute; reflexivity. Qed.

(** ** The window cutter in exact arithmetic *)

Section TruncFacts.
#[local] Open Scope Q_scope.

Lemma trunc_floor (x : Q) : 0 <= x -> QF.trunc x = Qfloor x.
Proof.
  destruct x as [n d]. unfold Qle, QF.trunc, Qfloor. cbn. intros Hn.
  apply Z.quot_div_nonneg; lia.
Qed.

Lemma trunc_bounds (x : Q) :
  0 <= x -> inject_Z (QF.trunc x) <= x /\ x < inject_Z (QF.trunc x) + 1.
Proof.
  intros Hx. rewrite (trunc_floor x Hx). split; [apply Qfloor_le|].
  pose proof (Qlt_floor x) as Hlt. rewrite inject_Z_plus in Hlt. exact Hlt.
Qed.

Lemma trunc_nonneg (x : Q) : 0 <= x -> (0 <= QF.trunc x)%Z.
Proof.
  intros Hx. rewrite (trunc_floor x Hx).
  change 0%Z with (Qfloor 0). now apply Qfloor_resp_le.
Qed.

Lemma trunc_of_int (x : Q) (z : Z) : (0 <= z)%Z -> x == inject_Z z -> QF.trunc x = z.
Proof.
  intros Hz Hx. rewrite trunc_floor.
  - rewrite Hx. apply Qfloor_Z.
  - rewrite Hx. change 0 with (inject_Z 0). now rewrite <- Zle_Qle.
Qed.

Lemma inject_Z_lt_le (a b : Z) (x : Q) :
  inject_Z a <= x -> x < inject_Z b + 1 -> (a <= b)%Z.
Proof.
  intros Ha Hb.
  assert (Hab : inject_Z a < inject_Z (b + 1)).
  { rewrite inject_Z_plus. eapply Qle_lt_trans; eassumption. }
  rewrite <- Zlt_Qlt in Hab. lia.
Qed.
End TruncFacts.

Section SliceFacts.
Context {A : Type}.

Lemma len_nonneg (l : list A) : 0 <= len l.
Proof. unfold len. lia. Qed.

Lemma slice_from_0 (l : list A) : slice_from l 0 = l.
Proof.
  unfold slice_from, py_clamp. cbn.
  rewrite Z.min_l by apply len_nonneg. reflexivity.
Qed.

Lemma len_slice_from (l : list A) (start : Z) :
  0 <= start -> len (slice_from l start) = Z.max (len l - start) 0.
Proof.
  intros Hs. unfold slice_from, py_clamp, len.
  destruct (start <? 0) eqn:Hneg; [lia|].
  rewrite length_drop. lia.
Qed.

Lemma len_py_slice (l : list A) (lo hi : Z) :
  0 <= lo -> lo <= hi -> hi <= len l -> len (py_slice l lo hi) = hi - lo.
Proof.
  intros H0 H1 H2. unfold py_slice, py_clamp.
  destruct (lo <? 0) eqn:Hlo; [lia|]. destruct (hi <? 0) eqn:Hhi; [lia|].
  unfold len in *. rewrite length_take, length_drop.
  rewrite (Z.min_l hi), (Z.min_l lo) by lia. rewrite Nat.min_l by lia. lia.
Qed.

Lemma len_pos_nonempty (l : list A) : 0 < len l -> l <> [].
Proof. intros Hl ->. unfold len in Hl. cbn in Hl. lia. Qed.
End SliceFacts.

Section CutterExact.
#[local] Open Scope Q_scope.
Variables (E : env Q) (self : PreProcess Q).

(** The start of window [i], the length of a full window and the tail
    threshold, as the loop computes them. *)
Definition start_of (i : Z) : Z := QF.trunc (start_expr self i).
Definition window_len : Z := QF.trunc (per self * inject_Z (sr self))%pyf.
Definition tail_limit : Q := ((per self + OVERLAP) * inject_Z (sr self))%Q.

Lemma f_int_start i : f_int (start_expr self i) = Some (start_of i).
Proof. reflexivity. Qed.

Lemma f_int_window : f_int (per self * f_of_Z (sr self))%pyf = Some window_len.
Proof. reflexivity. Qed.

Lemma start_of_0 : start_of 0 = 0%Z.
Proof.
  unfold start_of, start_expr, QF.trunc. cbn.
  rewrite Z.mul_0_r. apply Z.quot_0_l. lia.
Qed.

Lemma long_tail_true seg start :
  long_tail self seg start = true <-> tail_limit < inject_Z (len (slice_from seg start)).
Proof. unfold long_tail. apply Q_ltb_true. Qed.

Lemma long_tail_false seg start :
  long_tail self seg start = false <-> inject_Z (len (slice_from seg start)) <= tail_limit.
Proof. unfold long_tail. apply Q_ltb_false. Qed.

Lemma start_expr_step i :
  start_expr self (i + 1)
    == start_expr self i
       + (per self * inject_Z (sr self) - (3 # 10) * inject_Z (sr self)).
Proof.
  unfold start_expr. cbn [f_mul f_sub f_of_Z Q_float].
  change (@OVERLAP Q _) with (3 # 10).
  rewrite inject_Z_plus. change (inject_Z 1) with 1. ring.
Qed.

Lemma start_expr_eq i :
  start_expr self i == inject_Z (sr self) * (per self - (3 # 10)) * inject_Z i.
Proof. reflexivity. Qed.

Hypothesis rate_ok : (4 <= sr self)%Z.
Hypothesis per_ok : 3 # 10 < per self.

Lemma rate_Q : 4 <= inject_Z (sr self).
Proof. change 4 with (inject_Z 4). now rewrite <- Zle_Qle. Qed.

Lemma hop_pos : 0 < inject_Z (sr self) * (per self - (3 # 10)).
Proof.
  pose proof rate_Q. apply Qmult_lt_0_compat; lra.
Qed.

Lemma start_expr_nonneg i : (0 <= i)%Z -> 0 <= start_expr self i.
Proof.
  intros Hi. rewrite start_expr_eq.
  apply Qmult_le_0_compat; [apply Qlt_le_weak, hop_pos|].
  change 0 with (inject_Z 0). now rewrite <- Zle_Qle.
Qed.

Lemma start_of_nonneg i : (0 <= i)%Z -> (0 <= start_of i)%Z.
Proof. intros Hi. apply trunc_nonneg, start_expr_nonneg, Hi. Qed.

Lemma tail_limit_eq :
  tail_limit == per self * inject_Z (sr self) + (3 # 10) * inject_Z (sr self).
Proof. unfold tail_limit. change (@OVERLAP Q _) with (3 # 10). ring. Qed.

Lemma per_rate_bound : 12 # 10 < per self * inject_Z (sr self).
Proof.
  pose proof rate_Q as Hr.
  assert (Hm : 0 <= (per self - (3 # 10)) * (inject_Z (sr self) - 4))
    by (apply Qmult_le_0_compat; lra).
  assert (Heq : (per self - (3 # 10)) * (inject_Z (sr self) - 4)
                == per self * inject_Z (sr self) - 4 * per self
                   - (3 # 10) * inject_Z (sr self) + (12 # 10)) by ring.
  rewrite Heq in Hm. lra.
Qed.

Lemma window_len_pos : (0 < window_len)%Z.
Proof.
  pose proof per_rate_bound as Hb.
  destruct (trunc_bounds (per self * inject_Z (sr self))) as [_ Hu]; [lra|].
  change (QF.trunc (per self * inject_Z (sr self))) with window_len in Hu.
  assert (H1 : 0 < inject_Z window_len) by lra.
  change 0 with (inject_Z 0) in H1. now rewrite <- Zlt_Qlt in H1.
Qed.

(** What a passed loop test says about window [i] and the next start. *)
Lemma full_window_facts seg i :
  (0 <= i)%Z -> long_tail self seg (start_of i) = true ->
  (start_of i + window_len <= len seg)%Z /\
  (start_of i <= start_of (i + 1))%Z /\
  (start_of (i + 1) <= start_of i + window_len)%Z /\
  (start_of (i + 1) < len seg)%Z.
Proof.
  intros Hi Hlong. apply long_tail_true in Hlong.
  pose proof (start_of_nonneg i Hi) as Hs0.
  rewrite len_slice_from in Hlong by exact Hs0.
  pose proof rate_Q as Hr. pose proof per_rate_bound as Hpr.
  pose proof tail_limit_eq as Hlim.
  pose proof (start_expr_step i) as Hstep.
  destruct (trunc_bounds (start_expr self i) (start_expr_nonneg i Hi)) as [Hl Hu].
  destruct (trunc_bounds (start_expr self (i + 1))) as [Hl' Hu'];
    [apply start_expr_nonneg; lia|].
  destruct (trunc_bounds (per self * inject_Z (sr self))) as [Hwl Hwu]; [lra|].
  fold (start_of i) in Hl, Hu. fold (start_of (i + 1)) in Hl', Hu'.
  change (QF.trunc (per self * inject_Z (sr self))) with window_len in Hwl, Hwu.
  assert (Hlen : tail_limit < inject_Z (len seg) - inject_Z (start_of i)).
  { destruct (Z.max_spec (len seg - start_of i) 0) as [[_ Hm]|[_ Hm]];
      rewrite Hm in Hlong.
    - change (inject_Z 0) with 0 in Hlong. lra.
    - unfold Z.sub in Hlong. rewrite inject_Z_plus, inject_Z_opp in Hlong. lra. }
  assert (Q2Z : forall a b : Z, inject_Z a < inject_Z b + 1 -> (a <= b)%Z).
  { intros a b Hab. apply (inject_Z_lt_le a b (inject_Z a)); [apply Qle_refl | exact Hab]. }
  assert (Hhop : 0 < per self * inject_Z (sr self) - (3 # 10) * inject_Z (sr self)).
  { pose proof hop_pos as Hh.
    assert (Heq : inject_Z (sr self) * (per self - (3 # 10))
                  == per self * inject_Z (sr self) - (3 # 10) * inject_Z (sr self)) by ring.
    now rewrite Heq in Hh. }
  set (P := per self * inject_Z (sr self)) in *. clearbody P.
  set (r := inject_Z (sr self)) in *. clearbody r.
  set (a := start_expr self i) in *. clearbody a.
  set (a' := start_expr self (i + 1)) in *. clearbody a'.
  clear Hlong. repeat split.
  - apply Q2Z. rewrite !inject_Z_plus. lra.
  - apply Q2Z. lra.
  - apply Q2Z. rewrite !inject_Z_plus. lra.
  - assert (Hlt : inject_Z (start_of (i + 1)) < inject_Z (len seg)) by lra.
    now rewrite <- Zlt_Qlt in Hlt.
Qed.

(** Past this many turns the start has run off the end of [seg]. *)
Definition turns (seg : list Q) : Z :=
  Qceiling (inject_Z (len seg) / (inject_Z (sr self) * (per self - (3 # 10)))).

Lemma far_start seg i : (turns seg <= i)%Z -> (len seg <= start_of i)%Z.
Proof.
  intros Hi. pose proof hop_pos as Hh.
  set (h := inject_Z (sr self) * (per self - (3 # 10))) in *.
  assert (Hn : inject_Z (len seg) / h <= inject_Z i).
  { eapply Qle_trans; [apply Qle_ceiling|]. fold h. fold (turns seg).
    now rewrite <- Zle_Qle. }
  assert (Hle : inject_Z (len seg) <= start_expr self i).
  { rewrite start_expr_eq. fold h.
    assert (Heq : inject_Z (len seg) == inject_Z (len seg) / h * h)
      by (field; intros Hz; rewrite Hz in Hh; now apply Qlt_irrefl in Hh).
    rewrite Heq. apply (Qmult_le_compat_r _ _ h) in Hn; [|now apply Qlt_le_weak].
    rewrite (Qmult_comm h). exact Hn. }
  assert (H0 : 0 <= start_expr self i).
  { eapply Qle_trans; [|exact Hle]. change 0 with (inject_Z 0).
    rewrite <- Zle_Qle. apply len_nonneg. }
  unfold start_of. rewrite (trunc_floor _ H0).
  rewrite <- (Qfloor_Z (len seg)). now apply Qfloor_resp_le.
Qed.

Lemma tail_limit_pos : 0 < tail_limit.
Proof. pose proof tail_limit_eq. pose proof per_rate_bound. pose proof rate_Q. lra. Qed.

Lemma long_tail_turns seg i :
  (0 <= i)%Z -> long_tail self seg (start_of i) = true -> (i < turns seg)%Z.
Proof.
  intros Hi Hlong. apply long_tail_true in Hlong.
  rewrite len_slice_from in Hlong by (apply start_of_nonneg, Hi).
  destruct (Z_lt_le_dec i (turns seg)) as [Hlt|Hge]; [exact Hlt|].
  pose proof (far_start seg i Hge) as Hfar.
  rewrite Z.max_r in Hlong by lia.
  pose proof tail_limit_pos. change (inject_Z 0) with 0 in Hlong. lra.
Qed.

(** The loop ends within [turns seg] + 1 turns, however the writer fares. *)
Lemma cut_loop_terminates seg idx0 eff fuel i (s : frame Q) :
  (0 <= i)%Z -> (Z.max (turns seg - i) 0 < Z.of_nat fuel)%Z ->
  cut_loop E fuel self seg i idx0 eff s <> Spin.
Proof.
  revert i s. induction fuel as [|fuel IH]; intros i s Hi Hfuel; [lia|].
  - rewrite cut_loop_eq, f_int_start.
    destruct (long_tail self seg (start_of i)) eqn:Hlong.
    + rewrite f_int_window.
      pose proof (long_tail_turns seg i Hi Hlong) as Hlt.
      destruct (process_audio_segment E self _ idx0 (idx1 s) eff s)
        as [[] s1|e s1|] eqn:Hseg.
      * apply IH; lia.
      * discriminate.
      * now apply process_audio_segment_no_spin in Hseg.
    + destruct (process_audio_segment E self _ idx0 (idx1 s) eff s)
        as [[] s1|e s1|] eqn:Hseg; try discriminate.
      now apply process_audio_segment_no_spin in Hseg.
Qed.
End CutterExact.

Section CutterRuns.
#[local] Open Scope Q_scope.
Variables (E : env Q) (self : PreProcess Q).

Lemma normalize_total (audio : list Q) :
  audio <> [] -> exists r, _normalize_audio audio = inr r.
Proof.
  destruct audio as [|a rest]; [congruence|]. intros _.
  unfold _normalize_audio. cbn [abs_max].
  destruct (f_ltb _ _); eauto.
Qed.

Lemma process_audio_segment_returns seg idx0 i1 eff (s : frame Q) :
  fault_free E -> seg <> [] ->
  exists s', process_audio_segment E self seg idx0 i1 eff s = Ret tt s' /\
    calls s' = (calls s ++ [(idx0, i1, seg)])%list /\ idx1 s' = idx1 s.
Proof.
  intros [Hw Hr] Hne.
  destruct (process_audio_segment_final E self seg idx0 i1 eff s)
    as (s1 & Hf & Hcalls & Hidx & _).
  assert (Hret : exists s', process_audio_segment E self seg idx0 i1 eff s = Ret tt s').
  { rewrite process_audio_segment_eq. cbv zeta.
    assert (Hn : exists r, (if eff then _normalize_audio seg else inr (Some seg)) = inr r).
    { destruct eff; [now apply normalize_total | eauto]. }
    destruct Hn as ([na|] & ->); [|eauto].
    rewrite Hw. destruct (Hr na (sr self) SAMPLE_RATE_16K) as (b & ->).
    rewrite Hw. eauto. }
  destruct Hret as (s' & Hret). exists s'. rewrite Hret in Hf.
  injection Hf as ->. auto.
Qed.

(** The windows of [seg] as slices: [m] full windows from loop counter [i]
    on, then the tail, keyed from [base] upwards. *)
Fixpoint windows_from (seg : list Q) (idx0 : Z) (m : nat) (i base : Z)
    : list (Z * Z * list Q) :=
  match m with
  | O => [(idx0, base, slice_from seg (start_of self i))]
  | S m' =>
      (idx0, base, py_slice seg (start_of self i) (start_of self i + window_len self))
        :: windows_from seg idx0 m' (i + 1) (base + 1)
  end.

Hypothesis rate_ok : (4 <= sr self)%Z.
Hypothesis per_ok : 3 # 10 < per self.
Hypothesis no_faults : fault_free E.

Lemma cut_loop_runs seg idx0 eff fuel i (s : frame Q) :
  (0 <= i)%Z -> (start_of self i < len seg)%Z ->
  (Z.max (turns self seg - i) 0 < Z.of_nat fuel)%Z ->
  exists (m : nat) s',
    cut_loop E fuel self seg i idx0 eff s = Ret tt s' /\
    calls s' = (calls s ++ windows_from seg idx0 m i (idx1 s))%list /\
    idx1 s' = (idx1 s + Z.of_nat m + 1)%Z /\
    (forall k, (k < m)%nat ->
       long_tail self seg (start_of self (i + Z.of_nat k)) = true) /\
    long_tail self seg (start_of self (i + Z.of_nat m)) = false.
Proof.
  revert i s. induction fuel as [|fuel IH]; intros i s Hi Hstart Hfuel; [lia|].
  rewrite cut_loop_eq, f_int_start.
  destruct (long_tail self seg (start_of self i)) eqn:Hlong.
  - rewrite f_int_window.
    pose proof (long_tail_turns self rate_ok per_ok seg i Hi Hlong) as Hlt.
    destruct (full_window_facts self rate_ok per_ok seg i Hi Hlong)
      as (Hfit & Hmono & Hgap & Hnext).
    pose proof (window_len_pos self rate_ok per_ok) as Hw.
    pose proof (start_of_nonneg self rate_ok per_ok i Hi) as Hs0.
    destruct (process_audio_segment_returns
                (py_slice seg (start_of self i) (start_of self i + window_len self))
                idx0 (idx1 s) eff s no_faults) as (s1 & -> & Hcalls & Hidx).
    { apply len_pos_nonempty. rewrite len_py_slice; lia. }
    destruct (IH (i + 1)%Z (set_idx1 (idx1 s + 1) s1)) as (m & s' & Hrun & Hc & Hi1 & Hfull & Hlast);
      [lia | exact Hnext | lia |].
    exists (S m), s'. split; [exact Hrun|]. split; [|split; [|split]].
    + rewrite Hc. cbn [calls set_idx1 idx1 windows_from]. rewrite Hcalls.
      now rewrite <- app_assoc.
    + rewrite Hi1. cbn [idx1 set_idx1]. lia.
    + intros [|k] Hk.
      * now rewrite Z.add_0_r.
      * replace (i + Z.of_nat (S k))%Z with (i + 1 + Z.of_nat k)%Z by lia.
        apply Hfull. lia.
    + replace (i + Z.of_nat (S m))%Z with (i + 1 + Z.of_nat m)%Z by lia. exact Hlast.
  - destruct (process_audio_segment_returns (slice_from seg (start_of self i))
                idx0 (idx1 s) eff s no_faults) as (s1 & -> & Hcalls & Hidx).
    { apply len_pos_nonempty.
      rewrite len_slice_from by (apply (start_of_nonneg self rate_ok per_ok), Hi). lia. }
    exists O, (set_idx1 (idx1 s + 1) s1). split; [reflexivity|].
    split; [exact Hcalls|]. split; [cbn; lia|]. split; [intros k Hk; lia|].
    now rewrite Z.add_0_r.
Qed.
End CutterRuns.

Section CutterCoverage.
#[local] Open Scope Q_scope.
Variables (E : env Q) (self : PreProcess Q).

Lemma duration_below seg :
  (0 < sr self)%Z -> get_duration seg (sr self) < per self + OVERLAP ->
  inject_Z (len seg) < tail_limit self.
Proof.
  intros Hsr Hd. unfold get_duration in Hd. cbn [f_div f_of_Z Q_float] in Hd.
  assert (Hr : 0 < inject_Z (sr self))
    by (change 0 with (inject_Z 0); now rewrite <- Zlt_Qlt).
  assert (Heq : inject_Z (len seg) == inject_Z (len seg) / inject_Z (sr self) * inject_Z (sr self))
    by (field; intros Hz; rewrite Hz in Hr; now apply Qlt_irrefl in Hr).
  rewrite Heq. unfold tail_limit. now apply Qmult_lt_compat_r.
Qed.

Lemma duration_above seg :
  (0 < sr self)%Z -> per self + OVERLAP < get_duration seg (sr self) ->
  tail_limit self < inject_Z (len seg).
Proof.
  intros Hsr Hd. unfold get_duration in Hd. cbn [f_div f_of_Z Q_float] in Hd.
  assert (Hr : 0 < inject_Z (sr self))
    by (change 0 with (inject_Z 0); now rewrite <- Zlt_Qlt).
  assert (Heq : inject_Z (len seg) == inject_Z (len seg) / inject_Z (sr self) * inject_Z (sr self))
    by (field; intros Hz; rewrite Hz in Hr; now apply Qlt_irrefl in Hr).
  rewrite Heq. unfold tail_limit. now apply Qmult_lt_compat_r.
Qed.

End CutterCoverage.

Module DemoQ.
(** The counterpart of [Demo.world] in exact arithmetic, without faults. *)
Definition world (audio : list Q) : env Q := {|
  load_audio := fun _ _ => inr audio;
  slicer_slice := fun _ a => Yield a Stop;
  lfilter_high := fun _ a => inr a;
  resample := fun a _ _ => inr a;
  astype_float32 := fun a => a;
  listdir := fun _ => inr ["take1.wav"; "notes.txt"];
  makedirs_error := fun _ => None;
  write_error := fun _ => None |}.

Definition pp (sr : Z) (per : Q) : PreProcess Q := {|
  sr := sr; per := per; exp_dir := "logs/m";
  gt_wavs_dir := "logs/m/sliced_audios";
  wavs16k_dir := "logs/m/sliced_audios_16k" |}.

Definition tone (n : nat) : list Q := repeat (1 # 2)%Q n.

Lemma world_fault_free audio : fault_free (world audio).
Proof. split; [reflexivity | intros a r t; now exists a]. Qed.
End DemoQ.

(** ** The windows of the cutter, whatever the floats *)

Section SliceLookup.
Context {A : Type}.


End SliceLookup.


Section CutterWindows.
Context {F : Type} `{PyFloat F} (E : env F).
Variable self : PreProcess F.

(** The start of window [k] and the length of a full window, as the loop
    computes them with [int]; 0 stands in where [int] raises. *)
Definition start_at (k : nat) : Z := default 0 (f_int (start_expr self (Z.of_nat k))).
Definition full_len : Z := default 0 (f_int (per self * f_of_Z (sr self))%pyf).



End CutterWindows.




Section CutterCovers.
Context {F : Type} `{PyFloat F}.
Variable self : PreProcess F.


End CutterCovers.

Section CutterOverlap.
#[local] Open Scope Q_scope.
Variables (E : env Q) (self : PreProcess Q).
Hypothesis rate_ok : (4 <= sr self)%Z.
Hypothesis per_ok : 3 # 10 < per self.



End CutterOverlap.


(** The literal 1.4 *)
Definition seven_fifths : float := dec 14 1.


Example demoQ_windows :
  option_map (fun s => map (fun c => (snd (fst c), len (snd c))) (calls s))
    (final (cut_loop (DemoQ.world []) 8 (DemoQ.pp 100 1) (DemoQ.tone 400) 0 0 true (new_frame ∅)))
  = Some [(0, 100); (1, 100); (2, 100); (3, 100); (4, 120)] /\
  map (start_of (DemoQ.pp 100 1)) [0; 1; 2; 3; 4] = [0; 70; 140; 210; 280] /\
  window_len (DemoQ.pp 100 1) = 100.
Proof. repeat split; vm_compute; reflexivity. Qed.


(** The same two settings in exact arithmetic: there the windows at
    40000 Hz and per = 1.4 start at 0, 44000, 88000 and share 12000
    samples.  On doubles the starts leave no gap either. *)
Example starts_exact_and_double :
  map (start_at (DemoQ.pp 40000 (14 # 10))) [0; 1; 2]%nat = [0; 44000; 88000] /\
  full_len (DemoQ.pp 40000 (14 # 10)) = 56000 /\
  map (start_at (DemoQ.pp 11025 3)) [0; 1; 2]%nat = [0; 29767; 59535] /\
  map (start_at (Demo.pp 11025 3)) [0; 1; 2]%nat = [0; 29767; 59535] /\
  forallb (fun k => (start_at (Demo.pp 40000 seven_fifths) (S k)
                     <=? start_at (Demo.pp 40000 seven_fifths) k
                         + full_len (Demo.pp 40000 seven_fifths)))
          [0; 1]%nat = true.
Proof. repeat split; vm_compute; reflexivity. Qed.

(** ** The cutter on IEEE doubles: a waveform below the threshold *)

(** The rational number a double stands for (0 for NaN and the infinities). *)
Definition SF2Q (x : spec_float) : Q :=
  match x with
  | S754_finite s m e =>
      let v := if 0 <=? e then inject_Z (Z.pos m * 2 ^ e)
               else (inject_Z (Z.pos m) / inject_Z (2 ^ (- e)))%Q in
      if s then (- v)%Q else v
  | _ => 0%Q
  end.
Definition value (x : float) : Q := SF2Q (Prim2SF x).

Section ShortWaveform.
Variables (E : env float) (self : PreProcess float).



End ShortWaveform.


(** The literal 0.4 *)
Definition two_fifths : float := dec 4 1.



Example short_waveform_threshold :
  Qeq_bool (value two_fifths) (3602879701896397 # 9007199254740992) = true /\
  Qle_bool (4 # 10) (value two_fifths) = true /\
  (two_fifths + OVERLAP)%pyf = 0x1.6666666666666p-1%float /\
  Qle_bool (7 # 10) (value 0x1.6666666666666p-1) = false /\
  get_duration (Demo.tone 15435) 22050 = 0x1.6666666666666p-1%float.
Proof. repeat split; vm_compute; reflexivity. Qed.

(** ** The duration report *)

Section ReportFacts.
Context {F : Type} `{PyFloat F} (E : env F).

(** The text [format_duration] returns, when the three [int]s succeed. *)
Definition duration_text (seconds : F) : option string :=
  match f_int (seconds // f_of_Z 3600)%pyf,
        f_int ((seconds mod f_of_Z 3600) // f_of_Z 60)%pyf,
        f_int (seconds mod f_of_Z 60)%pyf with
  | Some h, Some m, Some s => Some (fmt02 h ++ ":" ++ fmt02 m ++ ":" ++ fmt02 s)
  | _, _, _ => None
  end.

Lemma format_duration_eq {S} (seconds : F) (s : S) :
  format_duration seconds s =
  match duration_text seconds with
  | Some t => Ret t s
  | None => Raise ValueError s
  end.
Proof.
  unfold format_duration, duration_text, bind, int_, ret, raise.
  destruct (f_int _); [|reflexivity].
  destruct (f_int _); [|reflexivity].
  destruct (f_int _); reflexivity.
Qed.

(** The dict [save_dataset_duration] writes over a loaded dict [old]. *)
Definition merged (old : gmap string (json F)) (text : string) (seconds : F)
    : gmap string (json F) :=
  <["total_dataset_duration" := JStr text]> (<["total_seconds" := JNum seconds]> ∅) ∪ old.

Lemma merged_lookup old text seconds :
  merged old text seconds !! "total_dataset_duration" = Some (JStr text) /\
  merged old text seconds !! "total_seconds" = Some (JNum seconds) /\
  (forall k, k <> "total_dataset_duration" -> k <> "total_seconds" ->
     merged old text seconds !! k = old !! k).
Proof.
  unfold merged. repeat split.
  - apply lookup_union_Some_l, lookup_insert_eq.
  - apply lookup_union_Some_l. rewrite lookup_insert_ne by discriminate.
    apply lookup_insert_eq.
  - intros k Hk1 Hk2. apply lookup_union_r.
    rewrite !lookup_insert_ne by congruence. apply lookup_empty.
Qed.

(** What [json.load] makes of the file at [path]. *)
Definition loaded (fs0 : gmap string (file F)) (path : string)
    : exn + pyval F :=
  match fs0 !! path with
  | None => inl FileNotFoundError
  | Some (JsonFile (JObj l)) => inr (Dict (list_to_map (reverse l)))
  | Some (JsonFile j) => inr (NotDict j)
  | Some _ => inl JSONDecodeError
  end.

Lemma json_load_eq path (fs0 : gmap string (file F)) :
  json_load path fs0 =
  match loaded fs0 path with
  | inl e => Raise e fs0
  | inr v => Ret v fs0
  end.
Proof.
  unfold json_load, loaded, bind, get, ret, raise.
  destruct (fs0 !! path) as [[r d|j|]|]; try reflexivity.
  destruct j; reflexivity.
Qed.

(** [save_dataset_duration], by cases. *)
Lemma save_dataset_duration_eq path seconds (fs0 : gmap string (file F)) :
  save_dataset_duration E path seconds fs0 =
  match (match loaded fs0 path with
         | inl FileNotFoundError => inr (Dict ∅)
         | r => r
         end) with
  | inl e => Raise e fs0
  | inr data =>
      match duration_text seconds with
      | None => Raise ValueError fs0
      | Some text =>
          match data with
          | NotDict _ => Raise AttributeError fs0
          | Dict old =>
              match write_error E path with
              | Some e => Raise e fs0
              | None =>
                  Ret tt (<[path := JsonFile (JObj (map_to_list (merged old text seconds)))]> fs0)
              end
          end
      end
  end.
Proof.
  unfold save_dataset_duration, bind, try_except. rewrite json_load_eq.
  destruct (loaded fs0 path) as [e|data].
  - destruct (decide (e = FileNotFoundError)) as [->|Hne].
    + unfold ret. rewrite format_duration_eq.
      destruct (duration_text seconds); [|reflexivity].
      unfold dict_update, ret, json_dump, merged.
      destruct (write_error E path); reflexivity.
    + destruct e; try reflexivity. congruence.
  - rewrite format_duration_eq. destruct (duration_text seconds); [|reflexivity].
    destruct data; [|reflexivity].
    unfold dict_update, ret, json_dump, merged.
    destruct (write_error E path); reflexivity.
Qed.

Lemma dump_load (d : gmap string (json F)) :
  list_to_map (reverse (map_to_list d)) = d.
Proof.
  transitivity (list_to_map (map_to_list d) : gmap string (json F));
    [|apply list_to_map_to_list].
  symmetry. apply list_to_map_proper; [apply NoDup_fst_map_to_list|].
  symmetry. apply reverse_Permutation.
Qed.

(** C8.  When the report file holds a JSON object and can be rewritten,
    [save_dataset_duration] replaces it by an object in which
    total_dataset_duration and total_seconds hold the run's values and
    every other key has exactly the value it had (and no other key
    appears); reading the file back gives that dict. *)
Theorem report_keeps_other_keys path seconds text (fs0 : gmap string (file F)) l :
  fs0 !! path = Some (JsonFile (JObj l)) ->
  duration_text seconds = Some text ->
  write_error E path = None ->
  exists data fs1,
    save_dataset_duration E path seconds fs0 = Ret tt fs1 /\
    fs1 = <[path := JsonFile (JObj (map_to_list data))]> fs0 /\
    json_load path fs1 = Ret (Dict data) fs1 /\
    data !! "total_dataset_duration" = Some (JStr text) /\
    data !! "total_seconds" = Some (JNum seconds) /\
    (forall k, k <> "total_dataset_duration" -> k <> "total_seconds" ->
       data !! k = (list_to_map (reverse l) : gmap string (json F)) !! k).
Proof.
  intros Hfile Htext Hw.
  exists (merged (list_to_map (reverse l)) text seconds). eexists.
  split; [|split; [reflexivity|]].
  - rewrite save_dataset_duration_eq. unfold loaded.
    rewrite Hfile, Htext, Hw. reflexivity.
  - split; [|apply merged_lookup].
    rewrite json_load_eq. unfold loaded. rewrite lookup_insert_eq.
    now rewrite dump_load.
Qed.
End ReportFacts.

Module DemoReport.
Definition old : list (string * json float) :=
  [("model", JStr "v2"); ("total_seconds", JNum 1%float); ("epochs", JNum 300%float)].
Definition path : string := "logs/m/model_info.json".
Definition fs0 : gmap string (file float) := <[path := JsonFile (JObj old)]> ∅.
End DemoReport.

Lemma report_keeps_other_keys_witness :
  exists (data : gmap string (json float)) fs1,
    save_dataset_duration (Demo.world [] (fun _ => false)) DemoReport.path 7325%float
      DemoReport.fs0 = Ret tt fs1 /\
    data !! "total_dataset_duration" = Some (JStr "02:02:05") /\
    data !! "total_seconds" = Some (JNum 7325%float) /\
    data !! "model" = Some (JStr "v2") /\
    data !! "epochs" = Some (JNum 300%float) /\
    data !! "other" = None.
Proof.
  destruct (report_keeps_other_keys (Demo.world [] (fun _ => false))
              DemoReport.path 7325%float "02:02:05" DemoReport.fs0 DemoReport.old
              ltac:(vm_compute; reflexivity) ltac:(vm_compute; reflexivity)
              ltac:(reflexivity))
    as (data & fs1 & Hrun & _ & _ & Ht & Hs & Hother).
  exists data, fs1. split; [exact Hrun|]. split; [exact Ht|]. split; [exact Hs|].
  repeat split; (rewrite Hother by discriminate; vm_compute; reflexivity).
Defined.

(** ** The run *)

Section RunFacts.
Context {F : Type} `{PyFloat F} (E : env F).

(** The argument list of [pool.map]. *)
Definition jobs (pp : PreProcess F) (files : list (string * Z)) (cut eff : bool)
    : list (PreProcess F * (string * Z) * bool * bool) :=
  map (fun file => (pp, file, cut, eff)) files.

(** The files [preprocess_training_set] dispatches. *)
Definition audio_files (input_root : string) (names : list string) : list (string * Z) :=
  map (fun '(idx, f) => (path_join input_root f, idx))
    (List.filter (fun '(_, f) => is_audio_file f) (enumerate names)).

Lemma process_audio_keeps_report fuel self path idx0 cut eff fs0 d fs1 :
  constructed self ->
  process_audio E fuel self path idx0 cut eff fs0 = Ret d fs1 ->
  fs1 !! report_path (exp_dir self) = fs0 !! report_path (exp_dir self).
Proof.
  intros Hc. rewrite process_audio_eq.
  pose proof (process_audio_try_keys_ok E self idx0 fs0 fuel path cut eff) as Hk.
  destruct (process_audio_try E fuel self path idx0 cut eff (new_frame fs0))
    as [[] s|e s|]; [| |discriminate]; intros [= _ <-];
    destruct (Hk s eq_refl) as (_ & Honly);
    (destruct (Honly (report_path (exp_dir self))) as [Heq|(k & w & _ & [Hp|Hp])];
     [exact Heq | | ]; exfalso;
     destruct (report_not_artifact self idx0 k Hc) as [Hn Hk16]; congruence).
Qed.

Lemma pool_map_keeps_report fuel pp files cut eff fs0 ds fs1 :
  constructed pp ->
  pool_map (process_audio_wrapper E fuel) (jobs pp files cut eff) fs0 = Ret ds fs1 ->
  fs1 !! report_path (exp_dir pp) = fs0 !! report_path (exp_dir pp).
Proof.
  intros Hc. revert fs0 ds. induction files as [|[path idx0] files IH]; intros fs0 ds.
  - intros [= _ <-]. reflexivity.
  - cbn [jobs map pool_map]. unfold bind. cbn [process_audio_wrapper].
    destruct (process_audio E fuel pp path idx0 cut eff fs0) as [d fs'|e fs'|] eqn:Hfile;
      [|discriminate|discriminate].
    fold (jobs pp files cut eff).
    destruct (pool_map _ (jobs pp files cut eff) fs') as [ds' fs''|e fs''|] eqn:Hrest;
      [|discriminate|discriminate].
    intros [= _ <-]. rewrite (IH _ _ Hrest).
    apply (process_audio_keeps_report _ _ _ _ _ _ _ _ _ Hc Hfile).
Qed.

(** When no file can be decoded, [pool.map] returns a 0 per file and
    writes nothing. *)
Lemma pool_map_all_fail fuel pp files cut eff fs0 :
  (forall p, exists e, load_audio E p (sr pp) = inl e) ->
  pool_map (process_audio_wrapper E fuel) (jobs pp files cut eff) fs0
    = Ret (map (fun _ => f_of_Z 0) files) fs0.
Proof.
  intros Hfail. induction files as [|[path idx0] files IH]; [reflexivity|].
  cbn [jobs map pool_map]. unfold bind. cbn [process_audio_wrapper].
  destruct (Hfail path) as (e & He).
  rewrite (process_audio_undecodable E fuel pp path idx0 cut eff fs0 e He).
  fold (jobs pp files cut eff). now rewrite IH.
Qed.

(** The instance [__init__] builds when it does not raise. *)
Definition instance (rate : Z) (exp : string) (window : F) : PreProcess F :=
  {| sr := rate; per := window; exp_dir := exp;
     gt_wavs_dir := path_join exp "sliced_audios";
     wavs16k_dir := path_join exp "sliced_audios_16k" |}.

Lemma instance_constructed rate exp window :
  2 * HIGH_PASS_CUTOFF < rate -> constructed (instance rate exp window).
Proof. intros Hrate. repeat split. exact Hrate. Qed.

(** [preprocess_training_set], by cases. *)
Lemma preprocess_training_set_eq fuel input_root rate nproc exp window cut eff
    (fs0 : gmap string (file F)) :
  2 * HIGH_PASS_CUTOFF < rate ->
  makedirs_error E (path_join exp "sliced_audios") = None ->
  makedirs_error E (path_join exp "sliced_audios_16k") = None ->
  preprocess_training_set E fuel input_root rate nproc exp window cut eff fs0 =
  match listdir E input_root with
  | inl e => Raise e fs0
  | inr names =>
      if nproc <? 1 then Raise ValueError fs0
      else
        match pool_map (process_audio_wrapper E fuel)
                (jobs (instance rate exp window) (audio_files input_root names) cut eff)
                fs0 with
        | Ret ds fs1 => save_dataset_duration E (report_path exp) (py_sum ds) fs1
        | Raise e fs1 => Raise e fs1
        | Spin => Spin
        end
  end.
Proof.
  intros Hrate Hm1 Hm2.
  unfold preprocess_training_set, PreProcess_init, makedirs, bind, call, ret, raise.
  replace (rate <=? 2 * HIGH_PASS_CUTOFF) with false by (symmetry; apply Z.leb_gt, Hrate).
  rewrite Hm1, Hm2.
  destruct (listdir E input_root) as [e|names]; [reflexivity|].
  destruct (nproc <? 1); [reflexivity|].
  unfold jobs, audio_files, report_path, instance.
  destruct (pool_map _ _ fs0) as [ds fs1|e fs1|]; reflexivity.
Qed.
End RunFacts.

Section RunExact.
#[local] Open Scope Q_scope.
Variables (E : env Q) (self : PreProcess Q).
Hypothesis rate_ok : (4 <= sr self)%Z.
Hypothesis per_ok : 3 # 10 < per self.

Lemma for_in_terminates (g : gen (list Q)) idx0 eff :
  exists fuel0, forall fuel, (fuel0 <= fuel)%nat -> forall s : frame Q,
    for_in g (fun seg => cut_loop E fuel self seg 0 idx0 eff) s <> Spin.
Proof.
  induction g as [|seg rest [f0 IH]|e].
  - exists O. intros fuel _ s. discriminate.
  - exists (Nat.max (S (Z.to_nat (Z.max (turns self seg) 0))) f0).
    intros fuel Hfuel s. cbn [for_in]. unfold bind.
    pose proof (cut_loop_terminates E self rate_ok per_ok seg idx0 eff fuel 0%Z s) as Hloop.
    destruct (cut_loop E fuel self seg 0 idx0 eff s) as [[] t|e t|].
    + apply IH. lia.
    + discriminate.
    + exfalso. apply Hloop; [lia | lia | reflexivity].
  - exists O. intros fuel _ s. discriminate.
Qed.

Lemma process_audio_terminates path idx0 cut eff :
  exists fuel0, forall fuel, (fuel0 <= fuel)%nat -> forall fs0,
    process_audio E fuel self path idx0 cut eff fs0 <> Spin.
Proof.
  destruct (load_audio E path (sr self)) as [e|audio] eqn:Hload.
  - exists O. intros fuel _ fs0.
    rewrite process_audio_eq, process_audio_try_eq, Hload. discriminate.
  - destruct (if eff then lfilter_high E (sr self) audio else inr audio)
      as [e|audio'] eqn:Hfilter.
    + exists O. intros fuel _ fs0.
      rewrite process_audio_eq, process_audio_try_eq, Hload. cbv zeta.
      rewrite Hfilter. discriminate.
    + destruct (for_in_terminates (slicer_slice E (sr self) audio') idx0 eff) as [f0 Hf].
      exists f0. intros fuel Hfuel fs0.
      rewrite process_audio_eq, process_audio_try_eq, Hload. cbv zeta.
      rewrite Hfilter. destruct cut.
      * specialize (Hf fuel Hfuel
          (set_idx1 0 (set_audio_length (get_duration audio (sr self)) (new_frame fs0)))).
        destruct (for_in _ _ _) as [[] t|e t|]; [discriminate|discriminate|congruence].
      * pose proof (process_audio_segment_no_spin E self audio' idx0 0 eff
          (set_idx1 0 (set_audio_length (get_duration audio (sr self)) (new_frame fs0))))
          as Hseg.
        destruct (process_audio_segment _ _ _ _ _ _ _) as [[] t|e t|];
          [discriminate|discriminate|congruence].
Qed.

Lemma pool_map_returns files cut eff :
  exists fuel0, forall fuel, (fuel0 <= fuel)%nat -> forall fs0,
    exists ds fs1,
      pool_map (process_audio_wrapper E fuel) (jobs self files cut eff) fs0 = Ret ds fs1.
Proof.
  induction files as [|[path idx0] files [f0 IH]].
  - exists O. intros fuel _ fs0. now exists [], fs0.
  - destruct (process_audio_terminates path idx0 cut eff) as [f1 Hfile].
    exists (Nat.max f1 f0). intros fuel Hfuel fs0.
    cbn [jobs map pool_map]. unfold bind. cbn [process_audio_wrapper].
    specialize (Hfile fuel ltac:(lia) fs0).
    pose proof (process_audio_no_raise E fuel self path idx0 cut eff fs0) as Hc.
    destruct (process_audio E fuel self path idx0 cut eff fs0) as [d fs'|e fs'|] eqn:Hp.
    + fold (jobs self files cut eff).
      destruct (IH fuel ltac:(lia) fs') as (ds & fs1 & ->). eauto.
    + destruct Hc.
    + congruence.
Qed.

Lemma duration_text_total (d : Q) : exists t, duration_text d = Some t.
Proof. unfold duration_text. cbn. eauto. Qed.

Lemma py_sum_zeros {A} (l : list A) : py_sum (map (fun _ => f_of_Z 0 : Q) l) = 0.
Proof.
  unfold py_sum. induction l as [|a l IH]; [reflexivity|]. exact IH.
Qed.
End RunExact.

Section RunCompletion.
#[local] Open Scope Q_scope.
Variable E : env Q.

(** C9 (as amended).  Let the rate be above 96 Hz (else the filter design
    raises), the two output directories creatable, [num_processes >= 1]
    and [per > OVERLAP].  If the input root cannot be listed, the run
    raises that error at once, before any file is touched.  Otherwise, if
    the report file is absent or holds a JSON object and can be written,
    the run completes (given enough loop fuel) whatever happens to the
    individual files, and leaves a report with total_seconds and
    total_dataset_duration; when no file can be decoded these are 0 and
    "00:00:00". *)
Theorem run_completes_with_report input_root rate nproc exp window cut eff
    (fs0 : gmap string (file Q)) :
  (96 < rate)%Z -> 3 # 10 < window -> (1 <= nproc)%Z ->
  makedirs_error E (path_join exp "sliced_audios") = None ->
  makedirs_error E (path_join exp "sliced_audios_16k") = None ->
  match listdir E input_root with
  | inl e =>
      forall fuel,
        preprocess_training_set E fuel input_root rate nproc exp window cut eff fs0
          = Raise e fs0
  | inr names =>
      write_error E (report_path exp) = None ->
      (fs0 !! report_path exp = None \/
       exists l, fs0 !! report_path exp = Some (JsonFile (JObj l))) ->
      exists fuel0, forall fuel, (fuel0 <= fuel)%nat ->
      exists fs1 (data : gmap string (json Q)) total text,
        preprocess_training_set E fuel input_root rate nproc exp window cut eff fs0
          = Ret tt fs1 /\
        fs1 !! report_path exp = Some (JsonFile (JObj (map_to_list data))) /\
        data !! "total_seconds" = Some (JNum total) /\
        duration_text total = Some text /\
        data !! "total_dataset_duration" = Some (JStr text) /\
        ((forall p, exists e, load_audio E p rate = inl e) ->
           total = 0 /\ text = "00:00:00")
  end.
Proof.
  intros Hrate Hper Hn Hm1 Hm2.
  pose proof (instance_constructed rate exp window Hrate) as Hc.
  set (pp := instance rate exp window) in *.
  destruct (listdir E input_root) as [e|names] eqn:Hls.
  - intros fuel.
    rewrite (preprocess_training_set_eq E fuel input_root rate nproc exp window cut eff
               fs0 Hrate Hm1 Hm2).
    now rewrite Hls.
  - intros Hw Hreport.
    destruct (pool_map_returns E pp ltac:(cbn; lia) Hper
                (audio_files input_root names) cut eff) as (fuel0 & Hpool).
    exists fuel0. intros fuel Hfuel.
    rewrite (preprocess_training_set_eq E fuel input_root rate nproc exp window cut eff
               fs0 Hrate Hm1 Hm2).
    rewrite Hls. fold pp.
    replace (nproc <? 1)%Z with false by (symmetry; apply Z.ltb_ge; lia).
    destruct (Hpool fuel Hfuel fs0) as (ds & fs1 & Hds). rewrite Hds.
    pose proof (pool_map_keeps_report E fuel pp _ cut eff fs0 ds fs1 Hc Hds) as Hkeep.
    change (exp_dir pp) with exp in Hkeep.
    destruct (duration_text_total (py_sum ds)) as (text & Htext).
    rewrite save_dataset_duration_eq. unfold loaded. rewrite Hkeep, Htext, Hw.
    assert (Hzero : (forall p, exists e, load_audio E p rate = inl e) ->
                    py_sum ds = 0 /\ text = "00:00:00").
    { intros Hfail. change rate with (sr pp) in Hfail.
      rewrite (pool_map_all_fail E fuel pp _ cut eff fs0 Hfail) in Hds.
      injection Hds as <- _. rewrite py_sum_zeros in *.
      split; [reflexivity|]. vm_compute in Htext. congruence. }
    destruct Hreport as [Hnone|(l & Hsome)].
    + rewrite Hnone.
      destruct (merged_lookup (∅ : gmap string (json Q)) text (py_sum ds)) as (Ht & Hs & _).
      eexists. exists (merged ∅ text (py_sum ds)), (py_sum ds), text.
      split; [reflexivity|]. split; [apply lookup_insert_eq|]. auto.
    + rewrite Hsome.
      destruct (merged_lookup (list_to_map (reverse l) : gmap string (json Q))
                  text (py_sum ds)) as (Ht & Hs & _).
      eexists. exists (merged (list_to_map (reverse l)) text (py_sum ds)), (py_sum ds), text.
      split; [reflexivity|]. split; [apply lookup_insert_eq|]. auto.
Qed.
End RunCompletion.

Module DemoFail.
(** A world in which no input file can be decoded. *)
Definition deaf : env Q := {|
  load_audio := fun _ _ => inl OSError;
  slicer_slice := fun _ a => Yield a Stop;
  lfilter_high := fun _ a => inr a;
  resample := fun a _ _ => inr a;
  astype_float32 := fun a => a;
  listdir := fun _ => inr ["take1.wav"; "take2.flac"];
  makedirs_error := fun _ => None;
  write_error := fun _ => None |}.

(** A report file that is not JSON. *)
Definition broken_report : gmap string (file float) :=
  <["logs/m/model_info.json" := OtherFile]> ∅.
End DemoFail.

Lemma run_completes_with_report_witness :
  exists fuel0, forall fuel, (fuel0 <= fuel)%nat ->
  exists fs1 (data : gmap string (json Q)),
    preprocess_training_set DemoFail.deaf fuel "in" 100 1 "logs/m" 1%Q true true ∅ = Ret tt fs1 /\
    fs1 !! report_path "logs/m" = Some (JsonFile (JObj (map_to_list data))) /\
    data !! "total_seconds" = Some (JNum 0%Q) /\
    data !! "total_dataset_duration" = Some (JStr "00:00:00").
Proof.
  pose proof (run_completes_with_report DemoFail.deaf "in" 100 1 "logs/m" 1%Q true true ∅
                ltac:(reflexivity) ltac:(reflexivity) ltac:(vm_compute; discriminate)
                ltac:(reflexivity) ltac:(reflexivity)) as Hrun.
  cbn [listdir DemoFail.deaf] in Hrun.
  destruct (Hrun eq_refl (or_introl eq_refl)) as (fuel0 & Hfuel).
  exists fuel0. intros fuel Hge.
  destruct (Hfuel fuel Hge) as (fs1 & data & total & text & Hret & Hfile & Hs & _ & Ht & Hz).
  destruct Hz as [-> ->]; [intros p; now exists OSError|].
  exists fs1, data. auto.
Defined.

(** C9, counterexample.  The input root is readable and its one audio file
    is processed, but the existing model_info.json is not JSON: json.load
    raises, only FileNotFoundError is handled, and the run ends with that
    exception and without a report. *)
Lemma malformed_report_is_fatal :
  let E := Demo.world (Demo.tone 400) (fun _ => false) in
  listdir E "in" = inr ["take1.wav"; "notes.txt"] /\
  match preprocess_training_set E 8 "in" 100 1 "logs/m" 1%float true true
          DemoFail.broken_report with
  | Raise e fs1 =>
      Some (e, fs1 !! "logs/m/model_info.json",
            bool_decide (is_Some (fs1 !! "logs/m/sliced_audios/0_4.wav")))
  | _ => None
  end = Some (JSONDecodeError, Some OtherFile, true).
Proof. cbv zeta. split; [reflexivity | vm_compute; reflexivity]. Qed.

(** ** The ten-second example *)

Section StepFacts.
Context {F : Type} `{PyFloat F} (E : env F).

(** The normaliser keeps the window. *)
Definition accepted (seg : list F) : bool :=
  match _normalize_audio seg with
  | inr (Some _) => true
  | _ => false
  end.

Definition has_wav (fs0 : gmap string (file F)) (p : string) (rate : Z) : Prop :=
  exists data, fs0 !! p = Some (WavFile rate data).

(** Both artifacts of window [k] of file [idx0] are there, at their rates. *)
Definition stored (self : PreProcess F) (idx0 : Z) (fs0 : gmap string (file F))
    (k : Z) : Prop :=
  has_wav fs0 (native_path self idx0 k) (sr self) /\
  has_wav fs0 (k16_path self idx0 k) SAMPLE_RATE_16K.

(** The file system after the two writes of an accepted window. *)
Definition after_write (self : PreProcess F) (idx0 i1 : Z) (na a16 : list F)
    (fs0 : gmap string (file F)) : gmap string (file F) :=
  <[k16_path self idx0 i1 := WavFile SAMPLE_RATE_16K (astype_float32 E a16)]>
    (<[native_path self idx0 i1 := WavFile (sr self) (astype_float32 E na)]> fs0).

Lemma has_wav_insert fs0 p rate q rate' data :
  has_wav fs0 p rate -> (q = p -> rate' = rate) ->
  has_wav (<[q := WavFile rate' data]> fs0) p rate.
Proof.
  intros [d Hd] Hq. destruct (decide (q = p)) as [->|Hne].
  - exists data. rewrite lookup_insert_eq, (Hq eq_refl). reflexivity.
  - exists d. now rewrite lookup_insert_ne.
Qed.

Lemma stored_new self idx0 k na a16 fs0 :
  constructed self -> stored self idx0 (after_write self idx0 k na a16 fs0) k.
Proof.
  intros Hc. unfold stored, after_write. split.
  - apply has_wav_insert.
    + eexists. apply lookup_insert_eq.
    + intros Heq. symmetry in Heq. now apply native_k16_distinct in Heq.
  - eexists. apply lookup_insert_eq.
Qed.

Lemma stored_kept self idx0 k k' na a16 fs0 :
  constructed self -> stored self idx0 fs0 k ->
  stored self idx0 (after_write self idx0 k' na a16 fs0) k.
Proof.
  intros Hc [Hn Hk]. unfold stored, after_write. split.
  - apply has_wav_insert; [apply has_wav_insert; [exact Hn | reflexivity]|].
    intros Heq. symmetry in Heq. now apply native_k16_distinct in Heq.
  - apply has_wav_insert; [|reflexivity]. apply has_wav_insert; [exact Hk|].
    intros Heq. now apply native_k16_distinct in Heq.
Qed.

Lemma process_audio_segment_accepted self seg idx0 i1 (s : frame F) :
  fault_free E -> accepted seg = true ->
  exists na a16,
    process_audio_segment E self seg idx0 i1 true s
      = Ret tt (set_fs (after_write self idx0 i1 na a16) (log_call (idx0, i1, seg) s)).
Proof.
  intros [Hw Hr] Hacc. unfold accepted in Hacc.
  rewrite process_audio_segment_eq. cbv zeta.
  destruct (_normalize_audio seg) as [e|[na|]]; try discriminate.
  destruct (Hr na (sr self) SAMPLE_RATE_16K) as (a16 & Hres).
  exists na, a16. now rewrite Hw, Hres, Hw.
Qed.

Lemma cut_loop_full fuel self seg i idx0 eff (s s1 : frame F) start n :
  f_int (start_expr self i) = Some start ->
  long_tail self seg start = true ->
  f_int (per self * f_of_Z (sr self))%pyf = Some n ->
  process_audio_segment E self (py_slice seg start (start + n)) idx0 (idx1 s) eff s
    = Ret tt s1 ->
  cut_loop E (S fuel) self seg i idx0 eff s
    = cut_loop E fuel self seg (i + 1) idx0 eff (set_idx1 (idx1 s + 1) s1).
Proof. intros Hs Hl Hn Hp. now rewrite cut_loop_eq, Hs, Hl, Hn, Hp. Qed.

Lemma cut_loop_tail fuel self seg i idx0 eff (s s1 : frame F) start :
  f_int (start_expr self i) = Some start ->
  long_tail self seg start = false ->
  process_audio_segment E self (slice_from seg start) idx0 (idx1 s) eff s = Ret tt s1 ->
  cut_loop E (S fuel) self seg i idx0 eff s = Ret tt (set_idx1 (idx1 s + 1) s1).
Proof. intros Hs Hl Hp. now rewrite cut_loop_eq, Hs, Hl, Hp. Qed.

Lemma long_tail_len self (seg : list F) start n :
  len (slice_from seg start) = n ->
  long_tail self seg start = (f_of_Z n >? (per self + OVERLAP) * f_of_Z (sr self))%pyf.
Proof. intros <-. reflexivity. Qed.

Lemma process_audio_frame_eq fuel self path idx0 cut eff fs0 :
  process_audio_frame E fuel self path idx0 cut eff (new_frame fs0) =
  match process_audio_try E fuel self path idx0 cut eff (new_frame fs0) with
  | Ret _ s | Raise _ s => Ret (audio_length s) s
  | Spin => Spin
  end.
Proof.
  unfold process_audio_frame, bind, modify, try_except_all, get, ret.
  change (set_audio_length (f_of_Z 0) (new_frame fs0)) with (new_frame fs0).
  destruct (process_audio_try E fuel self path idx0 cut eff (new_frame fs0))
    as [[] s|e s|]; reflexivity.
Qed.
End StepFacts.

Section TenSeconds.
Variables (E : env float) (path : string) (idx0 : Z) (exp : string).
Variables (fs0 : gmap string (file float)) (x y : list float).

(** sr = 40000, per = 3.0 *)
Definition ten_pp : PreProcess float := instance 40000 exp 3%float.

Definition ten_windows : list (list float) :=
  [py_slice y 0 120000; py_slice y 108000 228000; py_slice y 216000 336000;
   slice_from y 324000].

Hypothesis no_faults : fault_free E.
Hypothesis decoded : load_audio E path 40000 = inr x.
Hypothesis ten_seconds : len x = 400000.
Hypothesis filtered : lfilter_high E 40000 x = inr y.
Hypothesis same_length : len y = 400000.
Hypothesis one_segment : slicer_slice E 40000 y = Yield y Stop.
Hypothesis all_accepted : forallb accepted ten_windows = true.

Lemma ten_long_tail start :
  0 <= start -> start <= 400000 ->
  long_tail ten_pp y start = (132000 <? f_of_Z (400000 - start))%float.
Proof.
  intros H0 H1. rewrite (long_tail_len ten_pp y start (400000 - start)).
  - reflexivity.
  - rewrite len_slice_from, same_length by exact H0. lia.
Qed.

Lemma ten_starts :
  f_int (start_expr ten_pp 0) = Some 0 /\
  f_int (start_expr ten_pp 1) = Some 108000 /\
  f_int (start_expr ten_pp 2) = Some 216000 /\
  f_int (start_expr ten_pp 3) = Some 324000 /\
  f_int (per ten_pp * f_of_Z (sr ten_pp))%pyf = Some 120000.
Proof. repeat split; vm_compute; reflexivity. Qed.

(** The file of the example, up to the end of [process_audio]: the duration
    is 10.0, the writer is called with three full windows and the tail,
    both artifacts exist for each of the four indices, and 10.0 seconds are
    formatted as 00:00:10. *)
Lemma ten_second_windows fuel :
  exists s',
    process_audio_frame E (4 + fuel) ten_pp path idx0 true true (new_frame fs0)
      = Ret 10%float s' /\
    calls s' = [(idx0, 0, py_slice y 0 120000); (idx0, 1, py_slice y 108000 228000);
                (idx0, 2, py_slice y 216000 336000); (idx0, 3, slice_from y 324000)] /\
    map len ten_windows = [120000; 120000; 120000; 76000] /\
    Forall (stored ten_pp idx0 (fs s')) [0; 1; 2; 3] /\
    duration_text 10%float = Some "00:00:10".
Proof.
  pose proof (instance_constructed (F := float) 40000 exp 3%float eq_refl) as Hc.
  fold ten_pp in Hc.
  unfold ten_windows in all_accepted. cbn [forallb] in all_accepted.
  apply andb_prop in all_accepted as [Ha0 Hrest].
  apply andb_prop in Hrest as [Ha1 Hrest].
  apply andb_prop in Hrest as [Ha2 Hrest].
  apply andb_prop in Hrest as [Ha3 _].
  destruct ten_starts as (Hs0 & Hs1 & Hs2 & Hs3 & Hw).
  set (s0 := set_idx1 0 (set_audio_length (get_duration x 40000) (new_frame fs0))).
  destruct (process_audio_segment_accepted E ten_pp _ idx0 0 s0 no_faults Ha0)
    as (n0 & b0 & Hp0).
  set (s1 := set_idx1 1 (set_fs (after_write E ten_pp idx0 0 n0 b0)
               (log_call (idx0, 0, py_slice y 0 120000) s0))) in *.
  destruct (process_audio_segment_accepted E ten_pp _ idx0 1 s1 no_faults Ha1)
    as (n1 & b1 & Hp1).
  set (s2 := set_idx1 2 (set_fs (after_write E ten_pp idx0 1 n1 b1)
               (log_call (idx0, 1, py_slice y 108000 228000) s1))) in *.
  destruct (process_audio_segment_accepted E ten_pp _ idx0 2 s2 no_faults Ha2)
    as (n2 & b2 & Hp2).
  set (s3 := set_idx1 3 (set_fs (after_write E ten_pp idx0 2 n2 b2)
               (log_call (idx0, 2, py_slice y 216000 336000) s2))) in *.
  destruct (process_audio_segment_accepted E ten_pp _ idx0 3 s3 no_faults Ha3)
    as (n3 & b3 & Hp3).
  set (s4 := set_idx1 4 (set_fs (after_write E ten_pp idx0 3 n3 b3)
               (log_call (idx0, 3, slice_from y 324000) s3))) in *.
  assert (Hrun : process_audio_try E (4 + fuel) ten_pp path idx0 true true (new_frame fs0)
                 = Ret tt s4).
  { rewrite process_audio_try_eq.
    change (sr ten_pp) with 40000. rewrite decoded. cbv zeta. rewrite filtered, one_segment.
    fold s0. cbn [for_in]. unfold bind.
    change (4 + fuel)%nat with (S (S (S (S fuel)))).
    rewrite (cut_loop_full E _ ten_pp y 0 idx0 true s0 _ 0 120000 Hs0
               ltac:(rewrite ten_long_tail by lia; reflexivity) Hw Hp0).
    change (set_idx1 (idx1 s0 + 1) _) with s1. change (0 + 1) with 1.
    rewrite (cut_loop_full E _ ten_pp y 1 idx0 true s1 _ 108000 120000 Hs1
               ltac:(rewrite ten_long_tail by lia; reflexivity) Hw Hp1).
    change (set_idx1 (idx1 s1 + 1) _) with s2. change (1 + 1) with 2.
    rewrite (cut_loop_full E _ ten_pp y 2 idx0 true s2 _ 216000 120000 Hs2
               ltac:(rewrite ten_long_tail by lia; reflexivity) Hw Hp2).
    change (set_idx1 (idx1 s2 + 1) _) with s3. change (2 + 1) with 3.
    rewrite (cut_loop_tail E _ ten_pp y 3 idx0 true s3 _ 324000 Hs3
               ltac:(rewrite ten_long_tail by lia; reflexivity) Hp3).
    reflexivity. }
  exists s4. split; [|split; [|split; [|split]]].
  - rewrite process_audio_frame_eq, Hrun.
    change (audio_length s4) with (get_duration x 40000).
    unfold get_duration. rewrite ten_seconds. reflexivity.
  - reflexivity.
  - unfold ten_windows. cbn [map].
    rewrite !len_py_slice, len_slice_from, same_length by (rewrite ?same_length; lia).
    reflexivity.
  - change (fs s4) with
      (after_write E ten_pp idx0 3 n3 b3 (after_write E ten_pp idx0 2 n2 b2
         (after_write E ten_pp idx0 1 n1 b1 (after_write E ten_pp idx0 0 n0 b0 fs0)))).
    repeat constructor;
      repeat first [ apply stored_new; exact Hc | apply stored_kept; [exact Hc|] ].
  - vm_compute. reflexivity.
Qed.
End TenSeconds.

Lemma demo_world_fault_free audio : fault_free (Demo.world audio (fun _ => false)).
Proof. split; [reflexivity | intros a r t; now exists a]. Qed.

Section TenSecondRun.
Variables (E : env float) (input_root : string) (names : list string).
Variables (path : string) (idx0 : Z) (exp : string) (nproc : Z).
Variables (fs0 : gmap string (file float)) (x y : list float).

Hypothesis no_faults : fault_free E.
Hypothesis listed : listdir E input_root = inr names.
Hypothesis one_file : audio_files input_root names = [(path, idx0)].
Hypothesis dir_native : makedirs_error E (path_join exp "sliced_audios") = None.
Hypothesis dir_16k : makedirs_error E (path_join exp "sliced_audios_16k") = None.
Hypothesis workers : 1 <= nproc.
Hypothesis decoded : load_audio E path 40000 = inr x.
Hypothesis ten_seconds : len x = 400000.
Hypothesis filtered : lfilter_high E 40000 x = inr y.
Hypothesis same_length : len y = 400000.
Hypothesis one_segment : slicer_slice E 40000 y = Yield y Stop.
Hypothesis all_accepted : forallb accepted (ten_windows y) = true.
Hypothesis report_ok :
  fs0 !! report_path exp = None \/
  exists l, fs0 !! report_path exp = Some (JsonFile (JObj l)).

Lemma stored_report self i0 (fs1 : gmap string (file float)) k j :
  constructed self -> stored self i0 fs1 k ->
  stored self i0 (<[report_path (exp_dir self) := JsonFile j]> fs1) k.
Proof.
  intros Hc [[d Hd] [d' Hd']].
  destruct (report_not_artifact self i0 k Hc) as [Hn Hk].
  split; eexists; rewrite lookup_insert_ne by assumption; eassumption.
Qed.

(** C7 (as amended).  The run of the example: an input root whose listing
    holds one audio file, 10 seconds long at 40000 Hz, with per = 3.0, cut
    and effects on, the segmenter yielding the filtered waveform [y] whole,
    every window accepted by the normaliser, no write or resampling failure
    and a report file that is absent or holds a JSON object.  The writer is
    called four times: with the full windows [y[0:120000]],
    [y[108000:228000]], [y[216000:336000]] at idx1 = 0, 1, 2 and with the
    shorter tail [y[324000:]] (76000 samples, 1.9 s) at idx1 = 3.
    [preprocess_training_set] returns; afterwards both artifacts exist for
    each of these four indices, at 40000 Hz and at 16000 Hz, every other
    path but the report is as it was, and model_info.json holds
    total_seconds = 10.0 and total_dataset_duration = "00:00:10". *)
Theorem ten_second_run fuel :
  exists s' fs1 (data : gmap string (json float)),
    process_audio_frame E (4 + fuel) (ten_pp exp) path idx0 true true (new_frame fs0)
      = Ret 10%float s' /\
    calls s' = [(idx0, 0, py_slice y 0 120000); (idx0, 1, py_slice y 108000 228000);
                (idx0, 2, py_slice y 216000 336000); (idx0, 3, slice_from y 324000)] /\
    map len (ten_windows y) = [120000; 120000; 120000; 76000] /\
    preprocess_training_set E (4 + fuel) input_root 40000 nproc exp 3%float true true fs0
      = Ret tt fs1 /\
    Forall (stored (ten_pp exp) idx0 fs1) [0; 1; 2; 3] /\
    (forall p, p <> report_path exp ->
       fs1 !! p = fs0 !! p \/
       exists k, In k [0; 1; 2; 3] /\
         (p = native_path (ten_pp exp) idx0 k \/ p = k16_path (ten_pp exp) idx0 k)) /\
    fs1 !! report_path exp = Some (JsonFile (JObj (map_to_list data))) /\
    data !! "total_seconds" = Some (JNum 10%float) /\
    data !! "total_dataset_duration" = Some (JStr "00:00:10").
Proof.
  pose proof (instance_constructed (F := float) 40000 exp 3%float eq_refl) as Hc.
  fold (ten_pp exp) in Hc.
  destruct (ten_second_windows E path idx0 exp fs0 x y no_faults decoded ten_seconds
              filtered same_length one_segment all_accepted fuel)
    as (s' & Hframe & Hcalls & Hlens & Hstored & Htext).
  assert (Hfinal : final (process_audio_try E (4 + fuel) (ten_pp exp) path idx0 true true
                            (new_frame fs0)) = Some s').
  { rewrite process_audio_frame_eq in Hframe.
    destruct (process_audio_try E (4 + fuel) (ten_pp exp) path idx0 true true (new_frame fs0))
      as [[] t|e t|]; [| |discriminate]; now injection Hframe as _ ->. }
  destruct (process_audio_try_keys_ok E (ten_pp exp) idx0 fs0 (4 + fuel) path true true s'
              Hfinal) as [_ Honly].
  assert (Hfile : process_audio E (4 + fuel) (ten_pp exp) path idx0 true true fs0
                  = Ret 10%float (fs s')).
  { unfold process_audio, zoom. now rewrite Hframe. }
  assert (Hreport : fs s' !! report_path exp = fs0 !! report_path exp).
  { apply (process_audio_keeps_report E (4 + fuel) (ten_pp exp) path idx0 true true fs0
             10%float (fs s') Hc Hfile). }
  destruct no_faults as [Hw _].
  set (old := match fs0 !! report_path exp with
              | Some (JsonFile (JObj l)) => list_to_map (reverse l)
              | _ => ∅
              end : gmap string (json float)).
  set (data := merged old "00:00:10" 10%float).
  assert (Hrun : preprocess_training_set E (4 + fuel) input_root 40000 nproc exp 3%float
                   true true fs0
                 = Ret tt (<[report_path exp := JsonFile (JObj (map_to_list data))]> (fs s'))).
  { rewrite (preprocess_training_set_eq E (4 + fuel) input_root 40000 nproc exp 3%float
               true true fs0 eq_refl dir_native dir_16k).
    rewrite listed, one_file.
    replace (nproc <? 1) with false by (symmetry; apply Z.ltb_ge; lia).
    cbn [jobs map pool_map]. unfold bind. cbn [process_audio_wrapper].
    fold (ten_pp exp). rewrite Hfile. unfold ret.
    change (py_sum [10%float]) with 10%float.
    rewrite save_dataset_duration_eq. unfold loaded. rewrite Hreport, Htext, Hw.
    unfold data, old.
    destruct report_ok as [->|(l & ->)]; reflexivity. }
  exists s', (<[report_path exp := JsonFile (JObj (map_to_list data))]> (fs s')), data.
  split; [exact Hframe|]. split; [exact Hcalls|]. split; [exact Hlens|].
  split; [exact Hrun|]. split; [|split; [|split]].
  - eapply Forall_impl; [exact Hstored|]. intros k Hk.
    now apply (stored_report (ten_pp exp) idx0 (fs s') k _ Hc).
  - intros p Hp. rewrite lookup_insert_ne by congruence.
    destruct (Honly p) as [Heq|(k & w & Hin & Hpath)]; [now left|].
    right. exists k. split; [|exact Hpath].
    rewrite Hcalls in Hin. cbn [In] in Hin |- *.
    destruct Hin as [[= <- _]|[[= <- _]|[[= <- _]|[[= <- _]|[]]]]]; tauto.
  - apply lookup_insert_eq.
  - destruct (merged_lookup old "00:00:10" 10%float) as (Ht & Hs & _). auto.
Qed.
End TenSecondRun.

Lemma ten_second_run_witness :
  exists s' fs1 (data : gmap string (json float)),
    process_audio_frame (Demo.world (Demo.tone 400000) (fun _ => false)) 4
      (ten_pp "logs/m") "in/take1.wav" 0 true true (new_frame ∅) = Ret 10%float s' /\
    map (fun c => snd (fst c)) (calls s') = [0; 1; 2; 3] /\
    preprocess_training_set (Demo.world (Demo.tone 400000) (fun _ => false)) 4
      "in" 40000 1 "logs/m" 3%float true true ∅ = Ret tt fs1 /\
    Forall (stored (ten_pp "logs/m") 0 fs1) [0; 1; 2; 3] /\
    fs1 !! report_path "logs/m" = Some (JsonFile (JObj (map_to_list data))) /\
    data !! "total_seconds" = Some (JNum 10%float) /\
    data !! "total_dataset_duration" = Some (JStr "00:00:10").
Proof.
  destruct (ten_second_run (Demo.world (Demo.tone 400000) (fun _ => false))
              "in" ["take1.wav"; "notes.txt"] "in/take1.wav" 0 "logs/m" 1 ∅
              (Demo.tone 400000) (Demo.tone 400000)
              (demo_world_fault_free _) eq_refl eq_refl eq_refl eq_refl
              ltac:(lia) eq_refl ltac:(vm_compute; reflexivity)
              eq_refl ltac:(vm_compute; reflexivity) eq_refl
              ltac:(vm_compute; reflexivity) (or_introl eq_refl) 0%nat)
    as (s' & fs1 & data & Hframe & Hcalls & _ & Hrun & Hstored & _ & Hfile & Hs & Ht).
  exists s', fs1, data. split; [exact Hframe|]. split; [now rewrite Hcalls|].
  split; [exact Hrun|]. split; [exact Hstored|]. split; [exact Hfile|].
  split; [exact Hs | exact Ht].
Defined.

(** C7, counterexample.  The run of the example on a steady 10-second
    signal: the writer is called for idx1 = 0, 1, 2 with full windows of
    120000 samples and for idx1 = 3 with a tail of 76000 samples; there is
    no fourth full window and no artifact with idx1 = 4.  The report says
    10.0 seconds, "00:00:10". *)
Lemma ten_second_run_has_three_full_windows :
  let E := Demo.world (Demo.tone 400000) (fun _ => false) in
  option_map (fun s => map (fun c => (snd (fst c), len (snd c))) (calls s))
    (final (process_audio_try E 8 (Demo.pp 40000 3) "in/take1.wav" 0 true true (new_frame ∅)))
  = Some [(0, 120000); (1, 120000); (2, 120000); (3, 76000)] /\
  match preprocess_training_set E 8 "in" 40000 1 "logs/m" 3%float true true ∅ with
  | Ret _ fs1 =>
      Some (bool_decide (is_Some (fs1 !! "logs/m/sliced_audios/0_3.wav")),
            bool_decide (is_Some (fs1 !! "logs/m/sliced_audios_16k/0_3.wav")),
            bool_decide (is_Some (fs1 !! "logs/m/sliced_audios/0_4.wav")),
            bool_decide (is_Some (fs1 !! "logs/m/sliced_audios_16k/0_4.wav")),
            fs1 !! "logs/m/model_info.json")
  | _ => None
  end = Some (true, true, false, false,
              Some (JsonFile (JObj [("total_seconds", JNum 10%float);
                                    ("total_dataset_duration", JStr "00:00:10")]))).
Proof. cbv zeta. split; vm_compute; reflexivity. Qed.

(** * Further properties *)

(** ** Artifact names *)

Section NameFacts.
#[local] Open Scope string_scope.

(** [c] occurs in [s]. *)
Fixpoint has_char (c : ascii) (s : string) : bool :=
  match s with
  | EmptyString => false
  | String a s' => Ascii.eqb a c || has_char c s'
  end.

Lemma split_at_char (c : ascii) (s1 s2 t1 t2 : string) :
  has_char c s1 = false -> has_char c s2 = false ->
  s1 ++ String c t1 = s2 ++ String c t2 -> s1 = s2 /\ t1 = t2.
Proof.
  revert s2. induction s1 as [|a s1 IH]; intros [|b s2] H1 H2 Heq; cbn in *.
  - injection Heq as ->. auto.
  - injection Heq as <- _. now rewrite Ascii.eqb_refl in H2.
  - injection Heq as -> _. now rewrite Ascii.eqb_refl in H1.
  - injection Heq as -> Heq.
    apply orb_false_iff in H1 as [_ H1]. apply orb_false_iff in H2 as [_ H2].
    destruct (IH s2 H1 H2 Heq) as [-> ->]. auto.
Qed.

Lemma digits_have_no (c : ascii) (d : Decimal.uint) :
  (c = "_" \/ c = ".")%char -> has_char c (NilEmpty.string_of_uint d) = false.
Proof. intros [-> | ->]; induction d; cbn; auto. Qed.

Lemma str_of_Z_has_no (c : ascii) (n : Z) :
  (c = "_" \/ c = ".")%char -> has_char c (str_of_Z n) = false.
Proof.
  intros Hc. unfold str_of_Z, NilZero.string_of_int, NilZero.string_of_uint.
  destruct (Z.to_int n) as [d|d].
  - destruct d; try apply (digits_have_no c _ Hc). now destruct Hc as [-> | ->].
  - assert (Hm : forall t, has_char c t = false -> has_char c (String "-" t) = false)
      by (intros t Ht; cbn; rewrite Ht; now destruct Hc as [-> | ->]).
    apply Hm. destruct d; try apply (digits_have_no c _ Hc). now destruct Hc as [-> | ->].
Qed.

Lemma str_of_Z_inj (a b : Z) : str_of_Z a = str_of_Z b -> a = b.
Proof.
  intros Heq. apply DecimalZ.to_int_inj.
  assert (Hn : forall z, Z.to_int z <> Decimal.Pos Decimal.Nil /\
                         Z.to_int z <> Decimal.Neg Decimal.Nil).
  { intros [|p|p]; cbn; split; try discriminate; intros [= Hp];
      now apply DecimalPos.Unsigned.to_uint_nonnil in Hp. }
  destruct (Hn a) as [Ha1 Ha2]. destruct (Hn b) as [Hb1 Hb2].
  pose proof (NilZero.isi _ Ha1 Ha2) as Ia. pose proof (NilZero.isi _ Hb1 Hb2) as Ib.
  unfold str_of_Z in Heq. rewrite Heq in Ia. congruence.
Qed.

Lemma wav_name_inj (a b a' b' : Z) : wav_name a b = wav_name a' b' -> a = a' /\ b = b'.
Proof.
  unfold wav_name. intros Heq.
  apply (split_at_char "_") in Heq as [Ha Hb]; try (apply str_of_Z_has_no; now left).
  apply (split_at_char ".") in Hb as [Hb _]; try (apply str_of_Z_has_no; now right).
  split; now apply str_of_Z_inj.
Qed.
End NameFacts.

Section NameInjective.
Context {F : Type} `{PyFloat F}.

Lemma native_path_inj (self : PreProcess F) a b a' b' :
  constructed self -> native_path self a b = native_path self a' b' -> a = a' /\ b = b'.
Proof.
  intros Hc Heq. rewrite !native_path_eq in Heq by assumption.
  apply string_app_inv_head, (string_app_inv_head "sliced_audios/") in Heq.
  now apply wav_name_inj in Heq.
Qed.

Lemma k16_path_inj (self : PreProcess F) a b a' b' :
  constructed self -> k16_path self a b = k16_path self a' b' -> a = a' /\ b = b'.
Proof.
  intros Hc Heq. rewrite !k16_path_eq in Heq by assumption.
  apply string_app_inv_head, (string_app_inv_head "sliced_audios_16k/") in Heq.
  now apply wav_name_inj in Heq.
Qed.

(** X2.  Once the instance is constructed, the artifact names are a faithful
    code of the window keys: two native-rate paths, or two 16 kHz paths, are
    equal only for the same [(idx0, idx1)], and a native-rate path is never a
    16 kHz path, nor is the report either of them.  So windows of different
    files, and different windows of one file, never share a file. *)
Theorem artifact_paths_are_injective (self : PreProcess F) :
  constructed self ->
  (forall a b a' b',
      native_path self a b = native_path self a' b' -> a = a' /\ b = b') /\
  (forall a b a' b',
      k16_path self a b = k16_path self a' b' -> a = a' /\ b = b') /\
  (forall a b a' b',
      native_path self a b = k16_path self a' b' -> False) /\
  (forall a b,
      report_path (exp_dir self) = native_path self a b \/
      report_path (exp_dir self) = k16_path self a b -> False).
Proof.
  intros Hc. split; [|split; [|split]].
  - intros a b a' b'. now apply native_path_inj.
  - intros a b a' b'. now apply k16_path_inj.
  - intros a b a' b' Heq. now apply (native_k16_distinct self a b a' b' Hc).
  - intros a b [Heq|Heq]; destruct (report_not_artifact self a b Hc); auto.
Qed.
End NameInjective.

Lemma artifact_paths_are_injective_witness :
  (forall a b a' b',
      native_path (Demo.pp 40000 3) a b = native_path (Demo.pp 40000 3) a' b' ->
      a = a' /\ b = b') /\
  (forall a b a' b',
      k16_path (Demo.pp 40000 3) a b = k16_path (Demo.pp 40000 3) a' b' ->
      a = a' /\ b = b') /\
  (forall a b a' b',
      native_path (Demo.pp 40000 3) a b = k16_path (Demo.pp 40000 3) a' b' -> False) /\
  (forall a b,
      report_path "logs/m" = native_path (Demo.pp 40000 3) a b \/
      report_path "logs/m" = k16_path (Demo.pp 40000 3) a b -> False).
Proof.
  apply (artifact_paths_are_injective (Demo.pp 40000 3)).
  apply Demo.pp_constructed. reflexivity.
Defined.

(** ** The cutter: when it returns, when it does not, and how long its
    windows are *)

Section CutterOutcome.
#[local] Open Scope Q_scope.
Variables (E : env Q) (self : PreProcess Q).

(** X3.  In exact arithmetic [process_audio] always returns when the rate
    is at least 4 Hz and [per] is above OVERLAP: whatever the decoder, the
    filter, the segmenter, the resampler and the writes do, every
    [while True] loop ends, no exception leaves the method, and the value
    returned is 0 or the decoded duration. *)
Theorem process_audio_always_returns path idx0 cut eff :
  (4 <= sr self)%Z -> 3 # 10 < per self ->
  exists fuel0, forall fuel, (fuel0 <= fuel)%nat -> forall fs0,
    exists d fs1,
      process_audio E fuel self path idx0 cut eff fs0 = Ret d fs1 /\
      match load_audio E path (sr self) with
      | inl _ => d = f_of_Z 0 /\ fs1 = fs0
      | inr audio => d = get_duration audio (sr self)
      end.
Proof.
  intros Hrate Hper.
  destruct (process_audio_terminates E self Hrate Hper path idx0 cut eff) as [f0 Hf].
  exists f0. intros fuel Hfuel fs0. specialize (Hf fuel Hfuel fs0).
  pose proof (process_audio_no_raise E fuel self path idx0 cut eff fs0) as Hn.
  destruct (load_audio E path (sr self)) as [e|audio] eqn:Hload.
  - rewrite (process_audio_undecodable E fuel self path idx0 cut eff fs0 e Hload).
    eauto.
  - rewrite process_audio_eq in *.
    pose proof (process_audio_try_length E fuel self path idx0 cut eff fs0 audio) as Hlen.
    destruct (process_audio_try E fuel self path idx0 cut eff (new_frame fs0))
      as [[] s|e s|]; [| |congruence];
      (eexists; eexists; split; [reflexivity|]; apply Hlen; [exact Hload | reflexivity]).
Qed.

Lemma trunc_zero (x : Q) : x == 0 -> QF.trunc x = 0%Z.
Proof. intros Hx. now apply trunc_of_int. Qed.

Hypothesis no_faults : fault_free E.
Hypothesis rate_ok : (4 <= sr self)%Z.
Hypothesis per_is_overlap : per self == 3 # 10.

Lemma stuck_start i : start_of self i = 0%Z.
Proof.
  unfold start_of. apply trunc_zero. rewrite start_expr_eq, per_is_overlap. ring.
Qed.

Lemma stuck_window : (1 <= window_len self)%Z /\ inject_Z (window_len self) < tail_limit self.
Proof.
  pose proof (rate_Q self rate_ok) as Hr.
  assert (Hw : per self * inject_Z (sr self) == (3 # 10) * inject_Z (sr self))
    by now rewrite per_is_overlap.
  destruct (trunc_bounds (per self * inject_Z (sr self))) as [Hl Hu]; [lra|].
  change (QF.trunc (per self * inject_Z (sr self))) with (window_len self) in Hl, Hu.
  pose proof (tail_limit_eq self) as Hlim.
  split.
  - assert (H0 : inject_Z 0 < inject_Z (window_len self))
      by (change (inject_Z 0) with 0; lra).
    rewrite <- Zlt_Qlt in H0. lia.
  - lra.
Qed.

Lemma cut_loop_stuck seg idx0 eff fuel i (s : frame Q) :
  tail_limit self < inject_Z (len seg) ->
  cut_loop E fuel self seg i idx0 eff s = Spin.
Proof.
  intros Hlong. revert i s. induction fuel as [|fuel IH]; intros i s; [reflexivity|].
  rewrite cut_loop_eq, f_int_start, stuck_start.
  assert (Htail : long_tail self seg 0 = true)
    by (apply long_tail_true; now rewrite slice_from_0).
  rewrite Htail, f_int_window.
  destruct stuck_window as [Hw1 Hw2].
  destruct (process_audio_segment_returns E self
              (py_slice seg 0 (0 + window_len self)) idx0 (idx1 s) eff s no_faults)
    as (s1 & -> & _).
  { apply len_pos_nonempty. rewrite len_py_slice; try lia.
    assert (Hlt : inject_Z (window_len self) < inject_Z (len seg)) by lra.
    rewrite <- Zlt_Qlt in Hlt. lia. }
  apply IH.
Qed.

(** X4.  With [per] equal to OVERLAP the loop counter never moves the
    start: in exact arithmetic, when no write or resampling fails, a
    segment longer than [per + OVERLAP] seconds keeps the [while True] loop
    of [process_audio] running for ever (whatever the fuel, the run does not
    end), re-cutting the first window under ever larger indices. *)
Theorem process_audio_hangs_when_per_is_overlap path idx0 (eff : bool) audio y seg rest :
  load_audio E path (sr self) = inr audio ->
  (if eff then lfilter_high E (sr self) audio else inr audio) = inr y ->
  slicer_slice E (sr self) y = Yield seg rest ->
  per self + OVERLAP < get_duration seg (sr self) ->
  forall fuel fs0,
    process_audio E fuel self path idx0 true eff fs0 = Spin /\
    forall i (s : frame Q), cut_loop E fuel self seg i idx0 eff s = Spin.
Proof.
  intros Hload Hfilter Hslice Hdur fuel fs0.
  assert (Hlong : tail_limit self < inject_Z (len seg))
    by (apply duration_above; [lia | exact Hdur]).
  split; [|intros i s; now apply cut_loop_stuck].
  rewrite process_audio_eq, process_audio_try_eq, Hload. cbv zeta.
  rewrite Hfilter, Hslice. cbn [for_in]. unfold bind.
  now rewrite cut_loop_stuck.
Qed.
End CutterOutcome.

Lemma process_audio_always_returns_witness :
  exists fuel0, forall fuel, (fuel0 <= fuel)%nat -> forall fs0,
    exists d fs1,
      process_audio (DemoQ.world (DemoQ.tone 400)) fuel (DemoQ.pp 100 1) "in/take1.wav"
        0 true true fs0 = Ret d fs1 /\
      d = get_duration (DemoQ.tone 400) 100.
Proof.
  apply (process_audio_always_returns (DemoQ.world (DemoQ.tone 400)) (DemoQ.pp 100 1)
           "in/take1.wav" 0 true true); [cbn; lia | reflexivity].
Defined.

Lemma process_audio_hangs_when_per_is_overlap_witness :
  process_audio (DemoQ.world (DemoQ.tone 100)) 1000 (DemoQ.pp 100 (3 # 10)) "in/take1.wav"
    0 true true ∅ = Spin.
Proof.
  apply (process_audio_hangs_when_per_is_overlap (DemoQ.world (DemoQ.tone 100))
           (DemoQ.pp 100 (3 # 10)) (DemoQ.world_fault_free _) ltac:(cbn; lia)
           ltac:(reflexivity) "in/take1.wav" 0 true (DemoQ.tone 100) (DemoQ.tone 100)
           (DemoQ.tone 100) Stop eq_refl eq_refl eq_refl ltac:(vm_compute; reflexivity)).
Defined.

Section WindowLengths.
#[local] Open Scope Q_scope.
Variables (E : env Q) (self : PreProcess Q).
Hypothesis rate_ok : (4 <= sr self)%Z.
Hypothesis per_ok : 3 # 10 < per self.

(** The full windows and the tail of [windows_from], apart. *)
Lemma windows_from_split seg idx0 (m : nat) i base :
  (0 <= i)%Z ->
  (forall k, (k < m)%nat -> long_tail self seg (start_of self (i + Z.of_nat k)) = true) ->
  exists ws,
    windows_from self seg idx0 m i base
      = (ws ++ [(idx0, (base + Z.of_nat m)%Z,
                 slice_from seg (start_of self (i + Z.of_nat m)))])%list /\
    length ws = m /\
    Forall (fun c : Z * Z * list Q => len (snd c) = window_len self) ws.
Proof.
  revert i base. induction m as [|m IH]; intros i base Hi Hfull.
  - exists []. cbn [windows_from app]. rewrite !Z.add_0_r. auto.
  - destruct (IH (i + 1)%Z (base + 1)%Z) as (ws & Heq & Hlen & Hall); [lia| |].
    { intros k Hk. replace (i + 1 + Z.of_nat k)%Z with (i + Z.of_nat (S k))%Z by lia.
      apply Hfull. lia. }
    exists ((idx0, base,
             py_slice seg (start_of self i) (start_of self i + window_len self)) :: ws).
    cbn [windows_from]. rewrite Heq.
    replace (i + 1 + Z.of_nat m)%Z with (i + Z.of_nat (S m))%Z by lia.
    replace (base + 1 + Z.of_nat m)%Z with (base + Z.of_nat (S m))%Z by lia.
    split; [reflexivity|]. split; [cbn; now rewrite Hlen|].
    constructor; [|exact Hall]. cbn [snd].
    specialize (Hfull O ltac:(lia)). rewrite Z.add_0_r in Hfull.
    destruct (full_window_facts self rate_ok per_ok seg i Hi Hfull) as (Hfit & _).
    pose proof (window_len_pos self rate_ok per_ok).
    pose proof (start_of_nonneg self rate_ok per_ok i Hi).
    rewrite len_py_slice; lia.
Qed.

(** A tail that follows a full window is longer than [2 * OVERLAP] seconds,
    less one sample. *)
Lemma tail_after_full_window seg i :
  (0 <= i)%Z -> long_tail self seg (start_of self i) = true ->
  2 * (3 # 10) * inject_Z (sr self) - 1
    < inject_Z (len (slice_from seg (start_of self (i + 1)))).
Proof.
  intros Hi Hlong.
  destruct (full_window_facts self rate_ok per_ok seg i Hi Hlong) as (_ & _ & _ & Hnext).
  apply long_tail_true in Hlong.
  pose proof (start_of_nonneg self rate_ok per_ok i Hi) as Hs0.
  pose proof (start_of_nonneg self rate_ok per_ok (i + 1) ltac:(lia)) as Hs1.
  rewrite len_slice_from in Hlong |- * by assumption.
  rewrite Z.max_l by lia.
  assert (Hlen : tail_limit self < inject_Z (len seg) - inject_Z (start_of self i)).
  { destruct (Z.max_spec (len seg - start_of self i) 0) as [[_ Hm]|[_ Hm]];
      rewrite Hm in Hlong.
    - change (inject_Z 0) with 0 in Hlong. pose proof (tail_limit_pos self rate_ok per_ok). lra.
    - unfold Z.sub in Hlong. rewrite inject_Z_plus, inject_Z_opp in Hlong. lra. }
  pose proof (tail_limit_eq self) as Hlim.
  pose proof (start_expr_step self i) as Hstep.
  destruct (trunc_bounds (start_expr self i)) as [_ Hu];
    [now apply start_expr_nonneg|].
  destruct (trunc_bounds (start_expr self (i + 1))) as [Hl' _];
    [apply start_expr_nonneg; [assumption..|lia]|].
  fold (start_of self i) in Hu. fold (start_of self (i + 1)) in Hl'.
  unfold Z.sub. rewrite inject_Z_plus, inject_Z_opp.
  set (P := per self * inject_Z (sr self)) in *. clearbody P.
  set (r := inject_Z (sr self)) in *. clearbody r.
  set (a := start_expr self i) in *. clearbody a.
  set (a' := start_expr self (i + 1)) in *. clearbody a'.
  lra.
Qed.

Hypothesis no_faults : fault_free E.

(** X5.  In exact arithmetic, for a rate of at least 4 Hz, [per] above
    OVERLAP and no write or resampling failure, the loop over a non-empty
    segment returns after handing the writer some full windows and one last
    window.  Every full window has exactly [int(per * sr)] samples, which is
    at least one; the last window is not empty and has at most
    [(per + OVERLAP) * sr] samples; and when a full window precedes it, it has
    more than [2 * OVERLAP * sr - 1] samples.  The index goes up by one per
    window. *)
Theorem cutter_window_lengths seg idx0 eff (s : frame Q) :
  seg <> [] ->
  exists fuel0, forall fuel, (fuel0 <= fuel)%nat ->
  exists ws last s',
    cut_loop E fuel self seg 0 idx0 eff s = Ret tt s' /\
    calls s' = (calls s ++ ws ++ [last])%list /\
    idx1 s' = (idx1 s + len ws + 1)%Z /\
    Forall (fun c : Z * Z * list Q => len (snd c) = window_len self) ws /\
    (1 <= window_len self)%Z /\
    inject_Z (window_len self) <= per self * inject_Z (sr self) /\
    (1 <= len (snd last))%Z /\
    inject_Z (len (snd last)) <= (per self + OVERLAP) * inject_Z (sr self) /\
    (ws <> [] ->
       2 * OVERLAP * inject_Z (sr self) - 1 < inject_Z (len (snd last))).
Proof.
  intros Hne.
  assert (Hpos : (0 < len seg)%Z).
  { destruct seg; [congruence|]. unfold len. cbn [length]. lia. }
  exists (S (Z.to_nat (Z.max (turns self seg) 0))). intros fuel Hfuel.
  destruct (cut_loop_runs E self rate_ok per_ok no_faults seg idx0 eff fuel 0%Z s)
    as (m & s' & Hrun & Hcalls & Hidx & Hfull & Hlast); [lia | | lia |].
  { now rewrite start_of_0. }
  destruct (windows_from_split seg idx0 m 0%Z (idx1 s)) as (ws & Heq & Hlen & Hall);
    [lia | exact Hfull |].
  cbn [Z.add] in Heq, Hlast.
  exists ws, (idx0, (idx1 s + Z.of_nat m)%Z, slice_from seg (start_of self (Z.of_nat m))), s'.
  split; [exact Hrun|]. split; [now rewrite Hcalls, Heq|].
  split; [unfold len; rewrite Hlen; exact Hidx|]. split; [exact Hall|].
  pose proof (window_len_pos self rate_ok per_ok) as Hw.
  destruct (trunc_bounds (per self * inject_Z (sr self))) as [Hwl _].
  { pose proof (per_rate_bound self rate_ok per_ok). lra. }
  split; [lia|]. split; [exact Hwl|]. cbn [snd].
  apply long_tail_false in Hlast.
  assert (Htail : (1 <= len (slice_from seg (start_of self (Z.of_nat m))))%Z).
  { rewrite len_slice_from by (apply (start_of_nonneg self rate_ok per_ok); lia).
    destruct m as [|m].
    - cbn [Z.of_nat]. rewrite start_of_0. lia.
    - specialize (Hfull m ltac:(lia)). cbn [Z.add] in Hfull.
      destruct (full_window_facts self rate_ok per_ok seg (Z.of_nat m) ltac:(lia) Hfull)
        as (_ & _ & _ & Hnext).
      replace (Z.of_nat (S m)) with (Z.of_nat m + 1)%Z by lia. lia. }
  split; [exact Htail|]. split; [exact Hlast|].
  intros Hws. destruct m as [|m]; [destruct ws; [congruence|discriminate]|].
  specialize (Hfull m ltac:(lia)). cbn [Z.add] in Hfull.
  replace (Z.of_nat (S m)) with (Z.of_nat m + 1)%Z by lia.
  change (@OVERLAP Q _) with (3 # 10).
  apply tail_after_full_window; [lia | exact Hfull].
Qed.
End WindowLengths.

Lemma cutter_window_lengths_witness :
  exists fuel0, forall fuel, (fuel0 <= fuel)%nat ->
  exists ws last s',
    cut_loop (DemoQ.world []) fuel (DemoQ.pp 100 1) (DemoQ.tone 400) 0 0 true (new_frame ∅)
      = Ret tt s' /\
    calls s' = (ws ++ [last])%list /\
    Forall (fun c : Z * Z * list Q => len (snd c) = window_len (DemoQ.pp 100 1)) ws /\
    (1 <= len (snd last))%Z /\
    (inject_Z (len (snd last)) <= (1 + OVERLAP) * inject_Z 100)%Q.
Proof.
  destruct (cutter_window_lengths (DemoQ.world []) (DemoQ.pp 100 1) ltac:(cbn; lia)
              ltac:(reflexivity) (DemoQ.world_fault_free _) (DemoQ.tone 400) 0 true
              (new_frame ∅) ltac:(discriminate)) as [fuel0 Hrun].
  exists fuel0. intros fuel Hfuel.
  destruct (Hrun fuel Hfuel) as (ws & last & s' & Hret & Hcalls & _ & Hall & _ & _ & H1 & Hle & _).
  exists ws, last, s'. split; [exact Hret|]. split; [exact Hcalls|].
  split; [exact Hall|]. split; [exact H1 | exact Hle].
Defined.

(** ** What a file's run leaves on disk *)

Section ReturnInvariant.
Context {F : Type} `{PyFloat F} (E : env F).
Variables (P : frame F -> Prop) (self : PreProcess F) (idx0 : Z) (eff : bool).

(** A property kept by every returning call of the writer, with the index
    bumped after it, holds when the loops return. *)
Hypothesis P_step : forall w t t1,
  P t -> process_audio_segment E self w idx0 (idx1 t) eff t = Ret tt t1 ->
  P (set_idx1 (idx1 t + 1) t1).

Lemma cut_loop_ret_inv fuel seg i s s' :
  P s -> cut_loop E fuel self seg i idx0 eff s = Ret tt s' -> P s'.
Proof.
  revert i s. induction fuel as [|fuel IH]; intros i s Hs; [discriminate|].
  rewrite cut_loop_eq.
  destruct (f_int (start_expr self i)) as [start|]; [|discriminate].
  destruct (long_tail self seg start).
  - destruct (f_int _) as [n|]; [|discriminate].
    destruct (process_audio_segment E self _ idx0 (idx1 s) eff s) as [[] s1|e s1|] eqn:Hseg;
      [|discriminate|discriminate].
    apply IH. now apply (P_step _ _ _ Hs Hseg).
  - destruct (process_audio_segment E self _ idx0 (idx1 s) eff s) as [[] s1|e s1|] eqn:Hseg;
      [|discriminate|discriminate].
    intros [= <-]. now apply (P_step _ _ _ Hs Hseg).
Qed.

Lemma for_in_ret_inv fuel (g : gen (list F)) s s' :
  P s -> for_in g (fun seg => cut_loop E fuel self seg 0 idx0 eff) s = Ret tt s' -> P s'.
Proof.
  revert s. induction g as [|seg rest IH|e]; intros s Hs; cbn [for_in].
  - now intros [= <-].
  - unfold bind.
    destruct (cut_loop E fuel self seg 0 idx0 eff s) as [[] t|e t|] eqn:Hloop;
      [|discriminate|discriminate].
    apply IH. now apply (cut_loop_ret_inv _ _ _ _ _ Hs Hloop).
  - discriminate.
Qed.
End ReturnInvariant.

Section StoredWindows.
Context {F : Type} `{PyFloat F} (E : env F).
Variables (self : PreProcess F) (idx0 : Z) (eff : bool) (fs0 : gmap string (file F)).

(** What the writer owes one logged call [(i0, i1, w)]: both artifacts of
    an accepted window, with the normalised samples at the native rate and
    their resampling at 16 kHz; for a rejected window, the two paths as they
    were in [fs0]. *)
Definition window_stored (fs1 : gmap string (file F)) (c : Z * Z * list F) : Prop :=
  match (if eff then _normalize_audio (snd c) else inr (Some (snd c))) with
  | inr (Some na) =>
      fs1 !! native_path self (fst (fst c)) (snd (fst c))
        = Some (WavFile (sr self) (astype_float32 E na)) /\
      exists a16,
        resample E na (sr self) SAMPLE_RATE_16K = inr a16 /\
        fs1 !! k16_path self (fst (fst c)) (snd (fst c))
          = Some (WavFile SAMPLE_RATE_16K (astype_float32 E a16))
  | inr None =>
      fs1 !! native_path self (fst (fst c)) (snd (fst c))
        = fs0 !! native_path self (fst (fst c)) (snd (fst c)) /\
      fs1 !! k16_path self (fst (fst c)) (snd (fst c))
        = fs0 !! k16_path self (fst (fst c)) (snd (fst c))
  | inl _ => False
  end.

Lemma window_stored_ext fs1 fs2 c :
  fs2 !! native_path self (fst (fst c)) (snd (fst c))
    = fs1 !! native_path self (fst (fst c)) (snd (fst c)) ->
  fs2 !! k16_path self (fst (fst c)) (snd (fst c))
    = fs1 !! k16_path self (fst (fst c)) (snd (fst c)) ->
  window_stored fs1 c -> window_stored fs2 c.
Proof.
  intros Hn Hk. unfold window_stored. now rewrite Hn, Hk.
Qed.

(** The calls so far carry [idx0] and indices below [idx1]; each has what
    it is owed; and the paths of the indices to come are untouched. *)
Definition stored_inv (s : frame F) : Prop :=
  Forall (fun c : Z * Z * list F => fst (fst c) = idx0 /\ snd (fst c) < idx1 s) (calls s) /\
  Forall (window_stored (fs s)) (calls s) /\
  (forall k, idx1 s <= k ->
     fs s !! native_path self idx0 k = fs0 !! native_path self idx0 k /\
     fs s !! k16_path self idx0 k = fs0 !! k16_path self idx0 k).

Hypothesis Hc : constructed self.

Lemma stored_segment seg s s1 :
  stored_inv s ->
  process_audio_segment E self seg idx0 (idx1 s) eff s = Ret tt s1 ->
  stored_inv (set_idx1 (idx1 s + 1) s1).
Proof.
  intros (Hkeys & Hst & Hnew). rewrite process_audio_segment_eq. cbv zeta.
  assert (Hkeys' : Forall (fun c : Z * Z * list F =>
                             fst (fst c) = idx0 /\ snd (fst c) < idx1 s + 1)
                     (calls s ++ [(idx0, idx1 s, seg)])).
  { apply Forall_app. split.
    - eapply Forall_impl; [exact Hkeys|]. cbn beta. intros c [? ?]. split; [assumption|lia].
    - constructor; [cbn; split; [reflexivity|lia] | constructor]. }
  destruct (if eff then _normalize_audio seg else inr (Some seg)) as [e|[na|]] eqn:Hnorm;
    [discriminate| |].
  - destruct (write_error E (native_path self idx0 (idx1 s))); [discriminate|].
    destruct (resample E na (sr self) SAMPLE_RATE_16K) as [e|a16] eqn:Hres; [discriminate|].
    destruct (write_error E (k16_path self idx0 (idx1 s))); [discriminate|].
    intros [= <-]. unfold stored_inv. cbn [calls fs idx1 set_idx1 set_fs log_call].
    assert (Hother : forall k, k <> idx1 s ->
              (<[k16_path self idx0 (idx1 s) := WavFile SAMPLE_RATE_16K (astype_float32 E a16)]>
                 (<[native_path self idx0 (idx1 s) := WavFile (sr self) (astype_float32 E na)]>
                    (fs s))) !! native_path self idx0 k = fs s !! native_path self idx0 k /\
              (<[k16_path self idx0 (idx1 s) := WavFile SAMPLE_RATE_16K (astype_float32 E a16)]>
                 (<[native_path self idx0 (idx1 s) := WavFile (sr self) (astype_float32 E na)]>
                    (fs s))) !! k16_path self idx0 k = fs s !! k16_path self idx0 k).
    { intros k Hk. split.
      - rewrite lookup_insert_ne by (apply not_eq_sym, native_k16_distinct, Hc).
        apply lookup_insert_ne. intros Heq. apply native_path_inj in Heq; [|exact Hc]. lia.
      - rewrite lookup_insert_ne
          by (intros Heq; apply k16_path_inj in Heq; [|exact Hc]; lia).
        apply lookup_insert_ne, native_k16_distinct, Hc. }
    split; [exact Hkeys'|]. split.
    + apply Forall_app. split.
      * apply Forall_forall. intros c Hin.
        pose proof (proj1 (Forall_forall _ _) Hkeys c Hin) as [Hi0 Hi1].
        pose proof (proj1 (Forall_forall _ _) Hst c Hin) as Hold.
        destruct (Hother (snd (fst c)) ltac:(lia)) as [Hn Hk].
        apply (window_stored_ext (fs s)); rewrite ?Hi0; assumption.
      * constructor; [|constructor]. unfold window_stored. cbn [fst snd]. rewrite Hnorm.
        split.
        -- rewrite lookup_insert_ne by (apply not_eq_sym, native_k16_distinct, Hc).
           apply lookup_insert_eq.
        -- exists a16. split; [exact Hres | apply lookup_insert_eq].
    + intros k Hk. destruct (Hother k ltac:(lia)) as [-> ->]. apply Hnew. lia.
  - intros [= <-]. unfold stored_inv. cbn [calls fs idx1 set_idx1 set_fs log_call].
    split; [exact Hkeys'|]. split.
    + apply Forall_app. split; [exact Hst|].
      constructor; [|constructor]. unfold window_stored. cbn [fst snd]. rewrite Hnorm.
      apply Hnew. lia.
    + intros k Hk. apply Hnew. lia.
Qed.

(** X6.  When the body of [process_audio] runs to its end without an
    exception, every window that was handed to the writer has what it is
    owed in the file system the method leaves: for an accepted window, the
    native-rate file holds the normalised samples (cast to float32) at rate
    [sr], and the 16 kHz file holds their resampling; for a window the
    normaliser rejected, both paths are as they were before the call.  No
    later window of the file has overwritten an earlier one. *)
Theorem accepted_windows_are_stored fuel path cut s' :
  process_audio_try E fuel self path idx0 cut eff (new_frame fs0) = Ret tt s' ->
  process_audio E fuel self path idx0 cut eff fs0 = Ret (audio_length s') (fs s') /\
  Forall (window_stored (fs s')) (calls s').
Proof.
  intros Hrun. split; [rewrite process_audio_eq, Hrun; reflexivity|].
  revert Hrun. rewrite process_audio_try_eq.
  destruct (load_audio E path (sr self)) as [e|audio]; [discriminate|]. cbv zeta.
  destruct (if eff then lfilter_high E (sr self) audio else inr audio) as [e|y];
    [discriminate|].
  set (s2 := set_idx1 0 (set_audio_length (get_duration audio (sr self)) (new_frame fs0))).
  assert (Hinit : stored_inv s2).
  { unfold stored_inv. cbn. split; [constructor|]. split; [constructor|]. auto. }
  destruct cut.
  - intros Hrun.
    now apply (for_in_ret_inv E stored_inv self idx0 eff
                 (fun w t t1 => stored_segment w t t1) fuel _ s2 s' Hinit) in Hrun as (_ & Hst & _).
  - intros Hrun. change 0 with (idx1 s2) in Hrun.
    now apply (stored_segment _ _ _ Hinit) in Hrun as (_ & Hst & _).
Qed.
End StoredWindows.

Lemma accepted_windows_are_stored_witness :
  let E := Demo.world (Demo.tone 150) (fun _ => false) in
  match process_audio_try E 4 (Demo.pp 100 1) "in/take1.wav" 3 true true (new_frame ∅) with
  | Ret _ s' => Forall (window_stored E (Demo.pp 100 1) true ∅ (fs s')) (calls s')
  | _ => False
  end.
Proof.
  intros E.
  assert (Hobs : match process_audio_try E 4 (Demo.pp 100 1) "in/take1.wav" 3 true true
                         (new_frame ∅) with
                 | Ret _ _ => true
                 | _ => false
                 end = true) by (vm_compute; reflexivity).
  destruct (process_audio_try E 4 (Demo.pp 100 1) "in/take1.wav" 3 true true (new_frame ∅))
    as [[] s'|e s'|] eqn:Hrun; [|discriminate Hobs..].
  exact (proj2 (accepted_windows_are_stored E (Demo.pp 100 1) 3 true ∅
                  (Demo.pp_constructed 100 1 ltac:(lia)) 4%nat "in/take1.wav" true s' Hrun)).
Defined.

Example accepted_windows_demo :
  let E := Demo.world (Demo.tone 150) (fun _ => false) in
  match process_audio_try E 4 (Demo.pp 100 1) "in/take1.wav" 3 true true (new_frame ∅) with
  | Ret _ s' =>
      Some (map (fun c => (fst c, len (snd c))) (calls s'),
            map fst (map_to_list (fs s')))
  | _ => None
  end = Some ([(3, 0, 100); (3, 1, 80)],
              ["logs/m/sliced_audios_16k/3_1.wav"; "logs/m/sliced_audios_16k/3_0.wav";
               "logs/m/sliced_audios/3_1.wav"; "logs/m/sliced_audios/3_0.wav"]).
Proof. vm_compute. reflexivity. Qed.

(** ** Window indices and written artifacts *)

Section WrittenIndices.
Context {F : Type} `{PyFloat F} (E : env F).
Variables (self : PreProcess F) (idx0 : Z) (eff : bool) (fs0 : gmap string (file F)).

Lemma process_audio_try_stored fuel path cut s' :
  constructed self ->
  process_audio_try E fuel self path idx0 cut eff (new_frame fs0) = Ret tt s' ->
  Forall (window_stored E self eff fs0 (fs s')) (calls s').
Proof.
  intros Hc. rewrite process_audio_try_eq.
  destruct (load_audio E path (sr self)) as [e|audio]; [discriminate|]. cbv zeta.
  destruct (if eff then lfilter_high E (sr self) audio else inr audio) as [e|y];
    [discriminate|].
  set (s2 := set_idx1 0 (set_audio_length (get_duration audio (sr self)) (new_frame fs0))).
  assert (Hinit : stored_inv E self idx0 eff fs0 s2).
  { unfold stored_inv. cbn. split; [constructor|]. split; [constructor|]. auto. }
  destruct cut.
  - intros Hrun.
    now apply (for_in_ret_inv E (stored_inv E self idx0 eff fs0) self idx0 eff
                 (fun w t t1 => stored_segment E self idx0 eff fs0 Hc w t t1)
                 fuel _ s2 s' Hinit) in Hrun as (_ & Hst & _).
  - intros Hrun. change 0 with (idx1 s2) in Hrun.
    now apply (stored_segment E self idx0 eff fs0 Hc _ _ _ Hinit) in Hrun as (_ & Hst & _).
Qed.

(** C6 (as amended).  [idx1] numbers the calls of the writer, not the
    artifacts written.  Whatever the segmenter yields and wherever the body
    stops, the calls made for one file carry, in the order they were made,
    the keys [(idx0, 0), (idx0, 1), ..., (idx0, n - 1)]: [idx1] starts at 0
    and grows by one per window across all segments, so it is strictly
    increasing; and the only files the body changes are artifacts named by
    those keys.  When the body of a constructed instance runs to its end,
    an accepted window has both its artifacts under its own index, while a
    window the normaliser rejected has used up its index and left both
    paths as they were: the indices of the artifacts written are
    increasing, but they need not start at 0 and may skip values. *)
Theorem window_indices_count_from_zero fuel path cut s' :
  final (process_audio_try E fuel self path idx0 cut eff (new_frame fs0)) = Some s' ->
  map fst (calls s') = keys_upto idx0 (length (calls s')) /\
  StronglySorted Z.lt (map (fun c => snd (fst c)) (calls s')) /\
  only_artifacts self idx0 fs0 s' /\
  (constructed self ->
   process_audio_try E fuel self path idx0 cut eff (new_frame fs0) = Ret tt s' ->
   Forall (window_stored E self eff fs0 (fs s')) (calls s')).
Proof.
  intros Hf.
  destruct (process_audio_try_keys_ok E self idx0 fs0 fuel path cut eff s' Hf) as [Hk Ha].
  split; [exact Hk|]. split; [|split; [exact Ha | apply process_audio_try_stored]].
  rewrite <- (List.map_map fst snd), Hk. apply keys_upto_sorted.
Qed.
End WrittenIndices.

Lemma window_indices_count_from_zero_witness :
  let E := Demo.world (Demo.tone 400) (fun _ => false) in
  let self := Demo.pp 100 1 in
  match process_audio_try E 8 self "in/take1.wav" 5 true true (new_frame ∅) with
  | Ret _ s' =>
      map fst (calls s') = keys_upto 5 (length (calls s')) /\
      StronglySorted Z.lt (map (fun c => snd (fst c)) (calls s')) /\
      only_artifacts self 5 ∅ s' /\
      Forall (window_stored E self true ∅ (fs s')) (calls s')
  | _ => False
  end.
Proof.
  intros E self.
  assert (Hobs : match process_audio_try E 8 self "in/take1.wav" 5 true true (new_frame ∅) with
                 | Ret _ _ => true
                 | _ => false
                 end = true) by (vm_compute; reflexivity).
  destruct (process_audio_try E 8 self "in/take1.wav" 5 true true (new_frame ∅))
    as [[] s'|e s'|] eqn:Hrun; [|discriminate Hobs..].
  destruct (window_indices_count_from_zero E self 5 true ∅ 8%nat "in/take1.wav" true s')
    as (Hk & Hs & Ha & Hst); [rewrite Hrun; reflexivity|].
  split; [exact Hk|]. split; [exact Hs|]. split; [exact Ha|].
  apply Hst; [apply Demo.pp_constructed; lia | exact Hrun].
Defined.

Example demo_keys :
  let E := Demo.world (Demo.tone 400) (fun _ => false) in
  option_map (fun s => map (fun c => (fst c, len (snd c))) (calls s))
    (final (process_audio_try E 8 (Demo.pp 100 1) "in/take1.wav" 5 true true (new_frame ∅)))
  = Some [(5, 0, 100); (5, 1, 100); (5, 2, 100); (5, 3, 100); (5, 4, 120)].
Proof. vm_compute. reflexivity. Qed.

(** C6, counterexample.  A 4-second file at 100 Hz with per = 1.0 whose
    first sample is 3.0 and whose other samples are 0.5.  The writer is
    called five times, with idx1 = 0, 1, 2, 3, 4.  The first window holds
    the sample 3.0, its peak is above 2.5 and the normaliser rejects it; the
    other four are accepted.  The body returns, and the artifacts written
    for the file 5 are 5_1.wav, ..., 5_4.wav at both rates, eight files in
    all: no artifact has idx1 = 0, so the indices of the written artifacts
    do not start at 0. *)
Lemma rejected_window_uses_an_index :
  let E := Demo.world (3%float :: Demo.tone 399) (fun _ => false) in
  let self := Demo.pp 100 1 in
  match process_audio_try E 8 self "in/take1.wav" 5 true true (new_frame ∅) with
  | Ret _ s' =>
      Some (map (fun c => snd (fst c)) (calls s'),
            map (fun c => accepted (snd c)) (calls s'),
            map (fun k => (bool_decide (is_Some (fs s' !! native_path self 5 k)),
                           bool_decide (is_Some (fs s' !! k16_path self 5 k))))
              [0; 1; 2; 3; 4],
            length (map_to_list (fs s')))
  | _ => None
  end
  = Some ([0; 1; 2; 3; 4],
          [false; true; true; true; true],
          [(false, false); (true, true); (true, true); (true, true); (true, true)],
          8%nat).
Proof. cbv zeta. vm_compute. reflexivity. Qed.

(** ** What a run may touch *)

Section RunFrame.
Context {F : Type} `{PyFloat F} (E : env F).

(** [process_audio] changes only artifacts of its own [idx0], and removes
    nothing. *)
Lemma process_audio_touches fuel self path idx0 cut eff fs0 d fs1 :
  process_audio E fuel self path idx0 cut eff fs0 = Ret d fs1 ->
  forall p,
    (is_Some (fs0 !! p) -> is_Some (fs1 !! p)) /\
    (fs1 !! p = fs0 !! p \/
     exists k, p = native_path self idx0 k \/ p = k16_path self idx0 k).
Proof.
  rewrite process_audio_eq. intros Hrun p.
  assert (Hfin : exists s', final (process_audio_try E fuel self path idx0 cut eff
                                     (new_frame fs0)) = Some s' /\ fs s' = fs1).
  { destruct (process_audio_try E fuel self path idx0 cut eff (new_frame fs0))
      as [[] s|e s|]; [| |discriminate]; injection Hrun as _ <-; eauto. }
  destruct Hfin as (s' & Hf & <-). split.
  - intros Hp.
    apply (process_audio_try_weak E (fun s => is_Some (fs s !! p))
             (fun s => is_Some (fs s !! p)) self idx0 (fun _ h => h)
             (fun seg eff' s s1 Hs Hseg =>
                let Hk := process_audio_segment_keeps E self seg idx0 (idx1 s) eff' s s1 p
                            Hseg Hs in conj Hk Hk)
             fuel path cut eff (new_frame fs0) s'); auto.
  - destruct (process_audio_try_keys_ok E self idx0 fs0 fuel path cut eff s' Hf) as [_ Honly].
    destruct (Honly p) as [Heq|(k & w & _ & Hp)]; [now left|]. right. now exists k.
Qed.

Lemma pool_map_touches fuel pp files cut eff fs0 ds fs1 :
  pool_map (process_audio_wrapper E fuel) (jobs pp files cut eff) fs0 = Ret ds fs1 ->
  forall p,
    (is_Some (fs0 !! p) -> is_Some (fs1 !! p)) /\
    (fs1 !! p = fs0 !! p \/
     exists path idx0 k, In (path, idx0) files /\
       (p = native_path pp idx0 k \/ p = k16_path pp idx0 k)).
Proof.
  revert fs0 ds. induction files as [|[path idx0] files IH]; intros fs0 ds.
  - intros [= _ <-] p. auto.
  - cbn [jobs map pool_map]. unfold bind. cbn [process_audio_wrapper].
    destruct (process_audio E fuel pp path idx0 cut eff fs0) as [d fs'|e fs'|] eqn:Hfile;
      [|discriminate|discriminate].
    fold (jobs pp files cut eff).
    destruct (pool_map _ (jobs pp files cut eff) fs') as [ds' fs''|e fs''|] eqn:Hrest;
      [|discriminate|discriminate].
    intros [= _ <-] p.
    destruct (process_audio_touches _ _ _ _ _ _ _ _ _ Hfile p) as [Hk1 Ht1].
    destruct (IH _ _ Hrest p) as [Hk2 Ht2]. split; [auto|].
    destruct Ht2 as [Heq2|(path' & idx0' & k & Hin & Hp)].
    + rewrite Heq2. destruct Ht1 as [Heq1|(k & Hp)]; [now left|].
      right. exists path, idx0, k. split; [now left | exact Hp].
    + right. exists path', idx0', k. split; [now right | exact Hp].
Qed.

(** The report writer touches its own path only, and only when it returns. *)
Lemma save_dataset_duration_touches path seconds (fs0 fs1 : gmap string (file F)) :
  final (save_dataset_duration E path seconds fs0) = Some fs1 ->
  forall p,
    (is_Some (fs0 !! p) -> is_Some (fs1 !! p)) /\
    (fs1 !! p = fs0 !! p \/ p = path).
Proof.
  rewrite save_dataset_duration_eq.
  assert (Hsame : forall (r : result (gmap string (file F)) unit),
            final r = Some fs0 -> final r = Some fs1 ->
            forall p, (is_Some (fs0 !! p) -> is_Some (fs1 !! p)) /\
                      (fs1 !! p = fs0 !! p \/ p = path)).
  { intros r Hr0 Hr1 p. rewrite Hr0 in Hr1. injection Hr1 as <-. auto. }
  assert (Hdict : forall old,
            final (match duration_text seconds with
                   | None => Raise ValueError fs0
                   | Some text =>
                       match write_error E path with
                       | Some e => Raise e fs0
                       | None =>
                           Ret tt (<[path := JsonFile (JObj (map_to_list
                                                 (merged old text seconds)))]> fs0)
                       end
                   end) = Some fs1 ->
            forall p, (is_Some (fs0 !! p) -> is_Some (fs1 !! p)) /\
                      (fs1 !! p = fs0 !! p \/ p = path)).
  { intros old. destruct (duration_text seconds) as [text|]; [|now apply Hsame].
    destruct (write_error E path); [now apply Hsame|].
    cbn [final]. intros [= <-] p.
    destruct (decide (p = path)) as [->|Hne].
    - rewrite lookup_insert_eq. split; eauto.
    - rewrite lookup_insert_ne by congruence. auto. }
  destruct (loaded fs0 path) as [[]|[old|j]];
    try (now apply Hsame); try (now apply Hdict).
  destruct (duration_text seconds); now apply Hsame.
Qed.

(** [preprocess_training_set], by cases, from its first statement on. *)
Lemma preprocess_training_set_cases fuel input_root rate nproc exp window cut eff
    (fs0 : gmap string (file F)) :
  preprocess_training_set E fuel input_root rate nproc exp window cut eff fs0 =
  if rate <=? 2 * HIGH_PASS_CUTOFF then Raise ValueError fs0
  else
    match makedirs_error E (path_join exp "sliced_audios") with
    | Some e => Raise e fs0
    | None =>
        match makedirs_error E (path_join exp "sliced_audios_16k") with
        | Some e => Raise e fs0
        | None =>
            match listdir E input_root with
            | inl e => Raise e fs0
            | inr names =>
                if nproc <? 1 then Raise ValueError fs0
                else
                  match pool_map (process_audio_wrapper E fuel)
                          (jobs (instance rate exp window)
                             (audio_files input_root names) cut eff) fs0 with
                  | Ret ds fs1 => save_dataset_duration E (report_path exp) (py_sum ds) fs1
                  | Raise e fs1 => Raise e fs1
                  | Spin => Spin
                  end
            end
        end
    end.
Proof.
  destruct (rate <=? 2 * HIGH_PASS_CUTOFF) eqn:Hrate.
  - unfold preprocess_training_set, PreProcess_init, bind, raise. now rewrite Hrate.
  - destruct (makedirs_error E (path_join exp "sliced_audios")) as [e|] eqn:Hm1.
    + unfold preprocess_training_set, PreProcess_init, makedirs, bind, raise, ret.
      now rewrite Hrate, Hm1.
    + destruct (makedirs_error E (path_join exp "sliced_audios_16k")) as [e|] eqn:Hm2.
      * unfold preprocess_training_set, PreProcess_init, makedirs, bind, raise, ret.
        now rewrite Hrate, Hm1, Hm2.
      * apply preprocess_training_set_eq; [now apply Z.leb_gt | exact Hm1 | exact Hm2].
Qed.

(** X7.  Whatever happens during a run (it may end normally or with an
    exception), no file that existed is removed, and the only paths whose
    content can differ afterwards are the report [model_info.json] and the
    artifacts [{idx0}_{k}.wav] of the two output directories, for an [idx0]
    the run dispatched: the input files, and everything else on disk, are
    left as they were. *)
Theorem run_touches_only_outputs fuel input_root rate nproc exp window cut eff
    (fs0 fs1 : gmap string (file F)) :
  final (preprocess_training_set E fuel input_root rate nproc exp window cut eff fs0)
    = Some fs1 ->
  forall p,
    (is_Some (fs0 !! p) -> is_Some (fs1 !! p)) /\
    (fs1 !! p = fs0 !! p \/
     p = report_path exp \/
     exists names path idx0 k,
       listdir E input_root = inr names /\
       In (path, idx0) (audio_files input_root names) /\
       (p = native_path (instance rate exp window) idx0 k \/
        p = k16_path (instance rate exp window) idx0 k)).
Proof.
  rewrite preprocess_training_set_cases.
  destruct (rate <=? 2 * HIGH_PASS_CUTOFF); [cbn [final]; intros [= <-] p; now auto|].
  destruct (makedirs_error E _); [cbn [final]; intros [= <-] p; now auto|].
  destruct (makedirs_error E _); [cbn [final]; intros [= <-] p; now auto|].
  destruct (listdir E input_root) as [e|names]; [cbn [final]; intros [= <-] p; now auto|].
  destruct (nproc <? 1); [cbn [final]; intros [= <-] p; now auto|].
  destruct (pool_map _ _ fs0) as [ds fs'|e fs'|] eqn:Hpool; [| |discriminate].
  - intros Hsave p.
    destruct (pool_map_touches _ _ _ _ _ _ _ _ Hpool p) as [Hk1 Ht1].
    destruct (save_dataset_duration_touches _ _ _ _ Hsave p) as [Hk2 Ht2].
    split; [auto|]. destruct Ht2 as [Heq | ->]; [|now right; left].
    rewrite Heq. destruct Ht1 as [Heq1|(path & idx0 & k & Hin & Hp)]; [now left|].
    right; right. now exists names, path, idx0, k.
  - pose proof (pool_map_no_raise E fuel
                  (jobs (instance rate exp window) (audio_files input_root names) cut eff) fs0)
      as Hno.
    rewrite Hpool in Hno. destruct Hno.
Qed.
End RunFrame.

Lemma run_touches_only_outputs_witness :
  let E := Demo.world (Demo.tone 150) (fun _ => false) in
  let fs0 : gmap string (file float) := <["in/take1.wav" := OtherFile]> ∅ in
  match final (preprocess_training_set E 4 "in" 100 1 "logs/m" 1%float true true fs0) with
  | Some fs1 =>
      forall p,
        (is_Some (fs0 !! p) -> is_Some (fs1 !! p)) /\
        (fs1 !! p = fs0 !! p \/
         p = report_path "logs/m" \/
         exists names path idx0 k,
           listdir E "in" = inr names /\
           In (path, idx0) (audio_files "in" names) /\
           (p = native_path (instance 100 "logs/m" 1%float) idx0 k \/
            p = k16_path (instance 100 "logs/m" 1%float) idx0 k))
  | None => False
  end.
Proof.
  intros E fs0.
  assert (Hobs : match final (preprocess_training_set E 4 "in" 100 1 "logs/m" 1%float
                                true true fs0) with
                 | Some _ => true
                 | None => false
                 end = true) by (vm_compute; reflexivity).
  destruct (final (preprocess_training_set E 4 "in" 100 1 "logs/m" 1%float true true fs0))
    as [fs1|] eqn:Hrun; [|discriminate Hobs].
  exact (run_touches_only_outputs E 4%nat "in" 100 1 "logs/m" 1%float true true fs0 fs1 Hrun).
Defined.

(** ** The reported total *)

Section ReportedTotal.
Context {F : Type} `{PyFloat F} (E : env F).

(** What one file adds to the total: its decoded duration, or 0 when the
    decoder raises. *)
Definition decoded_duration (rate : Z) (path : string) : F :=
  match load_audio E path rate with
  | inl _ => f_of_Z 0
  | inr audio => get_duration audio rate
  end.

Lemma process_audio_value fuel self path idx0 cut eff fs0 d fs1 :
  process_audio E fuel self path idx0 cut eff fs0 = Ret d fs1 ->
  d = decoded_duration (sr self) path.
Proof.
  unfold decoded_duration.
  destruct (load_audio E path (sr self)) as [e|audio] eqn:Hload.
  - rewrite (process_audio_undecodable E fuel self path idx0 cut eff fs0 e Hload).
    now intros [= <- _].
  - rewrite process_audio_eq.
    pose proof (process_audio_try_length E fuel self path idx0 cut eff fs0 audio) as Hlen.
    destruct (process_audio_try E fuel self path idx0 cut eff (new_frame fs0))
      as [[] s|e s|]; [| |discriminate];
      intros [= <- _]; apply Hlen; [exact Hload | reflexivity | exact Hload | reflexivity].
Qed.

Lemma pool_map_values fuel pp files cut eff fs0 ds fs1 :
  pool_map (process_audio_wrapper E fuel) (jobs pp files cut eff) fs0 = Ret ds fs1 ->
  ds = map (fun file : string * Z => decoded_duration (sr pp) (fst file)) files.
Proof.
  revert fs0 ds fs1. induction files as [|[path idx0] files IH]; intros fs0 ds fs1.
  - now intros [= <- _].
  - cbn [jobs map pool_map]. unfold bind. cbn [process_audio_wrapper].
    destruct (process_audio E fuel pp path idx0 cut eff fs0) as [d fs'|e fs'|] eqn:Hfile;
      [|discriminate|discriminate].
    fold (jobs pp files cut eff).
    destruct (pool_map _ (jobs pp files cut eff) fs') as [ds' fs''|e fs''|] eqn:Hrest;
      [|discriminate|discriminate].
    intros [= <- _]. cbn [fst]. f_equal.
    + exact (process_audio_value _ _ _ _ _ _ _ _ _ Hfile).
    + exact (IH _ _ _ Hrest).
Qed.

(** X8.  When a run returns, the report it leaves holds under
    total_seconds the left-to-right sum, starting from 0, of the decoded
    durations [len / sr] of the dispatched files in listing order, with 0
    for a file the decoder rejected, and under total_dataset_duration that
    sum formatted.  Neither flag, nor any failure after decoding, nor what
    the normaliser rejected changes the total. *)
Theorem reported_total_is_sum_of_decoded fuel input_root rate nproc exp window cut eff
    (fs0 fs1 : gmap string (file F)) :
  preprocess_training_set E fuel input_root rate nproc exp window cut eff fs0 = Ret tt fs1 ->
  exists names (data : gmap string (json F)) text,
    listdir E input_root = inr names /\
    let total :=
      py_sum (map (fun file : string * Z => decoded_duration rate (fst file))
                (audio_files input_root names)) in
    fs1 !! report_path exp = Some (JsonFile (JObj (map_to_list data))) /\
    data !! "total_seconds" = Some (JNum total) /\
    duration_text total = Some text /\
    data !! "total_dataset_duration" = Some (JStr text).
Proof.
  rewrite preprocess_training_set_cases.
  destruct (rate <=? 2 * HIGH_PASS_CUTOFF); [discriminate|].
  destruct (makedirs_error E _); [discriminate|].
  destruct (makedirs_error E _); [discriminate|].
  destruct (listdir E input_root) as [e|names]; [discriminate|].
  destruct (nproc <? 1); [discriminate|].
  destruct (pool_map _ _ fs0) as [ds fs'|e fs'|] eqn:Hpool; [|discriminate|discriminate].
  apply pool_map_values in Hpool. cbn [sr instance] in Hpool. subst ds.
  rewrite save_dataset_duration_eq.
  set (total := py_sum _).
  destruct (match loaded fs' (report_path exp) with
            | inl FileNotFoundError => inr (Dict ∅)
            | r => r
            end) as [e|[old|j]]; [discriminate| |].
  - destruct (duration_text total) as [text|] eqn:Htext; [|discriminate].
    destruct (write_error E (report_path exp)); [discriminate|].
    intros [= <-]. exists names, (merged old text total), text.
    split; [reflexivity|]. cbv zeta. fold total.
    split; [apply lookup_insert_eq|].
    destruct (merged_lookup old text total) as (Hd & Hs & _). auto.
  - destruct (duration_text total); discriminate.
Qed.
End ReportedTotal.

Lemma reported_total_is_sum_of_decoded_witness :
  let E := Demo.world (Demo.tone 150) (String.eqb "logs/m/sliced_audios_16k/0_1.wav") in
  match preprocess_training_set E 4 "in" 100 1 "logs/m" 1%float true true ∅ with
  | Ret _ fs1 =>
      exists names (data : gmap string (json float)) text,
        listdir E "in" = inr names /\
        fs1 !! report_path "logs/m" = Some (JsonFile (JObj (map_to_list data))) /\
        data !! "total_seconds"
          = Some (JNum (py_sum (map (fun file : string * Z => decoded_duration E 100 (fst file))
                                  (audio_files "in" names)))) /\
        data !! "total_dataset_duration" = Some (JStr text)
  | _ => False
  end.
Proof.
  intros E.
  assert (Hobs : match preprocess_training_set E 4 "in" 100 1 "logs/m" 1%float true true ∅ with
                 | Ret _ _ => true
                 | _ => false
                 end = true) by (vm_compute; reflexivity).
  destruct (preprocess_training_set E 4 "in" 100 1 "logs/m" 1%float true true ∅)
    as [[] fs1|e fs1|] eqn:Hrun; [|discriminate Hobs..].
  destruct (reported_total_is_sum_of_decoded E 4%nat "in" 100 1 "logs/m" 1%float true true
              ∅ fs1 Hrun) as (names & data & text & Hl & Hf & Hs & _ & Ht).
  exists names, data, text.
  split; [exact Hl|]. split; [exact Hf|]. split; [exact Hs | exact Ht].
Defined.

Example reported_total_demo :
  let E := Demo.world (Demo.tone 150) (String.eqb "logs/m/sliced_audios_16k/0_1.wav") in
  match preprocess_training_set E 4 "in" 100 1 "logs/m" 1%float true true ∅ with
  | Ret _ fs1 =>
      Some (fs1 !! "logs/m/model_info.json",
            bool_decide (is_Some (fs1 !! "logs/m/sliced_audios/0_1.wav")),
            bool_decide (is_Some (fs1 !! "logs/m/sliced_audios_16k/0_1.wav")))
  | _ => None
  end = Some (Some (JsonFile (JObj [("total_seconds", JNum 1.5%float);
                                    ("total_dataset_duration", JStr "00:00:01")])),
              true, false).
Proof. vm_compute. reflexivity. Qed.

(** ** The duration formatter *)

Section FormatExact.
#[local] Open Scope Q_scope.

Lemma trunc_inject (z : Z) : QF.trunc (inject_Z z) = z.
Proof. unfold QF.trunc. cbn. apply Z.quot_1_r. Qed.

Lemma Qfloor_unique (x : Q) (z : Z) :
  inject_Z z <= x -> x < inject_Z (z + 1) -> Qfloor x = z.
Proof.
  intros Hl Hu.
  pose proof (Qfloor_le x) as Hfl. pose proof (Qlt_floor x) as Hfu.
  assert (H1 : inject_Z (Qfloor x) < inject_Z (z + 1)) by (eapply Qle_lt_trans; eassumption).
  assert (H2 : inject_Z z < inject_Z (Qfloor x + 1)) by (eapply Qle_lt_trans; eassumption).
  rewrite <- Zlt_Qlt in H1, H2. lia.
Qed.

Lemma Qfloor_sub_Z (x : Q) (z : Z) : Qfloor (x - inject_Z z) = (Qfloor x - z)%Z.
Proof.
  pose proof (Qfloor_le x) as Hfl. pose proof (Qlt_floor x) as Hfu.
  apply Qfloor_unique.
  - unfold Z.sub. rewrite inject_Z_plus, inject_Z_opp. lra.
  - replace (Qfloor x - z + 1)%Z with (Qfloor x + 1 + - z)%Z by lia.
    rewrite inject_Z_plus, inject_Z_opp. lra.
Qed.

(** Flooring commutes with division by a positive integer. *)
Lemma Qfloor_div (x : Q) (k : Z) :
  (0 < k)%Z -> Qfloor (x / inject_Z k) = (Qfloor x / k)%Z.
Proof.
  intros Hk.
  pose proof (Qfloor_le x) as Hfl. pose proof (Qlt_floor x) as Hfu.
  set (n := Qfloor x) in *. set (q := (n / k)%Z).
  assert (Hkq : 0 < inject_Z k) by (change 0 with (inject_Z 0); now rewrite <- Zlt_Qlt).
  pose proof (Z.mul_div_le n k Hk) as Hlo.
  pose proof (Z.mul_succ_div_gt n k Hk) as Hhi.
  fold q in Hlo, Hhi.
  assert (Hlo' : inject_Z (k * q) <= x).
  { eapply Qle_trans; [|exact Hfl]. now rewrite <- Zle_Qle. }
  assert (Hhi' : x < inject_Z (k * (q + 1))).
  { eapply Qlt_le_trans; [exact Hfu|]. rewrite <- Zle_Qle. unfold Z.succ in Hhi. lia. }
  rewrite inject_Z_mult in Hlo', Hhi'.
  apply Qfloor_unique.
  - apply Qle_shift_div_l; [exact Hkq|]. now rewrite Qmult_comm.
  - apply Qlt_shift_div_r; [exact Hkq|]. now rewrite Qmult_comm.
Qed.

Lemma Q_floordiv_int (x : Q) (k : Z) :
  (0 < k)%Z -> QF.trunc (QF.floordiv x (inject_Z k)) = (Qfloor x / k)%Z.
Proof. intros Hk. unfold QF.floordiv. now rewrite trunc_inject, Qfloor_div. Qed.

Lemma Q_modulo_floor (x : Q) (k : Z) :
  (0 < k)%Z ->
  Qfloor (QF.modulo x (inject_Z k)) = (Qfloor x mod k)%Z /\ 0 <= QF.modulo x (inject_Z k).
Proof.
  intros Hk. unfold QF.modulo, QF.floordiv. rewrite Qfloor_div by exact Hk.
  assert (Heq : x - inject_Z k * inject_Z (Qfloor x / k)
                == x - inject_Z (k * (Qfloor x / k))) by (rewrite inject_Z_mult; ring).
  split.
  - rewrite Heq, Qfloor_sub_Z. rewrite Z.mod_eq by lia. reflexivity.
  - rewrite Heq. pose proof (Qfloor_le x) as Hfl.
    pose proof (Z.mul_div_le (Qfloor x) k Hk) as Hlo.
    rewrite Zle_Qle in Hlo. lra.
Qed.

Lemma fmt02_two_digits (n : Z) : (0 <= n < 100)%Z -> String.length (fmt02 n) = 2%nat.
Proof.
  intros Hn.
  assert (Hall : forallb (fun k => Nat.eqb (String.length (fmt02 (Z.of_nat k))) 2)
                   (seq 0 100) = true) by (vm_compute; reflexivity).
  rewrite forallb_forall in Hall.
  specialize (Hall (Z.to_nat n)). rewrite Z2Nat.id in Hall by lia.
  apply Nat.eqb_eq, Hall, in_seq. lia.
Qed.

Lemma string_length_app (a b : string) :
  String.length (a ++ b) = (String.length a + String.length b)%nat.
Proof. induction a as [|c a IH]; [reflexivity|]. simpl. f_equal. exact IH. Qed.

(** X9.  In exact arithmetic [format_duration] never raises, and for every
    duration [d] its three fields are the hours, minutes and seconds of
    [floor d]: the minutes and the seconds lie in 0..59, and
    [3600 * hours + 60 * minutes + seconds] is [floor d] again (for a
    negative [d] the hours are negative and the other fields count up from
    the hour below).  From 0 up to 100 hours the text has exactly the eight
    characters HH:MM:SS. *)
Theorem format_duration_splits_floor (d : Q) :
  let n := Qfloor d in
  let h := (n / 3600)%Z in
  let m := (n mod 3600 / 60)%Z in
  let s := (n mod 60)%Z in
  let text := (fmt02 h ++ ":" ++ fmt02 m ++ ":" ++ fmt02 s)%string in
  duration_text d = Some text /\
  (forall (S : Type) (st : S), format_duration d st = Ret text st) /\
  (0 <= m < 60)%Z /\ (0 <= s < 60)%Z /\
  n = (3600 * h + 60 * m + s)%Z /\
  (0 <= d -> d < 360000 -> (0 <= h < 100)%Z /\ String.length text = 8%nat).
Proof.
  intros n h m s text.
  assert (Htext : duration_text d = Some text).
  { unfold duration_text. cbn [f_int f_floordiv f_mod f_of_Z Q_float].
    rewrite (Q_floordiv_int d 3600) by lia.
    rewrite (Q_floordiv_int (QF.modulo d (inject_Z 3600)) 60) by lia.
    destruct (Q_modulo_floor d 3600 ltac:(lia)) as [-> _].
    destruct (Q_modulo_floor d 60 ltac:(lia)) as [Hs Hs0].
    rewrite (trunc_floor _ Hs0), Hs. reflexivity. }
  assert (Hm : (0 <= m < 60)%Z).
  { unfold m. pose proof (Z.mod_pos_bound n 3600 ltac:(lia)).
    split; [apply Z.div_pos; lia | apply Z.div_lt_upper_bound; lia]. }
  assert (Hs : (0 <= s < 60)%Z) by (apply Z.mod_pos_bound; lia).
  split; [exact Htext|]. split; [intros S st; now rewrite format_duration_eq, Htext|].
  split; [exact Hm|]. split; [exact Hs|]. split.
  - unfold h, m, s. clear. Z.to_euclidean_division_equations. lia.
  - intros H0 H100.
    assert (Hn : (0 <= n < 360000)%Z).
    { pose proof (Qfloor_le d) as Hfl. pose proof (Qlt_floor d) as Hfu. fold n in Hfl, Hfu.
      split.
      - change 0%Z with (Qfloor 0). now apply Qfloor_resp_le.
      - assert (Hlt : inject_Z n < inject_Z 360000) by (change (inject_Z 360000) with 360000; lra).
        now rewrite <- Zlt_Qlt in Hlt. }
    assert (Hh : (0 <= h < 100)%Z).
    { unfold h. split; [apply Z.div_pos; lia | apply Z.div_lt_upper_bound; lia]. }
    split; [exact Hh|]. unfold text.
    rewrite !string_length_app, !fmt02_two_digits by lia. reflexivity.
Qed.
End FormatExact.

Example format_duration_examples :
  duration_text (7325 # 1)%Q = Some "02:02:05" /\
  duration_text (719999 # 2)%Q = Some "99:59:59" /\
  duration_text 360000%Q = Some "100:00:00" /\
  duration_text (- (1 # 2))%Q = Some "-1:59:59" /\
  duration_text 7325.5%float = Some "02:02:05" /\
  duration_text (-0.5)%float = Some "-1:59:59" /\
  duration_text nan = None /\ duration_text infinity = None.
Proof. repeat split; vm_compute; reflexivity. Qed.

(** ** The report writer, run again or failing *)

Section ReportOutcomes.
Context {F : Type} `{PyFloat F} (E : env F).

Lemma merged_merged (old : gmap string (json F)) text seconds :
  merged (merged old text seconds) text seconds = merged old text seconds.
Proof.
  unfold merged. rewrite (assoc_L (∪)). now rewrite (idemp_L (∪)).
Qed.

(** X10.  [save_dataset_duration] is all or nothing, and running it again
    changes nothing: when it raises (the file is not JSON, holds JSON that is
    not an object, the duration has no integer part, or the file cannot be
    opened for writing) the file system is exactly as before; when it
    returns, only the report path has changed, and a second call with the
    same duration on the result returns with the same file system (the
    totals are replaced, never accumulated). *)
Theorem report_update_all_or_nothing path seconds (fs0 : gmap string (file F)) :
  match save_dataset_duration E path seconds fs0 with
  | Raise _ fs1 => fs1 = fs0
  | Ret _ fs1 =>
      (forall p, p <> path -> fs1 !! p = fs0 !! p) /\
      is_Some (fs1 !! path) /\
      save_dataset_duration E path seconds fs1 = Ret tt fs1
  | Spin => False
  end.
Proof.
  assert (Hdict : forall old text,
            duration_text seconds = Some text -> write_error E path = None ->
            let fs1 := <[path := JsonFile (JObj (map_to_list (merged old text seconds)))]> fs0 in
            (forall p, p <> path -> fs1 !! p = fs0 !! p) /\
            is_Some (fs1 !! path) /\
            save_dataset_duration E path seconds fs1 = Ret tt fs1).
  { intros old text Htext Hw fs1. split; [|split].
    - intros p Hp. unfold fs1. now rewrite lookup_insert_ne by congruence.
    - unfold fs1. rewrite lookup_insert_eq. eauto.
    - rewrite save_dataset_duration_eq. unfold loaded, fs1.
      rewrite lookup_insert_eq, Htext, Hw, dump_load, merged_merged.
      now rewrite insert_insert_eq. }
  rewrite save_dataset_duration_eq.
  destruct (loaded fs0 path) as [[]|[old|j]]; try reflexivity.
  - destruct (duration_text seconds) as [text|] eqn:Htext; [|reflexivity].
    destruct (write_error E path) eqn:Hw; [reflexivity|]. now apply Hdict.
  - destruct (duration_text seconds) as [text|] eqn:Htext; [|reflexivity].
    destruct (write_error E path) eqn:Hw; [reflexivity|]. now apply Hdict.
  - destruct (duration_text seconds); reflexivity.
Qed.

(** X11.  When the report file does not exist, FileNotFoundError is
    handled: the report is created holding exactly the two keys
    total_dataset_duration and total_seconds, and reading it back gives
    that dict; nothing else changes. *)
Theorem report_created_when_missing path seconds text (fs0 : gmap string (file F)) :
  fs0 !! path = None ->
  duration_text seconds = Some text ->
  write_error E path = None ->
  exists data : gmap string (json F),
    save_dataset_duration E path seconds fs0
      = Ret tt (<[path := JsonFile (JObj (map_to_list data))]> fs0) /\
    json_load path (<[path := JsonFile (JObj (map_to_list data))]> fs0)
      = Ret (Dict data) (<[path := JsonFile (JObj (map_to_list data))]> fs0) /\
    forall k,
      data !! k =
        if decide (k = "total_dataset_duration") then Some (JStr text)
        else if decide (k = "total_seconds") then Some (JNum seconds)
        else None.
Proof.
  intros Hmissing Htext Hw. exists (merged ∅ text seconds).
  split; [|split].
  - rewrite save_dataset_duration_eq. unfold loaded. now rewrite Hmissing, Htext, Hw.
  - rewrite json_load_eq. unfold loaded. now rewrite lookup_insert_eq, dump_load.
  - intros k. destruct (merged_lookup ∅ text seconds) as (Hd & Hs & Hother).
    destruct (decide (k = "total_dataset_duration")) as [->|Hk1]; [exact Hd|].
    destruct (decide (k = "total_seconds")) as [->|Hk2]; [exact Hs|].
    rewrite (Hother k Hk1 Hk2). apply lookup_empty.
Qed.
End ReportOutcomes.

Lemma report_created_when_missing_witness :
  exists data : gmap string (json float),
    save_dataset_duration (Demo.world [] (fun _ => false)) "logs/m/model_info.json"
      7325%float ∅
      = Ret tt (<["logs/m/model_info.json" := JsonFile (JObj (map_to_list data))]> ∅) /\
    json_load "logs/m/model_info.json"
      (<["logs/m/model_info.json" := JsonFile (JObj (map_to_list data))]> ∅)
      = Ret (Dict data)
          (<["logs/m/model_info.json" := JsonFile (JObj (map_to_list data))]> ∅) /\
    forall k,
      data !! k =
        if decide (k = "total_dataset_duration") then Some (JStr "02:02:05")
        else if decide (k = "total_seconds") then Some (JNum 7325%float)
        else None.
Proof.
  exact (report_created_when_missing (Demo.world [] (fun _ => false))
           "logs/m/model_info.json" 7325%float "02:02:05" ∅
           eq_refl ltac:(vm_compute; reflexivity) eq_refl).
Defined.

Example report_failures_leave_the_file :
  let E := Demo.world [] (fun _ => false) in
  let p := "logs/m/model_info.json" in
  save_dataset_duration E p 1%float (<[p := OtherFile]> ∅)
    = Raise JSONDecodeError (<[p := OtherFile]> ∅) /\
  save_dataset_duration E p 1%float (<[p := JsonFile (JArr [])]> ∅)
    = Raise AttributeError (<[p := JsonFile (JArr [])]> ∅) /\
  save_dataset_duration E p nan (<[p := JsonFile (JObj [])]> ∅)
    = Raise ValueError (<[p := JsonFile (JObj [])]> ∅) /\
  save_dataset_duration (Demo.world [] (fun _ => true)) p 1%float (<[p := JsonFile (JObj [])]> ∅)
    = Raise OSError (<[p := JsonFile (JObj [])]> ∅).
Proof. repeat split; vm_compute; reflexivity. Qed.

(** ** The files a run dispatches *)

Section Listing.
#[local] Open Scope string_scope.

Lemma endswith_spec (s suffix : string) :
  endswith s suffix = true <-> exists stem, s = stem ++ suffix.
Proof.
  split.
  - induction s as [|c s IH]; cbn [endswith]; intros Hs; apply orb_true_iff in Hs.
    + destruct Hs as [Hs|Hs]; [|discriminate]. apply String.eqb_eq in Hs. now exists "".
    + destruct Hs as [Hs|Hs].
      * apply String.eqb_eq in Hs. now exists "".
      * destruct (IH Hs) as (stem & ->). now exists (String c stem).
  - intros (stem & ->). induction stem as [|c stem IH].
    + change ("" ++ suffix) with suffix.
      destruct suffix; cbn [endswith]; now rewrite String.eqb_refl.
    + change (String c stem ++ suffix) with (String c (stem ++ suffix)).
      cbn [endswith]. rewrite IH. apply orb_true_r.
Qed.

Lemma is_audio_file_spec (f : string) :
  is_audio_file f = true <->
  exists stem ext, In ext [".wav"; ".mp3"; ".flac"; ".ogg"] /\ lower f = stem ++ ext.
Proof.
  unfold is_audio_file. rewrite existsb_exists. split.
  - intros (ext & Hin & Hend). apply endswith_spec in Hend as (stem & Heq). now exists stem, ext.
  - intros (stem & ext & Hin & Heq). exists ext. split; [exact Hin|].
    apply endswith_spec. now exists stem.
Qed.

Lemma In_enumerate_from {A} (l : list A) (a i : Z) (x : A) :
  In (i, x) (enumerate_from a l) <-> a <= i /\ l !! Z.to_nat (i - a) = Some x.
Proof.
  revert a. induction l as [|y l IH]; intros a; cbn [enumerate_from In].
  - split; [tauto | intros [_ Hl]; discriminate].
  - rewrite IH. split.
    + intros [[= <- <-]|[Ha Hl]].
      * split; [lia|]. now rewrite Z.sub_diag.
      * split; [lia|]. replace (Z.to_nat (i - a)) with (S (Z.to_nat (i - (a + 1)))) by lia.
        exact Hl.
    + intros [Ha Hl]. destruct (Z.eq_dec i a) as [->|Hne].
      * left. rewrite Z.sub_diag in Hl. change (Some y = Some x) in Hl.
        now injection Hl as ->.
      * right. split; [lia|].
        replace (Z.to_nat (i - a)) with (S (Z.to_nat (i - (a + 1)))) in Hl by lia.
        exact Hl.
Qed.

Lemma In_audio_files root names path idx :
  In (path, idx) (audio_files root names) <->
  exists f, 0 <= idx /\ names !! Z.to_nat idx = Some f /\
            is_audio_file f = true /\ path = path_join root f.
Proof.
  unfold audio_files, enumerate. rewrite in_map_iff. split.
  - intros ([i f] & [= <- <-] & Hin). apply filter_In in Hin as [Hin Hf].
    apply In_enumerate_from in Hin as [Hi Hl]. rewrite Z.sub_0_r in Hl.
    now exists f.
  - intros (f & Hi & Hl & Hf & ->). exists (idx, f). split; [reflexivity|].
    apply filter_In. split; [|exact Hf].
    apply In_enumerate_from. now rewrite Z.sub_0_r.
Qed.

Lemma audio_files_sorted_from root (names : list string) (a : Z) :
  let files := map (fun '(idx, f) => (path_join root f, idx))
                 (List.filter (fun '(_, f) => is_audio_file f) (enumerate_from a names)) in
  Forall (fun file : string * Z => a <= snd file) files /\
  StronglySorted Z.lt (map snd files).
Proof.
  revert a. induction names as [|f names IH]; intros a; cbn [enumerate_from List.filter].
  - cbn. split; constructor.
  - destruct (IH (a + 1)) as [Hge Hsorted]. cbv zeta in Hge, Hsorted.
    assert (Hge' : Forall (fun file : string * Z => a <= snd file)
                     (map (fun '(idx, f0) => (path_join root f0, idx))
                        (List.filter (fun '(_, f0) => is_audio_file f0)
                           (enumerate_from (a + 1) names)))).
    { eapply Forall_impl; [exact Hge|]. cbn beta. intros file Hfile. lia. }
    destruct (is_audio_file f); [|split; assumption].
    cbn [map snd]. split.
    + constructor; [cbn; lia | exact Hge'].
    + constructor; [exact Hsorted|].
      apply Forall_map. eapply Forall_impl; [exact Hge|]. cbn beta. intros file Hfile. lia.
Qed.

(** X12.  The files a run dispatches are exactly the entries of the
    directory listing whose lower-cased name ends in .wav, .mp3, .flac or
    .ogg; each is joined to the input root and keyed by its position in the
    whole listing (not among the audio files, so a skipped entry leaves a
    gap in the [idx0] values); the keys are strictly increasing, so no two
    dispatched files share an [idx0]. *)
Theorem dispatched_files_are_keyed_by_position root names :
  (forall path idx,
      In (path, idx) (audio_files root names) <->
      exists f, 0 <= idx /\ names !! Z.to_nat idx = Some f /\
                is_audio_file f = true /\ path = path_join root f) /\
  (forall f,
      is_audio_file f = true <->
      exists stem ext, In ext [".wav"; ".mp3"; ".flac"; ".ogg"] /\ lower f = stem ++ ext) /\
  StronglySorted Z.lt (map snd (audio_files root names)) /\
  NoDup (map snd (audio_files root names)).
Proof.
  split; [intros path idx; apply In_audio_files|].
  split; [exact is_audio_file_spec|].
  destruct (audio_files_sorted_from root names 0) as [_ Hsorted]. cbv zeta in Hsorted.
  split; [exact Hsorted|].
  change (NoDup (map snd (audio_files root names))).
  unfold audio_files, enumerate.
  induction Hsorted as [|i l Hs IH Hall]; constructor; [|exact IH].
  rewrite list_elem_of_In. intros Hin.
  rewrite List.Forall_forall in Hall. specialize (Hall i Hin). lia.
Qed.
End Listing.

Example dispatched_files_demo :
  audio_files "in" ["a.wav"; "notes.txt"; "B.FLAC"; "wav"; ".ogg"; "c.mp3.bak"; "d.Mp3"]
  = [("in/a.wav", 0); ("in/B.FLAC", 2); ("in/.ogg", 4); ("in/d.Mp3", 6)].
Proof. reflexivity. Qed.

(** ** The peak the normaliser leaves *)

Section NormalizePeak.
#[local] Open Scope Q_scope.

Lemma Qmax_scale (k x y x' y' : Q) :
  0 <= k -> x' == k * x -> y' == k * y -> Qmax x' y' == k * Qmax x y.
Proof.
  intros Hk Hx Hy. destruct (Qlt_le_dec x y) as [Hlt|Hle].
  - assert (Hxy : x <= y) by now apply Qlt_le_weak.
    rewrite (Q.max_r x y Hxy). rewrite <- Hy. apply Q.max_r.
    rewrite Hx, Hy. rewrite !(Qmult_comm k). now apply Qmult_le_compat_r.
  - rewrite (Q.max_l x y Hle). rewrite <- Hx. apply Q.max_l.
    rewrite Hx, Hy. rewrite !(Qmult_comm k). now apply Qmult_le_compat_r.
Qed.

Lemma fold_Qmax_scale (g : Q -> Q) (k : Q) (l : list Q) (b b' : Q) :
  0 <= k -> (forall a, Qabs (g a) == k * Qabs a) -> b' == k * b ->
  fold_left Qmax (map Qabs (map g l)) b' == k * fold_left Qmax (map Qabs l) b.
Proof.
  intros Hk Hg. revert b b'. induction l as [|a l IH]; intros b b' Hb; [exact Hb|].
  cbn [map fold_left]. apply IH. now apply Qmax_scale.
Qed.

(** The gain the normaliser applies to a window of peak [p]. *)
Definition gain (p : Q) : Q := (27 # 40) / p + (1 # 4).

Lemma rescaled_sample (a p : Q) :
  0 < p ->
  (a / p * (MAX_AMPLITUDE * ALPHA) + (f_of_Z 1 - ALPHA) * a)%pyf == gain p * a.
Proof.
  intros Hp. destruct constants_Q as (Hma & Hal & _ & _).
  cbn [f_add f_sub f_mul f_div f_of_Z Q_float]. rewrite Hma, Hal. unfold gain.
  change (inject_Z 1) with 1. field. intros Hz. rewrite Hz in Hp. now apply Qlt_irrefl in Hp.
Qed.

(** X13.  In exact arithmetic, for a window whose absolute peak [p]
    satisfies 0 < p <= 2.5, the normaliser multiplies every sample by the
    same positive gain [0.675 / p + 0.25], and the window it returns has
    absolute peak exactly [MAX_AMPLITUDE * ALPHA + (1 - ALPHA) * p], that is
    0.675 + 0.25 p: above 0.675 and at most 1.3, so above 1 as soon as the
    input peak is above 1.3. *)
Theorem normalize_audio_exact_peak (audio : list Q) (p : Q) :
  abs_max audio = inr p -> 0 < p -> p <= 5 # 2 ->
  exists out q,
    _normalize_audio audio = inr (Some out) /\
    Forall2 (fun a b => b == gain p * a) audio out /\
    0 < gain p /\
    abs_max out = inr q /\
    q == MAX_AMPLITUDE * ALPHA + (1 - ALPHA) * p /\
    q == (27 # 40) + (1 # 4) * p /\
    27 # 40 < q /\ q <= 13 # 10 /\
    (13 # 10 < p <-> 1 < q).
Proof.
  intros Hmax Hp Hle.
  set (g := fun a : Q => (a / p * (MAX_AMPLITUDE * ALPHA) + (f_of_Z 1 - ALPHA) * a)%pyf).
  assert (Hnorm : _normalize_audio audio = inr (Some (map g audio))).
  { unfold _normalize_audio. rewrite Hmax.
    replace (f_ltb (dec 25 1) p) with false; [reflexivity|].
    symmetry. apply Q_ltb_false. destruct constants_Q as (_ & _ & _ & ->). exact Hle. }
  assert (Hgain : 0 < gain p).
  { unfold gain. assert (0 < (27 # 40) / p) by (apply Qlt_shift_div_l; [exact Hp | lra]). lra. }
  assert (Hg : forall a, Qabs (g a) == gain p * Qabs a).
  { intros a. unfold g. rewrite (rescaled_sample a p Hp), Qabs_Qmult.
    now rewrite (Qabs_pos (gain p)) by now apply Qlt_le_weak. }
  destruct audio as [|a rest]; [discriminate|].
  cbn [abs_max] in Hmax. injection Hmax as Hmax.
  exists (map g (a :: rest)), (fold_left Qmax (map Qabs (map g rest)) (Qabs (g a))).
  assert (Hq : fold_left Qmax (map Qabs (map g rest)) (Qabs (g a)) == gain p * p).
  { rewrite <- Hmax at 2. apply fold_Qmax_scale; [now apply Qlt_le_weak | exact Hg | apply Hg]. }
  assert (Hq' : gain p * p == (27 # 40) + (1 # 4) * p).
  { unfold gain. field. intros Hz. rewrite Hz in Hp. now apply Qlt_irrefl in Hp. }
  split; [exact Hnorm|]. split.
  { clear Hmax Hq Hnorm. generalize (a :: rest). intros l.
    induction l as [|x l IH]; constructor; [|exact IH].
    unfold g. apply rescaled_sample, Hp. }
  split; [exact Hgain|]. split; [reflexivity|].
  destruct constants_Q as (Hma & Hal & _ & _).
  split; [rewrite Hq, Hq', Hma, Hal; ring|].
  split; [now rewrite Hq, Hq'|].
  rewrite Hq, Hq'. repeat split; intros; lra.
Qed.
End NormalizePeak.

Lemma normalize_audio_exact_peak_witness :
  exists out q,
    _normalize_audio [1; -2]%Q = inr (Some out) /\
    abs_max out = inr q /\
    (q == (27 # 40) + (1 # 4) * 2)%Q /\
    (1 < q)%Q.
Proof.
  destruct (normalize_audio_exact_peak [1; -2]%Q 2%Q eq_refl eq_refl ltac:(discriminate))
    as (out & q & Hn & _ & _ & Hm & _ & Hq & _ & _ & Hone).
  exists out, q. split; [exact Hn|]. split; [exact Hm|]. split; [exact Hq|].
  apply Hone. reflexivity.
Defined.

(** ** Cutting a file that is too short to cut *)

Section ShortFile.
#[local] Open Scope Q_scope.
Variables (E : env Q) (self : PreProcess Q).

(** X14.  In exact arithmetic, for a file whose filtered waveform the
    segmenter hands back whole as its only segment and which lasts less than
    [per + OVERLAP] seconds, cut_preprocess makes no difference:
    [process_audio] with cutting and without it return the same duration and
    leave the same file system, whatever the writer does (one call of the
    writer, on the whole waveform, under index 0). *)
Theorem short_file_cut_or_not path idx0 (eff : bool) audio y :
  (0 < sr self)%Z ->
  load_audio E path (sr self) = inr audio ->
  (if eff then lfilter_high E (sr self) audio else inr audio) = inr y ->
  slicer_slice E (sr self) y = Yield y Stop ->
  get_duration y (sr self) < per self + OVERLAP ->
  forall fuel fuel' fs0,
    process_audio E (S fuel) self path idx0 true eff fs0
      = process_audio E fuel' self path idx0 false eff fs0 /\
    exists s',
      final (process_audio_try E fuel' self path idx0 false eff (new_frame fs0)) = Some s' /\
      calls s' = [(idx0, 0%Z, y)].
Proof.
  intros Hrate Hload Hfilter Hslice Hshort fuel fuel' fs0.
  rewrite !process_audio_eq, !process_audio_try_eq, Hload. cbv zeta.
  rewrite Hfilter, Hslice. cbn [for_in]. unfold bind.
  rewrite cut_loop_eq, f_int_start, start_of_0.
  assert (Htail : long_tail self y 0 = false).
  { apply long_tail_false. rewrite slice_from_0.
    apply Qlt_le_weak, duration_below; assumption. }
  rewrite Htail, slice_from_0.
  set (s2 := set_idx1 0 (set_audio_length (get_duration audio (sr self)) (new_frame fs0))).
  change (idx1 s2) with 0%Z.
  destruct (process_audio_segment_final E self y idx0 0 eff s2) as (s1 & Hf & Hcalls & _).
  split.
  - destruct (process_audio_segment E self y idx0 0 eff s2) as [[] t|e t|]; reflexivity.
  - exists s1. split; [exact Hf | exact Hcalls].
Qed.
End ShortFile.

Lemma short_file_cut_or_not_witness :
  process_audio (DemoQ.world (DemoQ.tone 120)) 1 (DemoQ.pp 100 1) "in/take1.wav" 0 true true ∅
  = process_audio (DemoQ.world (DemoQ.tone 120)) 0 (DemoQ.pp 100 1) "in/take1.wav" 0 false true ∅.
Proof.
  exact (proj1 (short_file_cut_or_not (DemoQ.world (DemoQ.tone 120)) (DemoQ.pp 100 1)
                  "in/take1.wav" 0 true (DemoQ.tone 120) (DemoQ.tone 120)
                  eq_refl eq_refl eq_refl eq_refl ltac:(vm_compute; reflexivity) 0%nat 0%nat ∅)).
Defined.

(** ** Running the preprocessing again *)

Section Effects.
Context {F : Type} `{PyFloat F} (E : env F).

(** A sequence of file writes, oldest first, and what it does to a file
    system. *)
Definition apply_writes (ws : list (string * file F)) (m : gmap string (file F))
    : gmap string (file F) :=
  fold_left (fun m kv => <[fst kv := snd kv]> m) ws m.

(** The last value a sequence writes under [k], if it writes there. *)
Fixpoint written (ws : list (string * file F)) (k : string) : option (file F) :=
  match ws with
  | [] => None
  | kv :: ws' =>
      match written ws' k with
      | Some w => Some w
      | None => if decide (fst kv = k) then Some (snd kv) else None
      end
  end.

Lemma apply_writes_app ws1 ws2 m :
  apply_writes (ws1 ++ ws2) m = apply_writes ws2 (apply_writes ws1 m).
Proof. apply fold_left_app. Qed.

Lemma lookup_apply_writes ws m k :
  apply_writes ws m !! k =
  match written ws k with
  | Some w => Some w
  | None => m !! k
  end.
Proof.
  revert m. induction ws as [|[k' v] ws IH]; intros m; [reflexivity|].
  cbn [apply_writes fold_left written fst snd]. fold (apply_writes ws (<[k' := v]> m)).
  rewrite IH. destruct (written ws k); [reflexivity|].
  destruct (decide (k' = k)) as [->|Hne].
  - apply lookup_insert_eq.
  - now apply lookup_insert_ne.
Qed.

(** What a statement over a frame comes to, when it does not look at the
    file system: the way it ends, its writes, the calls it logs and the
    index it leaves. *)
Inductive summary (A : Type) : Type :=
  | SRet (a : A) (ws : list (string * file F)) (cs : list (Z * Z * list F)) (j : Z)
  | SRaise (e : exn) (ws : list (string * file F)) (cs : list (Z * Z * list F)) (j : Z)
  | SSpin.
Arguments SRet {A} a ws cs j.
Arguments SRaise {A} e ws cs j.
Arguments SSpin {A}.

Definition frame_after (ws : list (string * file F)) (cs : list (Z * Z * list F)) (j : Z)
    (s : frame F) : frame F :=
  {| fs := apply_writes ws (fs s); audio_length := audio_length s;
     idx1 := j; calls := (calls s ++ cs)%list |}.

Definition replay {A} (o : summary A) (s : frame F) : result (frame F) A :=
  match o with
  | SRet a ws cs j => Ret a (frame_after ws cs j s)
  | SRaise e ws cs j => Raise e (frame_after ws cs j s)
  | SSpin => Spin
  end.

Lemma frame_after_after ws cs j ws' cs' j' s :
  frame_after ws' cs' j' (frame_after ws cs j s)
    = frame_after (ws ++ ws') (cs ++ cs') j' s.
Proof.
  unfold frame_after. cbn [fs audio_length idx1 calls].
  now rewrite apply_writes_app, app_assoc.
Qed.

Lemma frame_after_set_idx1 ws cs j n s :
  set_idx1 n (frame_after ws cs j s) = frame_after ws cs n s.
Proof. reflexivity. Qed.

Variables (self : PreProcess F) (idx0 : Z) (eff : bool).

Lemma segment_summary seg (j : Z) :
  exists o : summary unit, forall s : frame F,
    idx1 s = j ->
    process_audio_segment E self seg idx0 (idx1 s) eff s = replay o s /\
    match o with SRet _ _ _ j' | SRaise _ _ _ j' => j' = j | SSpin => True end.
Proof.
  pose (c := (idx0, j, seg)).
  assert (Hframe : forall (s : frame F) ws, idx1 s = j ->
            frame_after ws [c] j s
            = set_fs (apply_writes ws) (log_call (idx0, idx1 s, seg) s)).
  { intros s ws Hj. unfold frame_after, set_fs, log_call, c. cbn. now rewrite Hj. }
  destruct (if eff then _normalize_audio seg else inr (Some seg)) as [e|[na|]] eqn:Hnorm.
  - exists (SRaise e [] [c] j). intros s Hj. split; [|reflexivity].
    rewrite process_audio_segment_eq. cbv zeta. rewrite Hnorm. cbn [replay].
    rewrite (Hframe s [] Hj). reflexivity.
  - destruct (write_error E (native_path self idx0 j)) as [e|] eqn:Hw1.
    { exists (SRaise e [] [c] j). intros s Hj. split; [|reflexivity].
      rewrite process_audio_segment_eq. cbv zeta. rewrite Hnorm, Hj, Hw1. cbn [replay].
      rewrite (Hframe s [] Hj), Hj. reflexivity. }
    set (n1 := (native_path self idx0 j, WavFile (sr self) (astype_float32 E na))).
    destruct (resample E na (sr self) SAMPLE_RATE_16K) as [e|a16] eqn:Hres.
    { exists (SRaise e [n1] [c] j). intros s Hj. split; [|reflexivity].
      rewrite process_audio_segment_eq. cbv zeta. rewrite Hnorm, Hj, Hw1, Hres. cbn [replay].
      rewrite (Hframe s [n1] Hj), Hj. reflexivity. }
    destruct (write_error E (k16_path self idx0 j)) as [e|] eqn:Hw2.
    { exists (SRaise e [n1] [c] j). intros s Hj. split; [|reflexivity].
      rewrite process_audio_segment_eq. cbv zeta.
      rewrite Hnorm, Hj, Hw1, Hres, Hw2. cbn [replay].
      rewrite (Hframe s [n1] Hj), Hj. reflexivity. }
    exists (SRet tt [n1; (k16_path self idx0 j,
                          WavFile SAMPLE_RATE_16K (astype_float32 E a16))] [c] j).
    intros s Hj. split; [|reflexivity].
    rewrite process_audio_segment_eq. cbv zeta.
    rewrite Hnorm, Hj, Hw1, Hres, Hw2. cbn [replay].
    rewrite (Hframe s _ Hj), Hj. reflexivity.
  - exists (SRet tt [] [c] j). intros s Hj. split; [|reflexivity].
    rewrite process_audio_segment_eq. cbv zeta. rewrite Hnorm. cbn [replay].
    rewrite (Hframe s [] Hj). reflexivity.
Qed.

Lemma cut_loop_summary fuel seg i (j : Z) :
  exists o : summary unit, forall s : frame F,
    idx1 s = j -> cut_loop E fuel self seg i idx0 eff s = replay o s.
Proof.
  revert i j. induction fuel as [|fuel IH]; intros i j.
  - exists SSpin. reflexivity.
  - destruct (f_int (start_expr self i)) as [start|] eqn:Hstart.
    2:{ exists (SRaise ValueError [] [] j). intros s Hj.
        rewrite cut_loop_eq, Hstart. cbn [replay]. f_equal.
        unfold frame_after. destruct s. cbn in *. subst j.
        now rewrite app_nil_r. }
    destruct (long_tail self seg start) eqn:Htail.
    + destruct (f_int (per self * f_of_Z (sr self))%pyf) as [n|] eqn:Hn.
      2:{ exists (SRaise ValueError [] [] j). intros s Hj.
          rewrite cut_loop_eq, Hstart, Htail, Hn. cbn [replay]. f_equal.
          unfold frame_after. destruct s. cbn in *. subst j.
          now rewrite app_nil_r. }
      destruct (segment_summary (py_slice seg start (start + n)) j) as [o1 Ho1].
      destruct (IH (i + 1) (j + 1)) as [o2 Ho2].
      destruct o1 as [[] ws cs j1|e ws cs j1|].
      * destruct o2 as [[] ws' cs' j'|e ws' cs' j'|].
        -- exists (SRet tt (ws ++ ws') (cs ++ cs') j'). intros s Hj.
           destruct (Ho1 s Hj) as [Hseg _].
           rewrite cut_loop_eq, Hstart, Htail, Hn, Hseg. cbn [replay].
           rewrite frame_after_set_idx1, (Ho2 (frame_after ws cs (idx1 s + 1) s))
             by (cbn; lia).
           cbn [replay]. now rewrite frame_after_after.
        -- exists (SRaise e (ws ++ ws') (cs ++ cs') j'). intros s Hj.
           destruct (Ho1 s Hj) as [Hseg _].
           rewrite cut_loop_eq, Hstart, Htail, Hn, Hseg. cbn [replay].
           rewrite frame_after_set_idx1, (Ho2 (frame_after ws cs (idx1 s + 1) s))
             by (cbn; lia).
           cbn [replay]. now rewrite frame_after_after.
        -- exists SSpin. intros s Hj.
           destruct (Ho1 s Hj) as [Hseg _].
           rewrite cut_loop_eq, Hstart, Htail, Hn, Hseg. cbn [replay].
           rewrite frame_after_set_idx1, (Ho2 (frame_after ws cs (idx1 s + 1) s))
             by (cbn; lia).
           reflexivity.
      * exists (SRaise e ws cs j1). intros s Hj. destruct (Ho1 s Hj) as [Hseg _].
        rewrite cut_loop_eq, Hstart, Htail, Hn, Hseg. reflexivity.
      * exists SSpin. intros s Hj. destruct (Ho1 s Hj) as [Hseg _].
        rewrite cut_loop_eq, Hstart, Htail, Hn, Hseg. reflexivity.
    + destruct (segment_summary (slice_from seg start) j) as [o1 Ho1].
      destruct o1 as [[] ws cs j1|e ws cs j1|].
      * exists (SRet tt ws cs (j + 1)). intros s Hj. destruct (Ho1 s Hj) as [Hseg _].
        rewrite cut_loop_eq, Hstart, Htail, Hseg. cbn [replay].
        now rewrite frame_after_set_idx1, Hj.
      * exists (SRaise e ws cs j1). intros s Hj. destruct (Ho1 s Hj) as [Hseg _].
        rewrite cut_loop_eq, Hstart, Htail, Hseg. reflexivity.
      * exists SSpin. intros s Hj. destruct (Ho1 s Hj) as [Hseg _].
        rewrite cut_loop_eq, Hstart, Htail, Hseg. reflexivity.
Qed.

Lemma for_in_summary fuel (g : gen (list F)) (j : Z) :
  exists o : summary unit, forall s : frame F,
    idx1 s = j ->
    for_in g (fun seg => cut_loop E fuel self seg 0 idx0 eff) s = replay o s.
Proof.
  revert j. induction g as [|seg rest IH|e]; intros j.
  - exists (SRet tt [] [] j). intros s Hj. cbn [for_in replay]. unfold ret. f_equal.
    unfold frame_after. destruct s. cbn in *. subst j. now rewrite app_nil_r.
  - destruct (cut_loop_summary fuel seg 0 j) as [o1 Ho1].
    destruct o1 as [[] ws cs j1|e ws cs j1|].
    + destruct (IH j1) as [o2 Ho2].
      destruct o2 as [[] ws' cs' j'|e ws' cs' j'|].
      * exists (SRet tt (ws ++ ws') (cs ++ cs') j'). intros s Hj.
        cbn [for_in]. unfold bind. rewrite (Ho1 s Hj). cbn [replay].
        rewrite (Ho2 (frame_after ws cs j1 s)) by reflexivity.
        cbn [replay]. now rewrite frame_after_after.
      * exists (SRaise e (ws ++ ws') (cs ++ cs') j'). intros s Hj.
        cbn [for_in]. unfold bind. rewrite (Ho1 s Hj). cbn [replay].
        rewrite (Ho2 (frame_after ws cs j1 s)) by reflexivity.
        cbn [replay]. now rewrite frame_after_after.
      * exists SSpin. intros s Hj.
        cbn [for_in]. unfold bind. rewrite (Ho1 s Hj). cbn [replay].
        now rewrite (Ho2 (frame_after ws cs j1 s)) by reflexivity.
    + exists (SRaise e ws cs j1). intros s Hj.
      cbn [for_in]. unfold bind. now rewrite (Ho1 s Hj).
    + exists SSpin. intros s Hj.
      cbn [for_in]. unfold bind. now rewrite (Ho1 s Hj).
  - exists (SRaise e [] [] j). intros s Hj. cbn [for_in replay]. unfold raise. f_equal.
    unfold frame_after. destruct s. cbn in *. subst j. now rewrite app_nil_r.
Qed.

(** [process_audio] never reads the file system: what it returns and what
    it writes are the same whatever is on disk. *)
Lemma process_audio_summary fuel path cut :
  exists (r : option F) (ws : list (string * file F)), forall fs0,
    process_audio E fuel self path idx0 cut eff fs0 =
    match r with
    | Some d => Ret d (apply_writes ws fs0)
    | None => Spin
    end.
Proof.
  destruct (load_audio E path (sr self)) as [e|audio] eqn:Hload.
  { exists (Some (f_of_Z 0)), []. intros fs0.
    now rewrite (process_audio_undecodable E fuel self path idx0 cut eff fs0 e Hload). }
  destruct (if eff then lfilter_high E (sr self) audio else inr audio) as [e|y] eqn:Hfilter.
  { exists (Some (get_duration audio (sr self))), []. intros fs0.
    rewrite process_audio_eq, process_audio_try_eq, Hload. cbv zeta. now rewrite Hfilter. }
  assert (Hsum : exists o : summary unit, forall fs0,
            process_audio_try E fuel self path idx0 cut eff (new_frame fs0)
            = replay o (set_idx1 0 (set_audio_length (get_duration audio (sr self))
                                      (new_frame fs0)))).
  { destruct cut.
    - destruct (for_in_summary fuel (slicer_slice E (sr self) y) 0) as [o Ho].
      exists o. intros fs0. rewrite process_audio_try_eq, Hload. cbv zeta. rewrite Hfilter.
      now apply Ho.
    - destruct (segment_summary y 0) as [o Ho]. exists o. intros fs0.
      rewrite process_audio_try_eq, Hload. cbv zeta. rewrite Hfilter.
      now apply (Ho (set_idx1 0 (set_audio_length (get_duration audio (sr self))
                                   (new_frame fs0)))). }
  destruct Hsum as [o Ho].
  destruct o as [[] ws cs j|e ws cs j|].
  - exists (Some (get_duration audio (sr self))), ws. intros fs0.
    now rewrite process_audio_eq, Ho.
  - exists (Some (get_duration audio (sr self))), ws. intros fs0.
    now rewrite process_audio_eq, Ho.
  - exists None, []. intros fs0. now rewrite process_audio_eq, Ho.
Qed.
End Effects.

Section Rerun.
Context {F : Type} `{PyFloat F} (E : env F).

Lemma pool_map_summary fuel pp files cut eff :
  exists (r : option (list F)) (ws : list (string * file F)), forall fs0,
    pool_map (process_audio_wrapper E fuel) (jobs pp files cut eff) fs0 =
    match r with
    | Some ds => Ret ds (apply_writes ws fs0)
    | None => Spin
    end.
Proof.
  induction files as [|[path idx0] files (r & ws & IH)].
  - exists (Some []), []. reflexivity.
  - destruct (process_audio_summary E pp idx0 eff fuel path cut) as (r1 & ws1 & H1).
    destruct r1 as [d|].
    + destruct r as [ds|].
      * exists (Some (d :: ds)), (ws1 ++ ws)%list. intros fs0.
        cbn [jobs map pool_map]. unfold bind. cbn [process_audio_wrapper].
        rewrite H1. fold (jobs pp files cut eff). rewrite IH.
        unfold ret. now rewrite apply_writes_app.
      * exists None, []. intros fs0.
        cbn [jobs map pool_map]. unfold bind. cbn [process_audio_wrapper].
        rewrite H1. fold (jobs pp files cut eff). now rewrite IH.
    + exists None, []. intros fs0.
      cbn [jobs map pool_map]. unfold bind. cbn [process_audio_wrapper].
      now rewrite H1.
Qed.

Lemma save_dataset_duration_returns path seconds (fs0 fs1 : gmap string (file F)) :
  save_dataset_duration E path seconds fs0 = Ret tt fs1 ->
  exists old text,
    duration_text seconds = Some text /\ write_error E path = None /\
    fs1 = <[path := JsonFile (JObj (map_to_list (merged old text seconds)))]> fs0.
Proof.
  rewrite save_dataset_duration_eq.
  destruct (match loaded fs0 path with
            | inl FileNotFoundError => inr (Dict ∅)
            | r => r
            end) as [e|[old|j]]; [discriminate| |].
  - destruct (duration_text seconds) as [text|]; [|discriminate].
    destruct (write_error E path); [discriminate|].
    intros [= <-]. now exists old, text.
  - destruct (duration_text seconds); discriminate.
Qed.

(** X15.  A run that returned can be run again on what it left, with the
    same arguments and the same inputs, and returns leaving exactly the same
    file system: the artifacts are overwritten with the same contents and
    the report's totals are replaced by the same totals (nothing is
    accumulated from one run to the next, and nothing the run reads back
    from disk changes what it does). *)
Theorem rerun_changes_nothing fuel input_root rate nproc exp window cut eff
    (fs0 fs1 : gmap string (file F)) :
  preprocess_training_set E fuel input_root rate nproc exp window cut eff fs0 = Ret tt fs1 ->
  preprocess_training_set E fuel input_root rate nproc exp window cut eff fs1 = Ret tt fs1.
Proof.
  rewrite !preprocess_training_set_cases.
  destruct (rate <=? 2 * HIGH_PASS_CUTOFF) eqn:Hrate; [discriminate|].
  destruct (makedirs_error E _); [discriminate|].
  destruct (makedirs_error E _); [discriminate|].
  destruct (listdir E input_root) as [e|names]; [discriminate|].
  destruct (nproc <? 1); [discriminate|].
  set (pp := instance rate exp window).
  assert (Hc : constructed pp) by (apply instance_constructed, Z.leb_gt, Hrate).
  destruct (pool_map_summary fuel pp (audio_files input_root names) cut eff)
    as (r & ws & Hpool).
  rewrite !Hpool. destruct r as [ds|]; [|discriminate].
  intros Hsave.
  destruct (save_dataset_duration_returns _ _ _ _ Hsave) as (old & text & Htext & Hw & Hfs1).
  set (R := JsonFile (JObj (map_to_list (merged old text (py_sum ds))))) in Hfs1.
  assert (Hreport : apply_writes ws fs1 !! report_path exp = Some R).
  { pose proof (pool_map_keeps_report E fuel pp (audio_files input_root names) cut eff
                  fs1 ds (apply_writes ws fs1) Hc (Hpool fs1)) as Hkeep.
    change (exp_dir pp) with exp in Hkeep. rewrite Hkeep, Hfs1. apply lookup_insert_eq. }
  rewrite save_dataset_duration_eq. unfold loaded. rewrite Hreport. unfold R at 1.
  rewrite dump_load, Htext, Hw, merged_merged. fold R. f_equal.
  apply map_eq. intros k. rewrite Hfs1.
  destruct (decide (k = report_path exp)) as [->|Hne].
  - now rewrite !lookup_insert_eq.
  - rewrite !lookup_insert_ne by congruence.
    rewrite !lookup_apply_writes. destruct (written ws k) eqn:Hwr; [reflexivity|].
    rewrite lookup_insert_ne by congruence.
    now rewrite lookup_apply_writes, Hwr.
Qed.
End Rerun.

Lemma rerun_changes_nothing_witness :
  let E := Demo.world (Demo.tone 150) (fun _ => false) in
  match preprocess_training_set E 4 "in" 100 1 "logs/m" 1%float true true ∅ with
  | Ret _ fs1 =>
      preprocess_training_set E 4 "in" 100 1 "logs/m" 1%float true true fs1 = Ret tt fs1
  | _ => False
  end.
Proof.
  intros E.
  assert (Hobs : match preprocess_training_set E 4 "in" 100 1 "logs/m" 1%float true true ∅ with
                 | Ret _ _ => true
                 | _ => false
                 end = true) by (vm_compute; reflexivity).
  destruct (preprocess_training_set E 4 "in" 100 1 "logs/m" 1%float true true ∅)
    as [[] fs1|e fs1|] eqn:Hrun; [|discriminate Hobs..].
  exact (rerun_changes_nothing E 4%nat "in" 100 1 "logs/m" 1%float true true ∅ fs1 Hrun).
Defined.
